(** * VM lifecycle supervisor of the Docker-on-Android dashboard

    A shallow embedding of the pieces of the repository that start, stop,
    poll and talk to the QEMU child process, and of the log buffers kept on
    the way:

    - [JavaString]: the [java.lang.String] operations the Java sources use;
    - [QemuService]: the Android foreground service (QemuService.java);
    - [QemuManager]: command execution and file logs (QemuManager.java);
    - [QemuJni]: the native wrapper (qemu_jni.c);
    - [QemuStore]: the Zustand store of the UI tier (useQemuStore);
    - [QemuModule]: the bridge between the two tiers (QemuModule.java).

    Java and JavaScript strings are lists of characters; Java [int]s are
    integers of [Z], with the 32-bit wrap-around written where a value can
    leave the range. What the program asks of its surroundings (the
    operating system, the native bridge, the clock) is given to each
    operation as a record of answers, and what it does to them is returned
    as a list of calls in program order.

    The models come first, then the notions the statements use, then the
    properties: the log buffers (C5, C6, C10), command execution and the
    control channel (C9, C7), and the lifecycle (C4, C1, C2, C8, C3);
    after them, further properties of the store, the service, the manager,
    the native wrapper and the bridge (X1 to X27). *)

From Stdlib Require Import ZArith Lia Ascii String List Bool DecimalString.
From Stdlib Require Import DecimalPos DecimalZ.
From stdpp Require Import base list.

Local Open Scope Z_scope.

(** A string of the program: its characters in order. *)
Abbreviation jstring := (list ascii).

(** A literal of the source. *)
Definition str (s : string) : jstring := list_ascii_of_string s.

Definition nl : ascii := "010"%char.
Definition cr : ascii := "013"%char.
Definition dquote : ascii := "034"%char.
Definition backslash : ascii := "092"%char.

(** The last [n] elements of [l] (all of [l] when it has fewer). *)
Definition lastn {A} (n : nat) (l : list A) : list A :=
  drop (length l - n)%nat l.

(** Java's two's-complement [int]. *)
Definition wrap32 (z : Z) : Z := (z + 2 ^ 31) mod 2 ^ 32 - 2 ^ 31.

(** The outcome of a call that can throw. *)
Inductive Result (E A : Type) : Type :=
| Ok (a : A)
| Throw (e : E).
Arguments Ok {E A} a.
Arguments Throw {E A} e.

(** A Java exception, as far as the program reads it. *)
Record Exception : Type := { getMessage : option jstring }.

Definition IOException (msg : jstring) : Exception := {| getMessage := Some msg |}.

(** A JavaScript error, as far as the program reads it. *)
Record JsError : Type := { message : jstring }.

(** An integer in decimal, as [String.valueOf(int)] and a template literal
    print it. *)
Definition decimal (z : Z) : jstring :=
  str (NilZero.string_of_int (Z.to_int z)).

(* ================================================================= *)
(** ** java.lang.String *)

Module JavaString.

Definition ascii_eqb (a b : ascii) : bool := Ascii.eqb a b.
#[global] Arguments ascii_eqb : simpl never.

(** [s.startsWith(p)] *)
Fixpoint startsWith (p s : jstring) : bool :=
  match p, s with
  | [], _ => true
  | _ :: _, [] => false
  | a :: p', b :: s' => ascii_eqb a b && startsWith p' s'
  end.

(** Index of the first occurrence of [p] in [s], counted from the head of
    [s]; [None] when there is none. *)
Fixpoint find (p s : jstring) : option nat :=
  if startsWith p s then Some 0%nat
  else match s with
       | [] => None
       | _ :: s' => option_map S (find p s')
       end.

(** [s.indexOf(p)]: -1 when [p] does not occur. *)
Definition indexOf (p s : jstring) : Z :=
  match find p s with
  | Some i => Z.of_nat i
  | None => -1
  end.

(** [s.indexOf(p, from)]: a negative [from] counts as 0. *)
Definition indexOfFrom (p : jstring) (from : Z) (s : jstring) : Z :=
  let k := Z.to_nat (Z.max 0 from) in
  match find p (drop k s) with
  | Some i => if (k <=? length s)%nat then Z.of_nat (k + i) else -1
  | None => -1
  end.

(** [s.contains(p)] *)
Definition contains (p s : jstring) : bool :=
  match find p s with Some _ => true | None => false end.

(** [s.substring(b, e)], for 0 <= b <= e <= length. *)
Definition substring (b e : Z) (s : jstring) : jstring :=
  take (Z.to_nat (e - b)) (drop (Z.to_nat b) s).

(** [s.replace(target, replacement)] for a non-empty [target]: the
    occurrences are replaced from left to right and do not overlap.
    [skip] counts the characters of a matched occurrence still to be
    passed over. *)
Fixpoint replace_from (target repl : jstring) (skip : nat) (s : jstring)
  : jstring :=
  match s with
  | [] => []
  | c :: s' =>
      match skip with
      | S k => replace_from target repl k s'
      | O =>
          if startsWith target s
          then repl ++ replace_from target repl (length target - 1) s'
          else c :: replace_from target repl 0 s'
      end
  end.

Definition replace (target repl s : jstring) : jstring :=
  replace_from target repl 0 s.

(** The pieces of [s] between the occurrences of the character [sep];
    there is one piece more than there are separators. *)
Fixpoint pieces (sep : ascii) (s : jstring) : list jstring :=
  match s with
  | [] => [[]]
  | c :: s' =>
      if ascii_eqb c sep then [] :: pieces sep s'
      else match pieces sep s' with
           | [] => [[c]]
           | p :: ps => (c :: p) :: ps
           end
  end.

(** Trailing empty strings are not part of the result of [split]. *)
Fixpoint dropTrailingEmpty (l : list jstring) : list jstring :=
  match l with
  | [] => []
  | p :: ps =>
      match dropTrailingEmpty ps with
      | [] => match p with [] => [] | _ => [p] end
      | r => p :: r
      end
  end.

(** [s.split(sep)] for a one-character separator: when the separator
    does not occur the result is the string itself (also for the empty
    string); otherwise the pieces, trailing empty ones removed. *)
Definition split (sep : ascii) (s : jstring) : list jstring :=
  if contains [sep] s then dropTrailingEmpty (pieces sep s) else [s].

(** [a.equals(b)], and [===] on JavaScript strings. *)
Fixpoint equals (a b : jstring) : bool :=
  match a, b with
  | [], [] => true
  | x :: a', y :: b' => ascii_eqb x y && equals a' b'
  | _, _ => false
  end.

(** String concatenation with a possibly null reference: Java prints
    the word null. *)
Definition valueOf (o : option jstring) : jstring :=
  match o with Some s => s | None => str "null" end.

End JavaString.

(* ================================================================= *)
(** ** QemuService.java: the foreground service *)

Module QemuService.
Import JavaString.

(** What the service leaves outside itself, in program order. Debug
    logging is left out. *)
Inductive Action : Type :=
| LogW (msg : jstring)
| LogE (msg : jstring)
| StartForeground (text : jstring)
| Spawn (command : list jstring)
| StartOutputReader
| UpdateNotification (text : jstring)
| Destroy
| DestroyForcibly
| InterruptReader
| StopForeground
| StopSelf.

(** The child process as the operating system presents it: its id and
    how many ticks after SIGTERM it exits, [None] for a child that does
    not exit on SIGTERM. *)
Record Child : Type := { childPid : Z; termDelay : option nat }.

(** The surroundings of one call. *)
Record Env : Type := {
  filesDir : jstring;
  nativeLibraryDir : jstring;
  binaryExists : bool;
  (** [ProcessBuilder.start()] *)
  start : list jstring -> Result Exception Child;
  currentTimeMillis : Z;
  (** ticks until the calling thread is interrupted, [None] for never *)
  interruptIn : option nat
}.

(** The mutable fields of the service. *)
Record State : Type := {
  qemuProcess : option Child;
  isRunning : bool;
  startTime : Z;
  outputReaderThread : bool;
  logBuffer : jstring
}.

Definition initial : State :=
  {| qemuProcess := None; isRunning := false; startTime := 0;
     outputReaderThread := false; logBuffer := [] |}.

(** [new File(dir, name).getAbsolutePath()] *)
Definition file (dir name : jstring) : jstring := dir ++ str "/" ++ name.

Definition buildQemuCommand (env : Env) (ramMB cpuCores : Z) : list jstring :=
  let qemuDir := file (filesDir env) (str "qemu") in
  let qemuBinary := file (nativeLibraryDir env) (str "libqemu-system-x86_64.so") in
  [ if binaryExists env then qemuBinary else str "/system/bin/qemu-system-x86_64";
    str "-machine"; str "q35,accel=tcg";
    str "-cpu"; str "max";
    str "-smp"; decimal cpuCores;
    str "-m"; decimal ramMB;
    str "-display"; str "none";
    str "-serial"; str "stdio";
    str "-drive";
    str "file=" ++ file qemuDir (str "alpine-disk.qcow2") ++ str ",if=virtio,format=qcow2";
    str "-cdrom"; file qemuDir (str "alpine-virt.iso");
    str "-netdev";
    str "user,id=net0," ++ str "hostfwd=tcp::2375-:2375," ++ str "hostfwd=tcp::2222-:22,"
      ++ str "hostfwd=tcp::8080-:8080," ++ str "hostfwd=tcp::8443-:443";
    str "-device"; str "virtio-net-pci,netdev=net0";
    str "-qmp"; str "unix:" ++ file qemuDir (str "qmp.sock") ++ str ",server,nowait";
    str "-daemonize" ].

(** [startQemu(ramMB, cpuCores)] *)
Definition startQemu (env : Env) (ramMB cpuCores : Z) (s : State)
  : State * list Action :=
  if isRunning s then (s, [LogW (str "QEMU is already running")])
  else
    let command := buildQemuCommand env ramMB cpuCores in
    match start env command with
    | Ok p =>
        ({| qemuProcess := Some p; isRunning := true;
            startTime := currentTimeMillis env;
            outputReaderThread := true; logBuffer := logBuffer s |},
         [StartForeground (str "Starting VM..."); Spawn command;
          StartOutputReader; UpdateNotification (str "Alpine Linux VM Running")])
    | Throw e =>
        ({| qemuProcess := qemuProcess s; isRunning := false;
            startTime := startTime s;
            outputReaderThread := outputReaderThread s;
            logBuffer := logBuffer s |},
         [StartForeground (str "Starting VM...");
          LogE (str "Failed to start QEMU: " ++ valueOf (getMessage e));
          StopSelf])
    end.

(** How [Process.waitFor()] ends. *)
Inductive Wait : Type := Exited | Interrupted.

(** [qemuProcess.waitFor()], one unit of [fuel] per tick spent blocked:
    it returns once the child has exited, throws when the thread is
    interrupted, and is otherwise still blocked ([None]) when the fuel
    is used up. *)
Fixpoint waitFor (fuel : nat) (exitIn interruptIn : option nat) : option Wait :=
  match exitIn, interruptIn, fuel with
  | Some O, _, _ => Some Exited
  | _, Some O, _ => Some Interrupted
  | _, _, O => None
  | _, _, S fuel' => waitFor fuel' (Nat.pred <$> exitIn) (Nat.pred <$> interruptIn)
  end.

(** The assignments of [stopQemu] after the process has been dealt with. *)
Definition stopped (s : State) : State :=
  {| qemuProcess := None; isRunning := false; startTime := 0;
     outputReaderThread := false; logBuffer := logBuffer s |}.

Definition afterStop (s : State) : list Action :=
  (if outputReaderThread s then [InterruptReader] else [])
    ++ [StopForeground; StopSelf].

(** [stopQemu()]: [None] when the call has not returned within [fuel]
    ticks. *)
Definition stopQemu (fuel : nat) (env : Env) (s : State)
  : option (State * list Action) :=
  if negb (isRunning s) then Some (s, [])
  else
    match qemuProcess s with
    | Some p =>
        match waitFor fuel (termDelay p) (interruptIn env) with
        | Some Exited => Some (stopped s, Destroy :: afterStop s)
        | Some Interrupted =>
            Some (stopped s, Destroy :: DestroyForcibly :: afterStop s)
        | None => None
        end
    | None => Some (stopped s, afterStop s)
    end.

(** The cap of [logBuffer], in characters. *)
Definition LOG_CAP : Z := 10000.

(** The body of the reader loop for one line read from the child:
    append the line and a newline, then keep the last 10000 chars. *)
Definition appendLine (logBuffer line : jstring) : jstring :=
  let b := logBuffer ++ line ++ [nl] in
  let len := Z.of_nat (length b) in
  if LOG_CAP <? len then drop (Z.to_nat (len - LOG_CAP)) b else b.

(** The reader loop over the lines the child prints, in order. *)
Definition readerLoop (logBuffer : jstring) (lines : list jstring) : jstring :=
  fold_left appendLine lines logBuffer.

(** [getLogs(lines)]: [lines] is a Java int. *)
Definition getLogs (logBuffer : jstring) (lines : Z) : jstring :=
  let allLines := split nl logBuffer in
  let start := Z.max 0 (wrap32 (Z.of_nat (length allLines) - lines)) in
  concat (map (fun l => l ++ [nl]) (drop (Z.to_nat start) allLines)).

(** Java's two's-complement [long]. *)
Definition wrap64 (z : Z) : Z := (z + 2 ^ 63) mod 2 ^ 64 - 2 ^ 63.

(** [getUptime()], in seconds, when the clock reads [now]. *)
Definition getUptime (now : Z) (s : State) : Z :=
  if negb (isRunning s) || (startTime s =? 0) then 0
  else Z.quot (wrap64 (now - startTime s)) 1000.

(** An intent as [onStartCommand] reads it: its action and the two
    integer extras, each possibly absent. *)
Record Intent : Type := {
  getAction : option jstring;
  extraRamMB : option Z;
  extraCpuCores : option Z
}.

Definition ACTION_START : jstring := str "com.dockerandroid.qemu.START".
Definition ACTION_STOP : jstring := str "com.dockerandroid.qemu.STOP".

Inductive StartMode : Type := START_NOT_STICKY | START_STICKY.

(** [CONSTANT.equals(action)], for an action that may be null. *)
Definition actionIs (constant : jstring) (action : option jstring) : bool :=
  match action with
  | Some a => equals constant a
  | None => false
  end.

(** [onStartCommand(intent, flags, startId)]: [None] when the stop it
    runs has not returned within [fuel] ticks. *)
Definition onStartCommand (fuel : nat) (env : Env) (intent : option Intent)
    (s : State) : option (StartMode * State * list Action) :=
  match intent with
  | None => Some (START_NOT_STICKY, s, [])
  | Some i =>
      if actionIs ACTION_START (getAction i) then
        let ramMB := default 2048 (extraRamMB i) in
        let cpuCores := default 2 (extraCpuCores i) in
        let (s', actions) := startQemu env ramMB cpuCores s in
        Some (START_STICKY, s', actions)
      else if actionIs ACTION_STOP (getAction i) then
        match stopQemu fuel env s with
        | Some (s', actions) => Some (START_STICKY, s', actions)
        | None => None
        end
      else Some (START_STICKY, s, [])
  end.

(** The service handling a sequence of intents, each in its own
    surroundings; the actions are collected in order. *)
Fixpoint serve (fuel : nat) (requests : list (option Intent * Env)) (s : State)
  : option (State * list Action) :=
  match requests with
  | [] => Some (s, [])
  | (intent, env) :: rest =>
      match onStartCommand fuel env intent s with
      | Some (_, s', actions) =>
          match serve fuel rest s' with
          | Some (s'', more) => Some (s'', actions ++ more)
          | None => None
          end
      | None => None
      end
  end.

End QemuService.

(* ================================================================= *)
(** ** QemuManager.java: commands and file logs *)

Module QemuManager.
Import JavaString.

(** What a [readLine()] on a reader meets next; the end of the list is
    the end of the stream. *)
Inductive ReadEvent : Type :=
| Line (s : jstring)
| ReadFails (e : Exception).

(** The fields of the manager: the writer holds the lines written so
    far, the reader what is still to be read. *)
Record State : Type := {
  isConnected : bool;
  qmpWriter : option (list jstring);
  qmpReader : option (list ReadEvent)
}.

Definition initial : State :=
  {| isConnected := false; qmpWriter := None; qmpReader := None |}.

(** [connectQmp()] logs a warning and connects nothing. *)
Definition connectQmp (m : State) : State := m.

Definition quoted (s : jstring) : jstring := dquote :: s ++ [dquote].

(** [command.replace(quote, backslash quote)] *)
Definition escapeCommand (command : jstring) : jstring :=
  replace [dquote] [backslash; dquote] command.

(** The line written for a command. *)
Definition qmpCommand (command : jstring) : jstring :=
  str "{" ++ quoted (str "execute") ++ str ":"
    ++ quoted (str "human-monitor-command") ++ str ","
    ++ quoted (str "arguments") ++ str ":{"
    ++ quoted (str "command-line") ++ str ":"
    ++ quoted (escapeCommand command) ++ str "}}".

(** The key looked for in a reply: return, quote, colon, quote. *)
Definition returnKey : jstring := str "return" ++ [dquote] ++ str ":" ++ [dquote].

(** What [executeViaSerial] makes of the line read ([None] is null). *)
Definition parseResponse (response : option jstring) : jstring :=
  match response with
  | Some r =>
      if contains (str "return") r then
        let start := indexOf returnKey r + 9 in
        let end_ := indexOfFrom [dquote] start r in
        if (8 <? start) && (start <? end_)
        then replace (str "\r") [cr]
               (replace (str "\n") [nl] (substring start end_ r))
        else r
      else r
  | None => []
  end.

(** [executeViaSerial(command)] *)
Definition executeViaSerial (command : jstring) (m : State)
  : Result Exception jstring * State :=
  let m := if isConnected m then m else connectQmp m in
  match qmpWriter m, qmpReader m with
  | Some written, Some pending =>
      let w := Some (written ++ [qmpCommand command]) in
      match pending with
      | ReadFails e :: rest =>
          (Throw e,
           {| isConnected := isConnected m; qmpWriter := w; qmpReader := Some rest |})
      | Line r :: rest =>
          (Ok (parseResponse (Some r)),
           {| isConnected := isConnected m; qmpWriter := w; qmpReader := Some rest |})
      | [] =>
          (Ok (parseResponse None),
           {| isConnected := isConnected m; qmpWriter := w; qmpReader := Some [] |})
      end
  | _, _ => (Throw (IOException (str "QMP not connected")), m)
  end.

(** [try { body } catch (Exception e) { handler }] over the state. *)
Definition tryCatch {S A} (body : Result Exception A * S)
    (handler : Exception -> S -> Result Exception A * S)
  : Result Exception A * S :=
  match body with
  | (Ok a, s) => (Ok a, s)
  | (Throw e, s) => handler e s
  end.

(** [executeCommand(command)]; [executeViaSsh] runs an external program
    and is given by its outcome. *)
Definition executeCommand (executeViaSsh : jstring -> Result Exception jstring)
    (command : jstring) (m : State) : Result Exception jstring * State :=
  tryCatch (executeViaSsh command, m)
    (fun e m =>
       tryCatch (executeViaSerial command m)
         (fun e2 m => (Ok (str "Error: " ++ valueOf (getMessage e2)), m))).

(** The [readLine()] loop of [getLogs]. *)
Fixpoint readLines (pending : list ReadEvent) : Result Exception (list jstring) :=
  match pending with
  | [] => Ok []
  | ReadFails e :: _ => Throw e
  | Line l :: rest =>
      match readLines rest with
      | Ok ls => Ok (l :: ls)
      | Throw e => Throw e
      end
  end.

(** [getLogs(lines)] over the log file ([None] when it does not exist). *)
Definition getLogs (logFile : option (list ReadEvent)) (lines : Z) : jstring :=
  match logFile with
  | None => str "No logs available"
  | Some pending =>
      match readLines pending with
      | Ok allLines =>
          let start := Z.max 0 (wrap32 (Z.of_nat (length allLines) - lines)) in
          concat (map (fun l => l ++ [nl]) (drop (Z.to_nat start) allLines))
      | Throw e => str "Error reading logs: " ++ valueOf (getMessage e)
      end
  end.

(** [isRunning()]: whether the socket file exists when first looked at,
    how the connection to the Docker port ends, and whether the file
    exists when looked at again. *)
Definition isRunning (sockExists : bool) (probe : Result Exception unit)
    (sockExistsAfter : bool) : bool :=
  if negb sockExists then false
  else
    match probe with
    | Ok _ => true
    | Throw _ => sockExistsAfter
    end.

(** [getUptime()] for the field [startTime] when the clock reads [now];
    [uptimeFile] is [None] when the file does not exist, else what
    reading and parsing its first line gives. *)
Definition getUptime (startTime now : Z) (uptimeFile : option (Result Exception Z))
  : Z :=
  if startTime =? 0 then
    match uptimeFile with
    | Some (Ok seconds) => seconds
    | _ => 0
    end
  else Z.quot (QemuService.wrap64 (now - startTime)) 1000.

End QemuManager.

(* ================================================================= *)
(** ** qemu_jni.c: the native wrapper *)

Module QemuJni.

Inductive Signal : Type := SIGTERM | SIGKILL.

(** The system calls made, in program order. *)
Inductive Syscall : Type :=
| Fork
| Kill (pid : Z) (sig : Signal)
| WaitpidNoHang (pid : Z)
| WaitpidBlocking (pid : Z)
| Usleep (usec : Z).

Record QemuState : Type := {
  pid : Z;
  running : Z;
  data_dir : jstring;
  ram_mb : Z;
  cpu_cores : Z;
  start_time : Z
}.

(** [nativeStart(handle)] in the parent: [forked] is what [fork()]
    returned there, [now] the clock. *)
Definition nativeStart (forked now : Z) (handle : option QemuState)
  : Z * option QemuState * list Syscall :=
  match handle with
  | None => (-1, None, [])
  | Some state =>
      if negb (running state =? 0) then (0, Some state, [])
      else if forked <? 0 then (-1, Some state, [Fork])
      else (0,
            Some {| pid := forked; running := 1; data_dir := data_dir state;
                    ram_mb := ram_mb state; cpu_cores := cpu_cores state;
                    start_time := now |},
            [Fork])
  end.

(** The polling loop of [nativeStop]: [poll k] is what the [k]-th
    [waitpid(pid, WNOHANG)] of the call returns. The result is the final
    [wait_count] and the calls made; [None] when [fuel] iterations did
    not reach the end of the loop. *)
Fixpoint waitLoop (fuel : nat) (poll : nat -> Z) (pid : Z) (k : nat)
    (wait_count : Z) : option (Z * list Syscall) :=
  if wait_count <? 50 then
    match fuel with
    | O => None
    | S fuel' =>
        let result := poll k in
        if result =? pid then Some (wait_count, [WaitpidNoHang pid])
        else if result <? 0 then Some (wait_count, [WaitpidNoHang pid])
        else
          match waitLoop fuel' poll pid (S k) (wait_count + 1) with
          | Some (n, calls) =>
              Some (n, WaitpidNoHang pid :: Usleep 100000 :: calls)
          | None => None
          end
    end
  else Some (wait_count, []).

(** [nativeStop(handle)] *)
Definition nativeStop (fuel : nat) (poll : nat -> Z) (handle : option QemuState)
  : option (Z * option QemuState * list Syscall) :=
  match handle with
  | None => Some (-1, None, [])
  | Some state =>
      if (running state =? 0) || (pid state <=? 0) then Some (0, Some state, [])
      else
        match waitLoop fuel poll (pid state) 0 0 with
        | None => None
        | Some (wait_count, calls) =>
            let force :=
              if 50 <=? wait_count
              then [Kill (pid state) SIGKILL; WaitpidBlocking (pid state)]
              else [] in
            Some (0,
                  Some {| pid := -1; running := 0; data_dir := data_dir state;
                          ram_mb := ram_mb state; cpu_cores := cpu_cores state;
                          start_time := 0 |},
                  Kill (pid state) SIGTERM :: calls ++ force)
        end
  end.

(** [nativeGetStatus(handle)]: [result] is what
    [waitpid(pid, WNOHANG)] returns if it is called. *)
Definition nativeGetStatus (result : Z) (handle : option QemuState)
  : Z * option QemuState * list Syscall :=
  match handle with
  | None => (-1, None, [])
  | Some state =>
      if (running state =? 0) || (pid state <=? 0) then (0, Some state, [])
      else
        let gone :=
          {| pid := -1; running := 0; data_dir := data_dir state;
             ram_mb := ram_mb state; cpu_cores := cpu_cores state;
             start_time := start_time state |} in
        if result =? pid state then (0, Some gone, [WaitpidNoHang (pid state)])
        else if result <? 0 then (0, Some gone, [WaitpidNoHang (pid state)])
        else (1, Some state, [WaitpidNoHang (pid state)])
  end.

(** The state [calloc] returns: all zero. *)
Definition zeroState : QemuState :=
  {| pid := 0; running := 0; data_dir := []; ram_mb := 0; cpu_cores := 0;
     start_time := 0 |}.

(** [nativeInit(data_dir, args)] on the global [qemu_state] ([None] is
    NULL): the state is allocated when there is none, the directory is
    copied with [strncpy] into the 512-byte field (its last byte is never
    written and stays 0), and [running] and [pid] are reset. The result is
    the new global, which is also the handle returned; [None] is the
    handle 0 of a failed allocation. *)
Definition nativeInit (callocWorks : bool) (dir : jstring)
    (qemu_state : option QemuState) : option QemuState :=
  let allocated :=
    match qemu_state with
    | Some state => Some state
    | None => if callocWorks then Some zeroState else None
    end in
  match allocated with
  | Some state =>
      Some {| pid := -1; running := 0; data_dir := take 511 dir;
              ram_mb := ram_mb state; cpu_cores := cpu_cores state;
              start_time := start_time state |}
  | None => None
  end.

(** [nativeSendCommand(handle, command)]: the command is logged and not
    sent anywhere. *)
Definition nativeSendCommand (handle : option QemuState) (command : jstring) : Z :=
  match handle with
  | None => -1
  | Some state => if running state =? 0 then -1 else 0
  end.


End QemuJni.

(* ================================================================= *)
(** ** useQemuStore: the store of the UI tier *)

Module QemuStore.

(** [VM_STATUS] *)
Inductive VmStatus : Type :=
| STOPPED | STARTING | RUNNING | STOPPING | ERROR | INITIALIZING.

Definition VmStatus_eqb (a b : VmStatus) : bool :=
  match a, b with
  | STOPPED, STOPPED | STARTING, STARTING | RUNNING, RUNNING
  | STOPPING, STOPPING | ERROR, ERROR | INITIALIZING, INITIALIZING => true
  | _, _ => false
  end.

(** [VM_CONFIG] *)
Definition DEFAULT_RAM_MB : Z := 2048.
Definition DEFAULT_CPU_CORES : Z := 2.
Definition MIN_RAM_MB : Z := 512.
Definition MAX_RAM_MB : Z := 8192.
Definition MIN_CPU_CORES : Z := 1.
Definition MAX_CPU_CORES : Z := 8.

Record LogEntry : Type := { timestamp : jstring; logMessage : jstring }.

(** Numbers are integers in the model; the store only copies them and
    applies [|| 0]. *)
Record Stats : Type := { uptime : Z; cpuUsage : Z; memoryUsage : Z }.

(** What [QemuService.getStatus()] resolves to; a missing field is
    [None]. *)
Record Status : Type := {
  status : jstring;
  status_uptime : option Z;
  status_cpuUsage : option Z;
  status_memoryUsage : option Z
}.

Record Paths : Type := { qemuDir : jstring; isoPath : jstring; diskPath : jstring }.

Record CommandResult : Type := { output : option jstring }.

Record Store : Type := {
  vmStatus : VmStatus;
  vmLogs : list LogEntry;
  vmStats : Stats;
  isInitialized : bool;
  qemuPaths : option Paths;
  error : option jstring;
  ramMB : Z;
  cpuCores : Z;
  statusInterval : option nat
}.

Definition initialStore : Store :=
  {| vmStatus := STOPPED; vmLogs := [];
     vmStats := {| uptime := 0; cpuUsage := 0; memoryUsage := 0 |};
     isInitialized := false; qemuPaths := None; error := None;
     ramMB := DEFAULT_RAM_MB; cpuCores := DEFAULT_CPU_CORES;
     statusInterval := None |}.

(** The partial updates handed to [set]. *)
Definition with_vmStatus (v : VmStatus) (s : Store) : Store :=
  {| vmStatus := v; vmLogs := vmLogs s; vmStats := vmStats s;
     isInitialized := isInitialized s; qemuPaths := qemuPaths s;
     error := error s; ramMB := ramMB s; cpuCores := cpuCores s;
     statusInterval := statusInterval s |}.
Definition with_vmLogs (v : list LogEntry) (s : Store) : Store :=
  {| vmStatus := vmStatus s; vmLogs := v; vmStats := vmStats s;
     isInitialized := isInitialized s; qemuPaths := qemuPaths s;
     error := error s; ramMB := ramMB s; cpuCores := cpuCores s;
     statusInterval := statusInterval s |}.
Definition with_vmStats (v : Stats) (s : Store) : Store :=
  {| vmStatus := vmStatus s; vmLogs := vmLogs s; vmStats := v;
     isInitialized := isInitialized s; qemuPaths := qemuPaths s;
     error := error s; ramMB := ramMB s; cpuCores := cpuCores s;
     statusInterval := statusInterval s |}.
Definition with_isInitialized (v : bool) (s : Store) : Store :=
  {| vmStatus := vmStatus s; vmLogs := vmLogs s; vmStats := vmStats s;
     isInitialized := v; qemuPaths := qemuPaths s;
     error := error s; ramMB := ramMB s; cpuCores := cpuCores s;
     statusInterval := statusInterval s |}.
Definition with_qemuPaths (v : option Paths) (s : Store) : Store :=
  {| vmStatus := vmStatus s; vmLogs := vmLogs s; vmStats := vmStats s;
     isInitialized := isInitialized s; qemuPaths := v;
     error := error s; ramMB := ramMB s; cpuCores := cpuCores s;
     statusInterval := statusInterval s |}.
Definition with_error (v : option jstring) (s : Store) : Store :=
  {| vmStatus := vmStatus s; vmLogs := vmLogs s; vmStats := vmStats s;
     isInitialized := isInitialized s; qemuPaths := qemuPaths s;
     error := v; ramMB := ramMB s; cpuCores := cpuCores s;
     statusInterval := statusInterval s |}.
Definition with_ramMB (v : Z) (s : Store) : Store :=
  {| vmStatus := vmStatus s; vmLogs := vmLogs s; vmStats := vmStats s;
     isInitialized := isInitialized s; qemuPaths := qemuPaths s;
     error := error s; ramMB := v; cpuCores := cpuCores s;
     statusInterval := statusInterval s |}.
Definition with_cpuCores (v : Z) (s : Store) : Store :=
  {| vmStatus := vmStatus s; vmLogs := vmLogs s; vmStats := vmStats s;
     isInitialized := isInitialized s; qemuPaths := qemuPaths s;
     error := error s; ramMB := ramMB s; cpuCores := v;
     statusInterval := statusInterval s |}.
Definition with_statusInterval (v : option nat) (s : Store) : Store :=
  {| vmStatus := vmStatus s; vmLogs := vmLogs s; vmStats := vmStats s;
     isInitialized := isInitialized s; qemuPaths := qemuPaths s;
     error := error s; ramMB := ramMB s; cpuCores := cpuCores s;
     statusInterval := v |}.

(** The calls that leave the store, in program order. *)
Inductive Effect : Type :=
| ServiceInitialize
| ServiceStartVM (ram cpu : Z)
| ServiceStopVM
| ServiceGetStatus
| ServiceSendCommand (command : jstring)
| ServiceAddEventListener (eventName : jstring)
| ServiceRemoveAllListeners
| StorageGetVmRam
| StorageGetVmCpu
| StorageSetVmRam (ram : Z)
| StorageSetVmCpu (cores : Z)
| SetInterval (id : nat) (ms : Z)
| ClearInterval (id : nat)
| SetTimeout (ms : Z)
| ConsoleError (msg : jstring).

(** What the awaited collaborators answer during one operation. *)
Record Env : Type := {
  serviceInitialize : Result JsError Paths;
  serviceStartVM : Z -> Z -> Result JsError unit;
  serviceStopVM : Result JsError unit;
  serviceGetStatus : Result JsError Status;
  serviceSendCommand : jstring -> Result JsError CommandResult;
  (** [StorageService.getVmRam()] and [getVmCpu()] never reject *)
  storageGetVmRam : Z;
  storageGetVmCpu : Z;
  storageSetVmRam : Z -> Result JsError unit;
  storageSetVmCpu : Z -> Result JsError unit;
  (** [new Date().toISOString()] at the [n]-th reading of the clock *)
  toISOString : nat -> jstring
}.

(** The store with what surrounds it: the calls made so far, the
    readings of the clock and the next timer id (ids start at 1, so a
    set [statusInterval] is truthy). *)
Record World : Type := {
  store : Store;
  effects : list Effect;
  clock : nat;
  nextTimer : nat
}.

Definition initialWorld : World :=
  {| store := initialStore; effects := []; clock := 0%nat; nextTimer := 1%nat |}.

(** An asynchronous function of the store: it reads the surroundings,
    changes the world and resolves or rejects. *)
Definition M (A : Type) : Type := Env -> World -> Result JsError A * World.

#[export] Instance M_ret : MRet M := fun A a _ w => (Ok a, w).

#[export] Instance M_bind : MBind M := fun A B f m env w =>
  match m env w with
  | (Ok a, w') => f a env w'
  | (Throw e, w') => (Throw e, w')
  end.

Definition throw {A} (e : JsError) : M A := fun _ w => (Throw e, w).

Definition tryCatch {A} (body : M A) (handler : JsError -> M A) : M A :=
  fun env w =>
    match body env w with
    | (Ok a, w') => (Ok a, w')
    | (Throw e, w') => handler e env w'
    end.

(** [get()] *)
Definition get : M Store := fun _ w => (Ok (store w), w).

(** [set(update)] *)
Definition set (update : Store -> Store) : M unit := fun _ w =>
  (Ok tt, {| store := update (store w); effects := effects w;
             clock := clock w; nextTimer := nextTimer w |}).

Definition perform (e : Effect) : M unit := fun _ w =>
  (Ok tt, {| store := store w; effects := effects w ++ [e];
             clock := clock w; nextTimer := nextTimer w |}).

(** An awaited call: it is recorded, then resolves or rejects as the
    surroundings say. *)
Definition await {A} (e : Effect) (answer : Env -> Result JsError A) : M A :=
  fun env w =>
    (answer env, {| store := store w; effects := effects w ++ [e];
                    clock := clock w; nextTimer := nextTimer w |}).

Definition now : M jstring := fun env w =>
  (Ok (toISOString env (clock w)),
   {| store := store w; effects := effects w;
      clock := S (clock w); nextTimer := nextTimer w |}).

Definition setInterval (ms : Z) : M nat := fun _ w =>
  (Ok (nextTimer w),
   {| store := store w; effects := effects w ++ [SetInterval (nextTimer w) ms];
      clock := clock w; nextTimer := S (nextTimer w) |}).

(** [arr.slice(start)] *)
Definition slice {A} (start : Z) (arr : list A) : list A :=
  let len := Z.of_nat (length arr) in
  let k := if start <? 0 then Z.max (len + start) 0 else Z.min start len in
  drop (Z.to_nat k) arr.

(** [a || b] on a number that may be undefined. *)
Definition orElse (a : option Z) (b : Z) : Z :=
  match a with
  | Some z => if z =? 0 then b else z
  | None => b
  end.

(** *** Logs *)

Definition addLog (msg : jstring) : M unit :=
  t ← now;
  set (fun state =>
         with_vmLogs
           (slice (-200) (vmLogs state ++ [{| timestamp := t; logMessage := msg |}]))
           state).

Definition clearLogs : M unit := set (with_vmLogs []).

(** *** Initialization *)

Definition loadSettings : M unit :=
  ram ← await StorageGetVmRam (fun env => Ok (storageGetVmRam env));
  cpu ← await StorageGetVmCpu (fun env => Ok (storageGetVmCpu env));
  set (fun state => with_cpuCores cpu (with_ramMB ram state)).

Definition initialize : M Paths :=
  set (fun state => with_error None (with_vmStatus INITIALIZING state));;
  tryCatch
    (result ← await ServiceInitialize serviceInitialize;
     set (fun state =>
            with_error None
              (with_vmStatus STOPPED
                 (with_qemuPaths (Some result) (with_isInitialized true state))));;
     addLog (str "QEMU environment initialized successfully");;
     mret result)
    (fun e =>
       set (fun state => with_error (Some (message e)) (with_vmStatus ERROR state));;
       addLog (str "Initialization failed: " ++ message e);;
       throw e).

(** *** Status and monitoring *)

Definition getStatus : M (option Status) :=
  tryCatch
    (st ← await ServiceGetStatus serviceGetStatus;
     set (with_vmStats
            {| uptime := orElse (status_uptime st) 0;
               cpuUsage := orElse (status_cpuUsage st) 0;
               memoryUsage := orElse (status_memoryUsage st) 0 |});;
     mret (Some st))
    (fun e =>
       perform (ConsoleError (str "Failed to get status:"));;
       mret None).

(** The callback handed to [setInterval] by [startStatusPolling]. *)
Definition pollTick : M unit :=
  state ← get;
  if VmStatus_eqb (vmStatus state) RUNNING
  then getStatus;; mret tt
  else mret tt.

(** The period of the poll, in milliseconds. *)
Definition POLL_INTERVAL_MS : Z := 5000.

Definition startStatusPolling : M unit :=
  state ← get;
  match statusInterval state with
  | Some id => perform (ClearInterval id)
  | None => mret tt
  end;;
  interval ← setInterval POLL_INTERVAL_MS;
  set (with_statusInterval (Some interval)).

Definition stopStatusPolling : M unit :=
  state ← get;
  match statusInterval state with
  | Some id =>
      perform (ClearInterval id);;
      set (with_statusInterval None)
  | None => mret tt
  end.

(** The three listeners registered by [setupEventListeners]. *)
Definition onVmStatus (eventStatus : jstring) : M unit :=
  addLog (str "VM Status: " ++ eventStatus);;
  if JavaString.equals eventStatus (str "stopped")
  then set (with_vmStatus STOPPED)
  else mret tt.

Definition onVmLog (eventMessage : jstring) : M unit := addLog eventMessage.

Definition onVmError (eventMessage : jstring) : M unit :=
  set (with_error (Some eventMessage));;
  addLog (str "Error: " ++ eventMessage).

Definition setupEventListeners : M unit :=
  perform (ServiceAddEventListener (str "vmStatus"));;
  perform (ServiceAddEventListener (str "vmLog"));;
  perform (ServiceAddEventListener (str "vmError")).

(** *** VM control *)

Definition startVM (customRamMB customCpuCores : option Z) : M unit :=
  state ← get;
  (if isInitialized state then mret tt else initialize;; mret tt);;
  let ram := orElse customRamMB (ramMB state) in
  let cpu := orElse customCpuCores (cpuCores state) in
  set (fun state => with_error None (with_vmStatus STARTING state));;
  addLog (str "Starting VM with " ++ decimal ram ++ str "MB RAM and "
            ++ decimal cpu ++ str " CPU cores...");;
  tryCatch
    (await (ServiceStartVM ram cpu) (fun env => serviceStartVM env ram cpu);;
     set (with_vmStatus RUNNING);;
     addLog (str "VM started successfully");;
     startStatusPolling;;
     setupEventListeners)
    (fun e =>
       set (fun state => with_error (Some (message e)) (with_vmStatus ERROR state));;
       addLog (str "VM start failed: " ++ message e);;
       throw e).

Definition stopVM : M unit :=
  set (fun state => with_error None (with_vmStatus STOPPING state));;
  addLog (str "Stopping VM...");;
  tryCatch
    (await ServiceStopVM serviceStopVM;;
     set (with_vmStatus STOPPED);;
     addLog (str "VM stopped successfully");;
     stopStatusPolling;;
     perform ServiceRemoveAllListeners)
    (fun e =>
       set (with_error (Some (message e)));;
       addLog (str "VM stop failed: " ++ message e);;
       throw e).

Definition restartVM : M unit :=
  addLog (str "Restarting VM...");;
  tryCatch
    (stopVM;;
     perform (SetTimeout 2000);;
     startVM None None;;
     addLog (str "VM restarted successfully"))
    (fun e =>
       addLog (str "VM restart failed: " ++ message e);;
       throw e).

(** *** Configuration *)

Definition setRamMB (ram : Z) : M unit :=
  if (MIN_RAM_MB <=? ram) && (ram <=? MAX_RAM_MB)
  then await (StorageSetVmRam ram) (fun env => storageSetVmRam env ram);;
       set (with_ramMB ram)
  else mret tt.

Definition setCpuCores (cores : Z) : M unit :=
  if (MIN_CPU_CORES <=? cores) && (cores <=? MAX_CPU_CORES)
  then await (StorageSetVmCpu cores) (fun env => storageSetVmCpu env cores);;
       set (with_cpuCores cores)
  else mret tt.

(** *** Console *)

Definition sendCommand (command : jstring) : M CommandResult :=
  tryCatch
    (addLog (str "> " ++ command);;
     result ← await (ServiceSendCommand command)
                (fun env => serviceSendCommand env command);
     match output result with
     | Some (c :: out) => addLog (c :: out)
     | _ => mret tt
     end;;
     mret result)
    (fun e =>
       addLog (str "Command failed: " ++ message e);;
       throw e).

(** *** Utilities *)

Definition clearError : M unit := set (with_error None).


Definition isVmBusy (state : Store) : bool :=
  existsb (VmStatus_eqb (vmStatus state)) [STARTING; STOPPING; INITIALIZING].

(** Every way the store is driven: its actions, the timer callback and
    the event listeners. *)
Inductive Op : Type :=
| OpLoadSettings
| OpInitialize
| OpStartVM (customRamMB customCpuCores : option Z)
| OpStopVM
| OpRestartVM
| OpGetStatus
| OpPollTick
| OpStartStatusPolling
| OpStopStatusPolling
| OpSetupEventListeners
| OpVmStatusEvent (eventStatus : jstring)
| OpVmLogEvent (eventMessage : jstring)
| OpVmErrorEvent (eventMessage : jstring)
| OpSetRamMB (ram : Z)
| OpSetCpuCores (cores : Z)
| OpSendCommand (command : jstring)
| OpAddLog (msg : jstring)
| OpClearLogs
| OpClearError.

Definition void {A} (m : M A) : M unit := m;; mret tt.

Definition run (op : Op) : M unit :=
  match op with
  | OpLoadSettings => loadSettings
  | OpInitialize => void initialize
  | OpStartVM r c => startVM r c
  | OpStopVM => stopVM
  | OpRestartVM => restartVM
  | OpGetStatus => void getStatus
  | OpPollTick => pollTick
  | OpStartStatusPolling => startStatusPolling
  | OpStopStatusPolling => stopStatusPolling
  | OpSetupEventListeners => setupEventListeners
  | OpVmStatusEvent s => onVmStatus s
  | OpVmLogEvent m => onVmLog m
  | OpVmErrorEvent m => onVmError m
  | OpSetRamMB r => setRamMB r
  | OpSetCpuCores c => setCpuCores c
  | OpSendCommand c => void (sendCommand c)
  | OpAddLog m => addLog m
  | OpClearLogs => clearLogs
  | OpClearError => clearError
  end.

(** A run of the store: each operation with the surroundings it meets;
    a rejected operation leaves the world as it was when it threw. *)
Fixpoint runAll (ops : list (Op * Env)) (w : World) : World :=
  match ops with
  | [] => w
  | (op, env) :: rest => runAll rest (snd (run op env w))
  end.

End QemuStore.

(* ================================================================= *)
(** ** QemuModule.java: the bridge to React Native *)

(** The bridge names its collaborators [QemuService] and [QemuManager];
    they are taken to be the two classes of these names modelled above. *)
Module QemuModule.
Import JavaString.

(** An event handed to [sendEvent]: its name and the fields of its map. *)
Inductive Event : Type :=
| VmStatusEvent (status : jstring)
| VmLogEvent (message : jstring)
| VmErrorEvent (status : jstring) (message : option jstring).

(** What a call leaves outside the module, in program order. A thread
    started is given by what it does: it sleeps, then hands an event to
    [sendEvent]. *)
Inductive Action : Type :=
| Mkdirs
| CopyAssetToFile (assetName : jstring)
| CreateQcow2Disk (sizeMB : Z)
| CreateDefaultConfig
| Emit (event : Event)
| StartForegroundService (intent : QemuService.Intent)
| StartService (intent : QemuService.Intent)
| ThreadStart (sleepMs : Z) (event : Event).

(** How the promise of a call is settled. *)
Inductive Settled (A : Type) : Type :=
| Resolve (a : A)
| Reject (code message : jstring).
Arguments Resolve {A} a.
Arguments Reject {A} code message.

(** The surroundings of one call. *)
Record Env : Type := {
  hasActiveReactInstance : bool;
  SDK_INT : Z;
  filesDir : jstring;
  qemuDirExists : bool;
  mkdirs : bool;
  isoExists : bool;
  copyAssetToFile : Result Exception unit;
  diskExists : bool;
  createQcow2Disk : Result Exception unit;
  configExists : bool;
  createDefaultConfig : Result Exception unit;
  (** [context.startService] and [context.startForegroundService] *)
  startService : QemuService.Intent -> Result Exception unit;
  executeViaSsh : jstring -> Result Exception jstring;
  qmpSockExists : bool;
  dockerProbe : Result Exception unit;
  qmpSockExistsAfter : bool;
  uptimeFile : option (Result Exception Z);
  currentTimeMillis : Z;
  logFile : option (list QemuManager.ReadEvent)
}.

(** The fields of the module; [managerStartTime] is the field
    [startTime] of its manager. *)
Record State : Type := {
  isInitialized : bool;
  qemuManager : QemuManager.State;
  managerStartTime : Z
}.

Definition initial : State :=
  {| isInitialized := false; qemuManager := QemuManager.initial;
     managerStartTime := 0 |}.

(** The maps the promises are resolved with. The usage figures of the
    status, which are random numbers, are left out. *)
Record InitResult : Type := {
  initSuccess : bool;
  qemuDir : jstring;
  isoPath : jstring;
  diskPath : jstring;
  configPath : jstring
}.

Record Done : Type := { success : bool; doneMessage : jstring }.

Record StatusMap : Type := { status : jstring; uptime : Z }.

Record CommandMap : Type := { output : jstring; commandSuccess : bool }.

Definition sendEvent (env : Env) (event : Event) : list Action :=
  if hasActiveReactInstance env then [Emit event] else [].

(** One step of [initialize]: what is missing is created, and a failure
    ends the steps. *)
Definition unlessExists (present : bool) (create : Result Exception unit)
    (action : Action) (rest : Result Exception unit * list Action)
  : Result Exception unit * list Action :=
  if present then rest
  else
    match create with
    | Ok _ => (fst rest, action :: snd rest)
    | Throw e => (Throw e, [action])
    end.

(** The body of [initialize] up to the assignment of the flag. *)
Definition prepareFiles (env : Env) : Result Exception unit * list Action :=
  unlessExists (qemuDirExists env)
    (if mkdirs env then Ok tt
     else Throw (IOException (str "Failed to create QEMU directory")))
    Mkdirs
    (unlessExists (isoExists env) (copyAssetToFile env)
       (CopyAssetToFile (str "alpine-virt.iso"))
       (unlessExists (diskExists env) (createQcow2Disk env)
          (CreateQcow2Disk (10 * 1024))
          (unlessExists (configExists env) (createDefaultConfig env)
             CreateDefaultConfig (Ok tt, [])))).

(** [initialize(promise)] *)
Definition initialize (env : Env) (b : State)
  : State * list Action * Settled InitResult :=
  let dir := QemuService.file (filesDir env) (str "qemu") in
  match prepareFiles env with
  | (Ok _, actions) =>
      ({| isInitialized := true; qemuManager := qemuManager b;
          managerStartTime := managerStartTime b |},
       actions ++ sendEvent env (VmStatusEvent (str "initialized")),
       Resolve {| initSuccess := true; qemuDir := dir;
                  isoPath := QemuService.file dir (str "alpine-virt.iso");
                  diskPath := QemuService.file dir (str "alpine-disk.qcow2");
                  configPath := QemuService.file dir (str "qemu-config.json") |})
  | (Throw e, actions) =>
      (b, actions,
       Reject (str "INIT_ERROR")
         (str "Failed to initialize QEMU: " ++ valueOf (getMessage e)))
  end.

(** [startVM(ramMB, cpuCores, promise)] *)
Definition startVM (env : Env) (ramMB cpuCores : Z) (b : State)
  : State * list Action * Settled Done :=
  if negb (isInitialized b) then
    (b, [],
     Reject (str "NOT_INITIALIZED")
       (str "QEMU not initialized. Call initialize() first."))
  else
    let starting := sendEvent env (VmStatusEvent (str "starting")) in
    let serviceIntent :=
      {| QemuService.getAction := Some QemuService.ACTION_START;
         QemuService.extraRamMB := Some ramMB;
         QemuService.extraCpuCores := Some cpuCores |} in
    match startService env serviceIntent with
    | Ok _ =>
        (b,
         starting
           ++ [ if 26 <=? SDK_INT env then StartForegroundService serviceIntent
                else StartService serviceIntent;
                ThreadStart 3000 (VmStatusEvent (str "running")) ],
         Resolve {| success := true; doneMessage := str "VM starting..." |})
    | Throw e =>
        (b,
         starting ++ sendEvent env (VmErrorEvent (str "error") (getMessage e)),
         Reject (str "START_ERROR")
           (str "Failed to start VM: " ++ valueOf (getMessage e)))
    end.

(** [stopVM(promise)] *)
Definition stopVM (env : Env) (b : State) : State * list Action * Settled Done :=
  let stopping := sendEvent env (VmStatusEvent (str "stopping")) in
  let serviceIntent :=
    {| QemuService.getAction := Some QemuService.ACTION_STOP;
       QemuService.extraRamMB := None;
       QemuService.extraCpuCores := None |} in
  match startService env serviceIntent with
  | Ok _ =>
      (b,
       stopping ++ [StartService serviceIntent]
         ++ sendEvent env (VmStatusEvent (str "stopped")),
       Resolve {| success := true; doneMessage := str "VM stopped" |})
  | Throw e =>
      (b, stopping,
       Reject (str "STOP_ERROR")
         (str "Failed to stop VM: " ++ valueOf (getMessage e)))
  end.

(** [getStatus(promise)] *)
Definition getStatus (env : Env) (b : State)
  : State * list Action * Settled StatusMap :=
  let isRunning :=
    QemuManager.isRunning (qmpSockExists env) (dockerProbe env)
      (qmpSockExistsAfter env) in
  (b, [],
   Resolve
     {| status := if isRunning then str "running" else str "stopped";
        uptime :=
          if isRunning
          then QemuManager.getUptime (managerStartTime b) (currentTimeMillis env)
                 (uptimeFile env)
          else 0 |}).

(** [sendCommand(command, promise)] *)
Definition sendCommand (env : Env) (command : jstring) (b : State)
  : State * list Action * Settled CommandMap :=
  match QemuManager.executeCommand (executeViaSsh env) command (qemuManager b) with
  | (Ok out, m) =>
      ({| isInitialized := isInitialized b; qemuManager := m;
          managerStartTime := managerStartTime b |},
       sendEvent env (VmLogEvent (str "$ " ++ command ++ [nl] ++ out)),
       Resolve {| output := out; commandSuccess := true |})
  | (Throw e, m) =>
      ({| isInitialized := isInitialized b; qemuManager := m;
          managerStartTime := managerStartTime b |},
       [],
       Reject (str "COMMAND_ERROR")
         (str "Failed to send command: " ++ valueOf (getMessage e)))
  end.

(** [getLogs(lines, promise)] *)
Definition getLogs (env : Env) (lines : Z) (b : State)
  : State * list Action * Settled jstring :=
  (b, [], Resolve (QemuManager.getLogs (logFile env) lines)).

(** The methods React Native can call, and what they resolve with. *)
Inductive Call : Type :=
| Initialize
| StartVM (ramMB cpuCores : Z)
| StopVM
| GetStatus
| SendCommand (command : jstring)
| GetLogs (lines : Z).

Inductive Reply : Type :=
| InitReply (r : InitResult)
| DoneReply (r : Done)
| StatusReply (r : StatusMap)
| CommandReply (r : CommandMap)
| LogsReply (r : jstring).

Definition replying {A} (reply : A -> Reply)
    (out : State * list Action * Settled A) : State * list Action * Settled Reply :=
  match out with
  | (b, actions, Resolve a) => (b, actions, Resolve (reply a))
  | (b, actions, Reject code message) => (b, actions, Reject code message)
  end.

Definition invoke (env : Env) (call : Call) (b : State)
  : State * list Action * Settled Reply :=
  match call with
  | Initialize => replying InitReply (initialize env b)
  | StartVM ramMB cpuCores => replying DoneReply (startVM env ramMB cpuCores b)
  | StopVM => replying DoneReply (stopVM env b)
  | GetStatus => replying StatusReply (getStatus env b)
  | SendCommand command => replying CommandReply (sendCommand env command b)
  | GetLogs lines => replying LogsReply (getLogs env lines b)
  end.

(** The module serving calls one after the other, each in its own
    surroundings: the state reached and what each call did. *)
Fixpoint session (calls : list (Call * Env)) (b : State)
  : State * list (list Action * Settled Reply) :=
  match calls with
  | [] => (b, [])
  | (call, env) :: rest =>
      let '(b', actions, settled) := invoke env call b in
      let (b'', more) := session rest b' in
      (b'', (actions, settled) :: more)
  end.

End QemuModule.

(* ================================================================= *)
(** * What the properties speak of *)

(** What the child printed, as the stream of characters handed to the
    buffer: every line followed by a newline. *)
Definition stream (lines : list jstring) : jstring :=
  concat (map (fun l => l ++ [nl]) lines).

(** The snapshot as the specification words it: the lines of the buffer
    are its newline-terminated segments, and the snapshot is the last [n]
    of them in order. *)
Definition buffer_lines_spec (buf : jstring) : list jstring :=
  let ps := JavaString.pieces nl buf in
  match last ps with
  | Some [] => take (length ps - 1)%nat ps
  | _ => ps
  end.

Definition snapshot_spec (buf : jstring) (n : nat) : jstring :=
  stream (lastn n (buffer_lines_spec buf)).

(** A property of the world kept by an asynchronous function, whether it
    resolves or rejects. *)
Definition preserves {A} (P : QemuStore.World -> Prop) (m : QemuStore.M A) : Prop :=
  forall env w, P w -> P (snd (m env w)).

(** The log list holds at most 200 entries. *)
Definition logsBounded (w : QemuStore.World) : Prop :=
  (length (QemuStore.vmLogs (QemuStore.store w)) <= 200)%nat.

(** The entries [addLog] makes of [msgs] when the clock has been read [k]
    times before. *)
Fixpoint stamped (env : QemuStore.Env) (k : nat) (msgs : list jstring)
  : list QemuStore.LogEntry :=
  match msgs with
  | [] => []
  | m :: rest =>
      {| QemuStore.timestamp := QemuStore.toISOString env k;
         QemuStore.logMessage := m |} :: stamped env (S k) rest
  end.








(** The start of a reply, up to the opening quote of the return field. *)
Definition replyHead : jstring := str "{" ++ [dquote] ++ QemuManager.returnKey.



(** Microseconds slept and polls made in a list of system calls. *)
Fixpoint sleptUsec (calls : list QemuJni.Syscall) : Z :=
  match calls with
  | [] => 0
  | QemuJni.Usleep usec :: rest => usec + sleptUsec rest
  | _ :: rest => sleptUsec rest
  end.

Fixpoint polls (calls : list QemuJni.Syscall) : Z :=
  match calls with
  | [] => 0
  | QemuJni.WaitpidNoHang _ :: rest => 1 + polls rest
  | _ :: rest => polls rest
  end.

(** The native state after a stop. *)
Definition nativeStopped (state : QemuJni.QemuState) : QemuJni.QemuState :=
  {| QemuJni.pid := -1; QemuJni.running := 0;
     QemuJni.data_dir := QemuJni.data_dir state;
     QemuJni.ram_mb := QemuJni.ram_mb state;
     QemuJni.cpu_cores := QemuJni.cpu_cores state;
     QemuJni.start_time := 0 |}.

(** A service whose child is [child], running. *)
Definition serviceRunning (child : QemuService.Child) : QemuService.State :=
  {| QemuService.qemuProcess := Some child; QemuService.isRunning := true;
     QemuService.startTime := 1; QemuService.outputReaderThread := true;
     QemuService.logBuffer := [] |}.

(** Surroundings in which the calling thread is never interrupted. *)
Definition quietEnv : QemuService.Env :=
  {| QemuService.filesDir := str "/data/files";
     QemuService.nativeLibraryDir := str "/data/lib";
     QemuService.binaryExists := true;
     QemuService.start := fun _ =>
       Ok {| QemuService.childPid := 4242; QemuService.termDelay := Some 0%nat |};
     QemuService.currentTimeMillis := 1;
     QemuService.interruptIn := None |}.

(** Surroundings in which every collaborator answers well. *)
Definition okEnv : QemuStore.Env :=
  {| QemuStore.serviceInitialize :=
       Ok {| QemuStore.qemuDir := str "/data/files/qemu";
             QemuStore.isoPath := str "/data/files/qemu/alpine-virt.iso";
             QemuStore.diskPath := str "/data/files/qemu/alpine-disk.qcow2" |};
     QemuStore.serviceStartVM := fun _ _ => Ok tt;
     QemuStore.serviceStopVM := Ok tt;
     QemuStore.serviceGetStatus :=
       Ok {| QemuStore.status := str "running";
             QemuStore.status_uptime := Some 3600;
             QemuStore.status_cpuUsage := Some 15;
             QemuStore.status_memoryUsage := Some 45 |};
     QemuStore.serviceSendCommand := fun c => Ok {| QemuStore.output := Some c |};
     QemuStore.storageGetVmRam := 2048;
     QemuStore.storageGetVmCpu := 2;
     QemuStore.storageSetVmRam := fun _ => Ok tt;
     QemuStore.storageSetVmCpu := fun _ => Ok tt;
     QemuStore.toISOString := fun n => decimal (Z.of_nat n) |}.

(** The world after a successful [initialize]. *)
Definition readyWorld : QemuStore.World :=
  snd (QemuStore.initialize okEnv QemuStore.initialWorld).

(** C1 as stated, for one request: the start is rejected, the phase is
    what it was and nothing has been forwarded to the service. *)
Definition rejects_before_spawn (ram cpu : Z) (env : QemuStore.Env)
    (w : QemuStore.World) : Prop :=
  let out := QemuStore.startVM (Some ram) (Some cpu) env w in
  (exists e, fst out = Throw e)
  /\ QemuStore.vmStatus (QemuStore.store (snd out))
     = QemuStore.vmStatus (QemuStore.store w)
  /\ QemuStore.effects (snd out) = QemuStore.effects w.

(** The world while a first start is waiting for the service. *)
Definition startingWorld : QemuStore.World :=
  {| QemuStore.store := QemuStore.with_vmStatus QemuStore.STARTING
                          (QemuStore.store readyWorld);
     QemuStore.effects := QemuStore.effects readyWorld
                            ++ [QemuStore.ServiceStartVM 2048 2];
     QemuStore.clock := QemuStore.clock readyWorld;
     QemuStore.nextTimer := QemuStore.nextTimer readyWorld |}.

(** The value a start asks the service for, given the stored setting and
    what the request holds: the value of the request as it is, unless it
    is missing or 0, when the stored setting is taken. *)
Inductive asked (stored : Z) : option Z -> Z -> Prop :=
| asked_given (v : Z) : v <> 0 -> asked stored (Some v) v
| asked_zero : asked stored (Some 0) stored
| asked_missing : asked stored None stored.

(** The world [w] with the phase of its store set to [v]. *)
Definition inPhase (v : QemuStore.VmStatus) (w : QemuStore.World) : QemuStore.World :=
  {| QemuStore.store := QemuStore.with_vmStatus v (QemuStore.store w);
     QemuStore.effects := QemuStore.effects w;
     QemuStore.clock := QemuStore.clock w;
     QemuStore.nextTimer := QemuStore.nextTimer w |}.

(** The world while the first initialization is waiting for the service. *)
Definition initializingWorld : QemuStore.World :=
  {| QemuStore.store := QemuStore.with_vmStatus QemuStore.INITIALIZING
                          QemuStore.initialStore;
     QemuStore.effects := [QemuStore.ServiceInitialize];
     QemuStore.clock := 0%nat;
     QemuStore.nextTimer := 1%nat |}.

(** C2 as stated, for one call: the start is rejected and nothing is
    forwarded to the service. *)
Definition busy_rejected (env : QemuStore.Env) (w : QemuStore.World) : Prop :=
  let out := QemuStore.startVM None None env w in
  (exists e, fst out = Throw e)
  /\ QemuStore.effects (snd out) = QemuStore.effects w.

(** C8 as stated, for one call: the stop resolves and leaves the world as
    it was. *)
Definition stop_is_noop (env : QemuStore.Env) (w : QemuStore.World) : Prop :=
  fst (QemuStore.stopVM env w) = Ok tt /\ snd (QemuStore.stopVM env w) = w.

(** The two entries [stopVM] logs when the service resolves. *)
Definition stopEntries (env : QemuStore.Env) (w : QemuStore.World)
  : list QemuStore.LogEntry :=
  [ {| QemuStore.timestamp := QemuStore.toISOString env (QemuStore.clock w);
       QemuStore.logMessage := str "Stopping VM..." |};
    {| QemuStore.timestamp := QemuStore.toISOString env (S (QemuStore.clock w));
       QemuStore.logMessage := str "VM stopped successfully" |} ].


(** The world after a successful start. *)
Definition runningWorld : QemuStore.World :=
  snd (QemuStore.startVM None None okEnv readyWorld).



(** A value read off the store is [b]. *)
Definition keeps {B} (f : QemuStore.Store -> B) (b : B) (w : QemuStore.World) : Prop :=
  f (QemuStore.store w) = b.

(** The operations that move the lifecycle phase: the four lifecycle
    actions and the status event that says stopped. *)
Definition lifecycleOp (op : QemuStore.Op) : bool :=
  match op with
  | QemuStore.OpInitialize | QemuStore.OpStartVM _ _
  | QemuStore.OpStopVM | QemuStore.OpRestartVM => true
  | QemuStore.OpVmStatusEvent s => JavaString.equals s (str "stopped")
  | _ => false
  end.

(** The stored configuration is within [VM_CONFIG]'s bounds. *)
Definition configInBounds (w : QemuStore.World) : Prop :=
  QemuStore.MIN_RAM_MB <= QemuStore.ramMB (QemuStore.store w) <= QemuStore.MAX_RAM_MB
  /\ QemuStore.MIN_CPU_CORES <= QemuStore.cpuCores (QemuStore.store w)
     <= QemuStore.MAX_CPU_CORES.

Definition isLoadSettings (op : QemuStore.Op) : bool :=
  match op with QemuStore.OpLoadSettings => true | _ => false end.

(** The timers that are live after a list of calls: set and not cleared
    since. *)
Definition timerStep (live : list nat) (e : QemuStore.Effect) : list nat :=
  match e with
  | QemuStore.SetInterval id _ => live ++ [id]
  | QemuStore.ClearInterval id => List.filter (fun x => negb (Nat.eqb x id)) live
  | _ => live
  end.

Definition liveTimers (effects : list QemuStore.Effect) : list nat :=
  fold_left timerStep effects [].

Definition isTimerEffect (e : QemuStore.Effect) : bool :=
  match e with
  | QemuStore.SetInterval _ _ | QemuStore.ClearInterval _ => true
  | _ => false
  end.

(** The live timers are the one recorded in [statusInterval], if any. *)
Definition timersTracked (w : QemuStore.World) : Prop :=
  liveTimers (QemuStore.effects w)
  = match QemuStore.statusInterval (QemuStore.store w) with
    | Some id => [id]
    | None => []
    end.

(** The number of event listeners registered and not removed since. *)
Definition listenerStep (n : nat) (e : QemuStore.Effect) : nat :=
  match e with
  | QemuStore.ServiceAddEventListener _ => S n
  | QemuStore.ServiceRemoveAllListeners => O
  | _ => n
  end.

Definition liveListeners (effects : list QemuStore.Effect) : nat :=
  fold_left listenerStep effects O.

(** [n] starts in a row, each answered well. *)
Definition startsInARow (n : nat) (env : QemuStore.Env)
  : list (QemuStore.Op * QemuStore.Env) :=
  repeat (QemuStore.OpStartVM None None, env) n.

(** Surroundings in which the service rejects a stop. *)
Definition stopFailsEnv : QemuStore.Env :=
  {| QemuStore.serviceInitialize := QemuStore.serviceInitialize okEnv;
     QemuStore.serviceStartVM := QemuStore.serviceStartVM okEnv;
     QemuStore.serviceStopVM := Throw {| message := str "Failed to stop VM: denied" |};
     QemuStore.serviceGetStatus := QemuStore.serviceGetStatus okEnv;
     QemuStore.serviceSendCommand := QemuStore.serviceSendCommand okEnv;
     QemuStore.storageGetVmRam := QemuStore.storageGetVmRam okEnv;
     QemuStore.storageGetVmCpu := QemuStore.storageGetVmCpu okEnv;
     QemuStore.storageSetVmRam := QemuStore.storageSetVmRam okEnv;
     QemuStore.storageSetVmCpu := QemuStore.storageSetVmCpu okEnv;
     QemuStore.toISOString := QemuStore.toISOString okEnv |}.

(** Surroundings in which the initialization is rejected. *)
Definition initFailsEnv : QemuStore.Env :=
  {| QemuStore.serviceInitialize :=
       Throw {| message := str "Failed to initialize QEMU: no space" |};
     QemuStore.serviceStartVM := QemuStore.serviceStartVM okEnv;
     QemuStore.serviceStopVM := QemuStore.serviceStopVM okEnv;
     QemuStore.serviceGetStatus := QemuStore.serviceGetStatus okEnv;
     QemuStore.serviceSendCommand := QemuStore.serviceSendCommand okEnv;
     QemuStore.storageGetVmRam := QemuStore.storageGetVmRam okEnv;
     QemuStore.storageGetVmCpu := QemuStore.storageGetVmCpu okEnv;
     QemuStore.storageSetVmRam := QemuStore.storageSetVmRam okEnv;
     QemuStore.storageSetVmCpu := QemuStore.storageSetVmCpu okEnv;
     QemuStore.toISOString := QemuStore.toISOString okEnv |}.

(** The state of the service is consistent: either a child is held, with
    its reader thread, or nothing is held and the start time is reset. *)
Definition serviceConsistent (s : QemuService.State) : Prop :=
  if QemuService.isRunning s
  then (exists child, QemuService.qemuProcess s = Some child)
       /\ QemuService.outputReaderThread s = true
  else QemuService.qemuProcess s = None
       /\ QemuService.startTime s = 0
       /\ QemuService.outputReaderThread s = false.

(** The children spawned and not destroyed since, in a list of actions
    that starts with [n] of them. *)
Definition childStep (n : nat) (a : QemuService.Action) : nat :=
  match a with
  | QemuService.Spawn _ => S n
  | QemuService.Destroy => Nat.pred n
  | _ => n
  end.

Definition liveChildren (n : nat) (actions : list QemuService.Action) : nat :=
  fold_left childStep actions n.

Definition startIntent (ram cpu : option Z) : option QemuService.Intent :=
  Some {| QemuService.getAction := Some QemuService.ACTION_START;
          QemuService.extraRamMB := ram; QemuService.extraCpuCores := cpu |}.

Definition stopIntent : option QemuService.Intent :=
  Some {| QemuService.getAction := Some QemuService.ACTION_STOP;
          QemuService.extraRamMB := None; QemuService.extraCpuCores := None |}.

(** The flags of the command line. *)
Definition qemuFlags : list jstring :=
  [ str "-machine"; str "-cpu"; str "-smp"; str "-m"; str "-display";
    str "-serial"; str "-drive"; str "-cdrom"; str "-netdev"; str "-device";
    str "-qmp"; str "-daemonize" ].

(** How often [flag] occurs as an argument of [command]. *)
Definition occurrences (flag : jstring) (command : list jstring) : nat :=
  length (List.filter (JavaString.equals flag) command).

(** The number of newline characters of a text. *)
Definition newlines (text : jstring) : nat :=
  length (List.filter (JavaString.ascii_eqb nl) text).

(** Reading a decimal numeral back, as the child's option parser does:
    an optional minus sign and digits; [None] for anything else. *)
Definition readDecimal (s : jstring) : option Z :=
  option_map Z.of_int (NilZero.int_of_string (string_of_list_ascii s)).

(** The manager executing commands one after the other: the outputs in
    order and the manager left. *)
Fixpoint executeAll (executeViaSsh : jstring -> Result Exception jstring)
    (commands : list jstring) (m : QemuManager.State)
  : list (Result Exception jstring) * QemuManager.State :=
  match commands with
  | [] => ([], m)
  | c :: rest =>
      let (out, m') := QemuManager.executeCommand executeViaSsh c m in
      let (outs, m'') := executeAll executeViaSsh rest m' in
      (out :: outs, m'')
  end.

(** What a command yields while the control channel is down. *)
Definition sshOrNotConnected (executeViaSsh : jstring -> Result Exception jstring)
    (command : jstring) : Result Exception jstring :=
  match executeViaSsh command with
  | Ok out => Ok out
  | Throw _ => Ok (str "Error: QMP not connected")
  end.






(** [k] rounds of the polling loop: a poll and a sleep each. *)
Definition pollRounds (pid : Z) (k : nat) : list QemuJni.Syscall :=
  concat (repeat [QemuJni.WaitpidNoHang pid; QemuJni.Usleep 100000] k).

(** How a settled promise of the bridge reaches the store through
    QemuService.js, which returns the result and rethrows the error: the
    error carries the message given to [reject]. *)
Definition settle {A} (p : QemuModule.Settled A) : Result JsError A :=
  match p with
  | QemuModule.Resolve a => Ok a
  | QemuModule.Reject _ msg => Throw {| message := msg |}
  end.

(** The surroundings of the store when its start, stop and command calls
    are served by the bridge in state [b] and surroundings [benv]; the
    other answers are those of [env]. Of the reply to a start or a stop
    the store reads nothing, of the reply to a command its output. *)
Definition overBridge (benv : QemuModule.Env) (b : QemuModule.State)
    (env : QemuStore.Env) : QemuStore.Env :=
  {| QemuStore.serviceInitialize := QemuStore.serviceInitialize env;
     QemuStore.serviceStartVM := fun ram cpu =>
       match settle (snd (QemuModule.startVM benv ram cpu b)) with
       | Ok _ => Ok tt
       | Throw e => Throw e
       end;
     QemuStore.serviceStopVM :=
       match settle (snd (QemuModule.stopVM benv b)) with
       | Ok _ => Ok tt
       | Throw e => Throw e
       end;
     QemuStore.serviceGetStatus := QemuStore.serviceGetStatus env;
     QemuStore.serviceSendCommand := fun command =>
       match settle (snd (QemuModule.sendCommand benv command b)) with
       | Ok r => Ok {| QemuStore.output := Some (QemuModule.output r) |}
       | Throw e => Throw e
       end;
     QemuStore.storageGetVmRam := QemuStore.storageGetVmRam env;
     QemuStore.storageGetVmCpu := QemuStore.storageGetVmCpu env;
     QemuStore.storageSetVmRam := QemuStore.storageSetVmRam env;
     QemuStore.storageSetVmCpu := QemuStore.storageSetVmCpu env;
     QemuStore.toISOString := QemuStore.toISOString env |}.

(** The intents a call of the bridge hands to the system. *)
Definition intents (actions : list QemuModule.Action) : list QemuService.Intent :=
  flat_map (fun a => match a with
                     | QemuModule.StartForegroundService i
                     | QemuModule.StartService i => [i]
                     | _ => []
                     end) actions.

(** The events a call of the bridge emits before it returns. *)
Definition emitted (actions : list QemuModule.Action) : list QemuModule.Event :=
  flat_map (fun a => match a with
                     | QemuModule.Emit e => [e]
                     | _ => []
                     end) actions.

(** The threads a call of the bridge starts. *)
Definition threads (actions : list QemuModule.Action)
  : list (Z * QemuModule.Event) :=
  flat_map (fun a => match a with
                     | QemuModule.ThreadStart ms e => [(ms, e)]
                     | _ => []
                     end) actions.

(** Whether a call is an [initialize] that resolves. *)
Definition initializeResolves (c : QemuModule.Call * QemuModule.Env) : bool :=
  match c with
  | (QemuModule.Initialize, env) =>
      match snd (QemuModule.initialize env QemuModule.initial) with
      | QemuModule.Resolve _ => true
      | QemuModule.Reject _ _ => false
      end
  | _ => false
  end.

(** The rejection of a start before any initialization. *)
Definition notInitialized : QemuModule.Settled QemuModule.Done :=
  QemuModule.Reject (str "NOT_INITIALIZED")
    (str "QEMU not initialized. Call initialize() first.").

(** Surroundings of the bridge on a device prepared before, where the
    system accepts every intent and SSH is refused. *)
Definition bridgeEnv : QemuModule.Env :=
  {| QemuModule.hasActiveReactInstance := true;
     QemuModule.SDK_INT := 33;
     QemuModule.filesDir := str "/data/files";
     QemuModule.qemuDirExists := true;
     QemuModule.mkdirs := false;
     QemuModule.isoExists := true;
     QemuModule.copyAssetToFile := Ok tt;
     QemuModule.diskExists := true;
     QemuModule.createQcow2Disk := Ok tt;
     QemuModule.configExists := true;
     QemuModule.createDefaultConfig := Ok tt;
     QemuModule.startService := fun _ => Ok tt;
     QemuModule.executeViaSsh := fun _ =>
       Throw (IOException (str "Connection refused"));
     QemuModule.qmpSockExists := true;
     QemuModule.dockerProbe := Throw (IOException (str "Connection refused"));
     QemuModule.qmpSockExistsAfter := true;
     QemuModule.uptimeFile := None;
     QemuModule.currentTimeMillis := 1700000000000;
     QemuModule.logFile := None |}.

(** The same device with an empty data directory that cannot be
    written. *)
Definition blankBridgeEnv : QemuModule.Env :=
  {| QemuModule.hasActiveReactInstance := true;
     QemuModule.SDK_INT := 33;
     QemuModule.filesDir := str "/data/files";
     QemuModule.qemuDirExists := false;
     QemuModule.mkdirs := false;
     QemuModule.isoExists := false;
     QemuModule.copyAssetToFile := Ok tt;
     QemuModule.diskExists := false;
     QemuModule.createQcow2Disk := Ok tt;
     QemuModule.configExists := false;
     QemuModule.createDefaultConfig := Ok tt;
     QemuModule.startService := fun _ => Ok tt;
     QemuModule.executeViaSsh := fun _ =>
       Throw (IOException (str "Connection refused"));
     QemuModule.qmpSockExists := false;
     QemuModule.dockerProbe := Throw (IOException (str "Connection refused"));
     QemuModule.qmpSockExistsAfter := false;
     QemuModule.uptimeFile := None;
     QemuModule.currentTimeMillis := 1700000000000;
     QemuModule.logFile := None |}.

(** The bridge once initialized. *)
Definition readyBridge : QemuModule.State :=
  fst (fst (QemuModule.initialize bridgeEnv QemuModule.initial)).

(** Surroundings of the service in which no process can be started. *)
Definition noSpawnEnv : QemuService.Env :=
  {| QemuService.filesDir := str "/data/files";
     QemuService.nativeLibraryDir := str "/data/lib";
     QemuService.binaryExists := false;
     QemuService.start := fun _ =>
       Throw (IOException (str "No such file or directory"));
     QemuService.currentTimeMillis := 1;
     QemuService.interruptIn := None |}.

(* ================================================================= *)
(** * Properties *)

(** ** Lists and strings *)

Lemma lastn_length {A} (n : nat) (l : list A) :
  length (lastn n l) = Nat.min n (length l).
Proof. unfold lastn. rewrite length_drop. lia. Qed.

Lemma lastn_all {A} (n : nat) (l : list A) :
  (length l <= n)%nat -> lastn n l = l.
Proof.
  intros H. unfold lastn.
  replace (length l - n)%nat with 0%nat by lia. reflexivity.
Qed.

Lemma lastn_suffix {A} (n : nat) (l : list A) : lastn n l `suffix_of` l.
Proof. apply suffix_drop. Qed.

(** Trimming early does not change what is left after a later trim. *)
Lemma lastn_app_lastn {A} (n : nat) (a b : list A) :
  lastn n (lastn n a ++ b) = lastn n (a ++ b).
Proof.
  destruct (decide (length a <= n)%nat) as [Hle | Hgt].
  - rewrite (lastn_all n a) by exact Hle. reflexivity.
  - unfold lastn at 2.
    rewrite <- (drop_app_le a b) by lia.
    unfold lastn. rewrite drop_drop. f_equal.
    rewrite length_drop, !length_app. lia.
Qed.

Lemma ascii_eqb_refl c : JavaString.ascii_eqb c c = true.
Proof. apply Ascii.eqb_refl. Qed.

Lemma ascii_eqb_neq a b : a <> b -> JavaString.ascii_eqb a b = false.
Proof. intros H. apply Ascii.eqb_neq. exact H. Qed.

(** The first occurrence of a character. *)
Lemma find_char (c : ascii) (before after : jstring) :
  Forall (fun x => x <> c) before ->
  JavaString.find [c] (before ++ c :: after) = Some (length before).
Proof.
  induction 1 as [| x before Hx _ IH].
  - cbn [app JavaString.find JavaString.startsWith].
    rewrite ascii_eqb_refl. reflexivity.
  - cbn [app JavaString.find JavaString.startsWith].
    rewrite (ascii_eqb_neq c x) by congruence.
    cbn [andb]. rewrite IH. reflexivity.
Qed.

Lemma stream_snoc (lines : list jstring) (line : jstring) :
  stream (lines ++ [line]) = stream lines ++ line ++ [nl].
Proof.
  unfold stream. rewrite map_app, concat_app. simpl.
  rewrite app_nil_r. reflexivity.
Qed.

(** ** The log buffer of the service *)

Lemma appendLine_lastn (buf line : jstring) :
  QemuService.appendLine buf line
  = lastn (Z.to_nat QemuService.LOG_CAP) (buf ++ line ++ [nl]).
Proof.
  unfold QemuService.appendLine. cbv zeta.
  destruct (Z.ltb_spec QemuService.LOG_CAP
              (Z.of_nat (length (buf ++ line ++ [nl])))) as [Hlt | Hge].
  - unfold lastn. f_equal. unfold QemuService.LOG_CAP in *. lia.
  - symmetry. apply lastn_all. unfold QemuService.LOG_CAP in *. lia.
Qed.

Lemma readerLoop_lastn (lines : list jstring) :
  QemuService.readerLoop [] lines
  = lastn (Z.to_nat QemuService.LOG_CAP) (stream lines).
Proof.
  induction lines as [| line lines IH] using rev_ind.
  - reflexivity.
  - unfold QemuService.readerLoop in *. rewrite fold_left_app. simpl.
    rewrite IH, appendLine_lastn, stream_snoc.
    apply lastn_app_lastn.
Qed.

(** C5. Whatever lines the child has printed, appending one more leaves in
    the buffer exactly the most recent characters of the whole output, at
    most 10000 of them: the buffer never exceeds the cap, what was cut is a
    prefix (the oldest characters) of the buffer extended by the new line,
    and nothing is cut while the output fits. *)
Theorem logBuffer_fifo_eviction (lines : list jstring) (line : jstring) :
  let before := QemuService.readerLoop [] lines in
  let after := QemuService.appendLine before line in
  after = QemuService.readerLoop [] (lines ++ [line])
  /\ after = lastn (Z.to_nat QemuService.LOG_CAP) (stream (lines ++ [line]))
  /\ Z.of_nat (length after)
     = Z.min QemuService.LOG_CAP (Z.of_nat (length (stream (lines ++ [line]))))
  /\ (exists evicted, before ++ line ++ [nl] = evicted ++ after)
  /\ (exists evicted, stream (lines ++ [line]) = evicted ++ after).
Proof.
  intros before after.
  assert (Hrun : after = QemuService.readerLoop [] (lines ++ [line])).
  { unfold after, before, QemuService.readerLoop.
    rewrite fold_left_app. reflexivity. }
  assert (Hlast : after
            = lastn (Z.to_nat QemuService.LOG_CAP) (stream (lines ++ [line]))).
  { rewrite Hrun. apply readerLoop_lastn. }
  repeat split.
  - exact Hrun.
  - exact Hlast.
  - rewrite Hlast, lastn_length. unfold QemuService.LOG_CAP. lia.
  - unfold after. rewrite appendLine_lastn.
    destruct (lastn_suffix (Z.to_nat QemuService.LOG_CAP)
                (before ++ line ++ [nl])) as [k Hk].
    exists k. exact Hk.
  - rewrite Hlast.
    destruct (lastn_suffix (Z.to_nat QemuService.LOG_CAP)
                (stream (lines ++ [line]))) as [k Hk].
    exists k. exact Hk.
Qed.

(** ** The log list of the store *)

Section StoreLogs.
Import QemuStore.

Lemma slice_last_200 {A} (l : list A) : slice (-200) l = lastn 200 l.
Proof.
  unfold slice, lastn. cbv zeta.
  replace (-200 <? 0) with true by reflexivity.
  f_equal. lia.
Qed.

Lemma preserves_ret {A} P (a : A) : preserves P (mret a).
Proof. intros env w H. exact H. Qed.

Lemma preserves_throw {A} P e : preserves P (@throw A e).
Proof. intros env w H. exact H. Qed.

Lemma preserves_bind {A B} P (m : M A) (f : A -> M B) :
  preserves P m -> (forall a, preserves P (f a)) -> preserves P (m ≫= f).
Proof.
  intros Hm Hf env w H. unfold mbind, M_bind.
  specialize (Hm env w H).
  destruct (m env w) as [[a | e] w']; simpl in *.
  - apply Hf, Hm.
  - exact Hm.
Qed.

Lemma preserves_tryCatch {A} P (m : M A) (h : JsError -> M A) :
  preserves P m -> (forall e, preserves P (h e)) -> preserves P (tryCatch m h).
Proof.
  intros Hm Hh env w H. unfold tryCatch.
  specialize (Hm env w H).
  destruct (m env w) as [[a | e] w']; simpl in *.
  - exact Hm.
  - apply Hh, Hm.
Qed.

Lemma preserves_get : preserves logsBounded get.
Proof. intros env w H. exact H. Qed.

Lemma preserves_perform e : preserves logsBounded (perform e).
Proof. intros env w H. exact H. Qed.

Lemma preserves_await {A} e (answer : Env -> Result JsError A) :
  preserves logsBounded (await e answer).
Proof. intros env w H. exact H. Qed.

Lemma preserves_setInterval ms : preserves logsBounded (setInterval ms).
Proof. intros env w H. exact H. Qed.

Lemma preserves_set_other (update : Store -> Store) :
  (forall s, vmLogs (update s) = vmLogs s) ->
  preserves logsBounded (set update).
Proof.
  intros Hu env w H. unfold logsBounded in *. simpl. rewrite Hu. exact H.
Qed.

Lemma addLog_logs msg env w :
  vmLogs (store (snd (addLog msg env w)))
  = lastn 200 (vmLogs (store w)
                 ++ [{| timestamp := toISOString env (clock w);
                        logMessage := msg |}]).
Proof. unfold addLog. simpl. apply slice_last_200. Qed.

Lemma addLog_resolves msg env w : fst (addLog msg env w) = Ok tt.
Proof. reflexivity. Qed.

Lemma preserves_addLog msg : preserves logsBounded (addLog msg).
Proof.
  intros env w _. unfold logsBounded.
  rewrite addLog_logs, lastn_length. lia.
Qed.

Lemma preserves_clearLogs : preserves logsBounded clearLogs.
Proof. intros env w _. unfold logsBounded. simpl. lia. Qed.

End StoreLogs.

Create HintDb store_logs.

#[local] Hint Resolve preserves_ret preserves_throw preserves_get
  preserves_perform preserves_await preserves_setInterval preserves_addLog
  preserves_clearLogs : store_logs.

(** Walks through an operation of the store, one bind at a time. *)
Ltac preserve_logs :=
  repeat lazymatch goal with
    | |- preserves _ (mbind _ _) => apply preserves_bind; [| intros ?]
    | |- preserves _ (QemuStore.tryCatch _ _) =>
        apply preserves_tryCatch; [| intros ?]
    | |- preserves _ (QemuStore.set _) =>
        apply preserves_set_other; intros ?; reflexivity
    | |- preserves _ (if ?b then _ else _) => destruct b
    | |- preserves _ (match ?x with _ => _ end) => destruct x
    | |- preserves _ _ => solve [auto with store_logs]
    end.

Lemma initialize_logsBounded : preserves logsBounded QemuStore.initialize.
Proof. unfold QemuStore.initialize. preserve_logs. Qed.

Lemma getStatus_logsBounded : preserves logsBounded QemuStore.getStatus.
Proof. unfold QemuStore.getStatus. preserve_logs. Qed.

Lemma startStatusPolling_logsBounded :
  preserves logsBounded QemuStore.startStatusPolling.
Proof. unfold QemuStore.startStatusPolling. preserve_logs. Qed.

Lemma stopStatusPolling_logsBounded :
  preserves logsBounded QemuStore.stopStatusPolling.
Proof. unfold QemuStore.stopStatusPolling. preserve_logs. Qed.

Lemma setupEventListeners_logsBounded :
  preserves logsBounded QemuStore.setupEventListeners.
Proof. unfold QemuStore.setupEventListeners. preserve_logs. Qed.

#[local] Hint Resolve initialize_logsBounded getStatus_logsBounded
  startStatusPolling_logsBounded stopStatusPolling_logsBounded
  setupEventListeners_logsBounded : store_logs.

Lemma startVM_logsBounded r c : preserves logsBounded (QemuStore.startVM r c).
Proof. unfold QemuStore.startVM. preserve_logs. Qed.

Lemma stopVM_logsBounded : preserves logsBounded QemuStore.stopVM.
Proof. unfold QemuStore.stopVM. preserve_logs. Qed.

#[local] Hint Resolve startVM_logsBounded stopVM_logsBounded : store_logs.

Lemma run_logsBounded (op : QemuStore.Op) :
  preserves logsBounded (QemuStore.run op).
Proof.
  destruct op; unfold QemuStore.run, QemuStore.void;
    unfold QemuStore.loadSettings, QemuStore.restartVM, QemuStore.pollTick,
      QemuStore.onVmStatus, QemuStore.onVmLog, QemuStore.onVmError,
      QemuStore.setRamMB, QemuStore.setCpuCores, QemuStore.sendCommand,
      QemuStore.clearError;
    preserve_logs.
Qed.

Lemma runAll_logsBounded (ops : list (QemuStore.Op * QemuStore.Env)) w :
  logsBounded w -> logsBounded (QemuStore.runAll ops w).
Proof.
  revert w. induction ops as [| [op env] ops IH]; intros w H; simpl.
  - exact H.
  - apply IH, run_logsBounded, H.
Qed.

Lemma lastn_snoc_last {A} (n : nat) (l : list A) (x : A) :
  last (lastn (S n) (l ++ [x])) = Some x.
Proof.
  unfold lastn. rewrite drop_app_le by (rewrite length_app; simpl; lia).
  apply last_snoc.
Qed.

Lemma addLog_clock msg env w :
  QemuStore.clock (snd (QemuStore.addLog msg env w)) = S (QemuStore.clock w).
Proof. reflexivity. Qed.

Lemma addLog_run_logs (msgs : list jstring) env w :
  QemuStore.vmLogs (QemuStore.store
    (QemuStore.runAll (map (fun m => (QemuStore.OpAddLog m, env)) msgs) w))
  = match msgs with
    | [] => QemuStore.vmLogs (QemuStore.store w)
    | _ => lastn 200 (QemuStore.vmLogs (QemuStore.store w)
                        ++ stamped env (QemuStore.clock w) msgs)
    end.
Proof.
  revert w. induction msgs as [| m msgs IH]; intros w; [reflexivity |].
  cbn [map QemuStore.runAll QemuStore.run]. rewrite IH.
  rewrite addLog_clock, addLog_logs.
  destruct msgs as [| m' msgs]; [reflexivity |].
  rewrite lastn_app_lastn, <- app_assoc. reflexivity.
Qed.

(** C10. The log list of the store is bounded at 200 entries: [addLog]
    resolves and leaves the last 200 entries of the old list extended by
    the new entry, newest last and in append order; a run of [addLog]s
    leaves the 200 most recently added entries; [clearLogs] empties the
    list; and no run of operations of the store, from its initial state,
    makes the list longer than 200. *)
Theorem vmLogs_bounded_200 :
  (forall msg env w,
     let entry := {| QemuStore.timestamp := QemuStore.toISOString env (QemuStore.clock w);
                     QemuStore.logMessage := msg |} in
     let logs' := QemuStore.vmLogs (QemuStore.store (snd (QemuStore.addLog msg env w))) in
     fst (QemuStore.addLog msg env w) = Ok tt
     /\ logs' = lastn 200 (QemuStore.vmLogs (QemuStore.store w) ++ [entry])
     /\ (length logs' <= 200)%nat
     /\ last logs' = Some entry
     /\ logs' `suffix_of` QemuStore.vmLogs (QemuStore.store w) ++ [entry])
  /\ (forall m msgs env w,
        QemuStore.vmLogs (QemuStore.store
          (QemuStore.runAll
             (map (fun m => (QemuStore.OpAddLog m, env)) (m :: msgs)) w))
        = lastn 200 (QemuStore.vmLogs (QemuStore.store w)
                       ++ stamped env (QemuStore.clock w) (m :: msgs)))
  /\ (forall env w,
        fst (QemuStore.clearLogs env w) = Ok tt
        /\ QemuStore.vmLogs (QemuStore.store (snd (QemuStore.clearLogs env w))) = [])
  /\ (forall ops,
        (length (QemuStore.vmLogs (QemuStore.store
                   (QemuStore.runAll ops QemuStore.initialWorld))) <= 200)%nat).
Proof.
  split; [| split; [| split]].
  - intros msg env w entry logs'.
    assert (Hl : logs' = lastn 200 (QemuStore.vmLogs (QemuStore.store w) ++ [entry]))
      by apply addLog_logs.
    repeat split.
    + exact Hl.
    + rewrite Hl, lastn_length. lia.
    + rewrite Hl. apply lastn_snoc_last.
    + rewrite Hl. apply lastn_suffix.
  - intros m msgs env w. apply (addLog_run_logs (m :: msgs)).
  - intros env w. split; reflexivity.
  - intros ops. apply (runAll_logsBounded ops QemuStore.initialWorld).
    unfold logsBounded. simpl. lia.
Qed.

(** ** Snapshots of the logs *)

Lemma wrap32_small (z : Z) : - 2 ^ 31 <= z < 2 ^ 31 -> wrap32 z = z.
Proof.
  intros H. unfold wrap32.
  rewrite Z.mod_small by lia. lia.
Qed.

Lemma readLines_lines (ls : list jstring) :
  QemuManager.readLines (map QemuManager.Line ls) = Ok ls.
Proof.
  induction ls as [| l ls IH]; simpl; [reflexivity |].
  rewrite IH. reflexivity.
Qed.

(** X17. The file-backed [getLogs] of the manager returns the last [n]
    lines of the file, in order, each followed by a newline, blank lines
    included. *)
Lemma QemuManager_getLogs_last_lines (ls : list jstring) (n : Z) :
  0 <= n < 2 ^ 31 ->
  Z.of_nat (length ls) < 2 ^ 31 ->
  QemuManager.getLogs (Some (map QemuManager.Line ls)) n
  = stream (lastn (Z.to_nat n) ls).
Proof.
  intros Hn Hlen. unfold QemuManager.getLogs.
  rewrite readLines_lines, wrap32_small by lia.
  unfold stream, lastn. do 3 f_equal. lia.
Qed.

Lemma pieces_line (l rest : jstring) :
  Forall (fun x => x <> nl) l ->
  JavaString.pieces nl (l ++ nl :: rest) = l :: JavaString.pieces nl rest.
Proof.
  induction 1 as [| x l Hx _ IH]; cbn [app JavaString.pieces].
  - rewrite ascii_eqb_refl. reflexivity.
  - rewrite (ascii_eqb_neq x nl Hx), IH. reflexivity.
Qed.

Lemma pieces_stream (ls : list jstring) :
  Forall (Forall (fun x => x <> nl)) ls ->
  JavaString.pieces nl (stream ls) = ls ++ [[]].
Proof.
  induction 1 as [| l ls Hl _ IH]; [reflexivity |].
  unfold stream in *. cbn [map concat app].
  rewrite <- app_assoc. cbn [app]. rewrite (pieces_line l _ Hl), IH.
  reflexivity.
Qed.

Lemma dropTrailingEmpty_snoc (ls : list jstring) :
  JavaString.dropTrailingEmpty (ls ++ [[]]) = JavaString.dropTrailingEmpty ls.
Proof.
  induction ls as [| l ls IH]; [reflexivity |].
  cbn [app JavaString.dropTrailingEmpty]. rewrite IH. reflexivity.
Qed.

Lemma dropTrailingEmpty_id (ls : list jstring) :
  last ls <> Some [] -> JavaString.dropTrailingEmpty ls = ls.
Proof.
  induction ls as [| l ls IH]; intros Hlast; [reflexivity |].
  cbn [JavaString.dropTrailingEmpty].
  destruct ls as [| l' ls].
  - cbn [JavaString.dropTrailingEmpty]. destruct l; [contradiction | reflexivity].
  - rewrite IH by exact Hlast. reflexivity.
Qed.

(** X16. Where the snapshot of the service is right: when the buffer
    holds the lines [ls], the last of which is not blank, [getLogs] returns
    the last [n] of them, in order. *)
Lemma QemuService_getLogs_last_lines (l : jstring) (ls : list jstring) (n : Z) :
  Forall (Forall (fun x => x <> nl)) (l :: ls) ->
  last (l :: ls) <> Some [] ->
  0 <= n < 2 ^ 31 ->
  Z.of_nat (length (l :: ls)) < 2 ^ 31 ->
  QemuService.getLogs (stream (l :: ls)) n = stream (lastn (Z.to_nat n) (l :: ls)).
Proof.
  intros Hnl Hlast Hn Hlen. unfold QemuService.getLogs, JavaString.split.
  assert (Hc : JavaString.contains [nl] (stream (l :: ls)) = true).
  { unfold JavaString.contains, stream. cbn [map concat].
    rewrite <- app_assoc. cbn [app].
    rewrite find_char by (inversion Hnl; assumption). reflexivity. }
  rewrite Hc, pieces_stream, dropTrailingEmpty_snoc, dropTrailingEmpty_id
    by assumption.
  rewrite wrap32_small by lia.
  unfold stream, lastn. do 3 f_equal. lia.
Qed.

(** C6. After the child has printed the line a and then an empty line, the
    buffer holds both lines, but [getLogs] of the service does not return
    the last lines of it: asked for one line it returns a instead of the
    empty line, asked for two it returns one; and on an empty buffer it
    returns one empty line instead of nothing. The snapshot as the
    specification words it is the other value each time. *)
Theorem getLogs_loses_trailing_blank_lines :
  let buf := QemuService.readerLoop [] [str "a"; []] in
  buf = [ "a"%char; nl; nl ]
  /\ QemuService.getLogs buf 1 = [ "a"%char; nl ]
  /\ snapshot_spec buf 1 = [ nl ]
  /\ QemuService.getLogs buf 2 = [ "a"%char; nl ]
  /\ snapshot_spec buf 2 = [ "a"%char; nl; nl ]
  /\ QemuService.getLogs [] 1 = [ nl ]
  /\ snapshot_spec [] 1 = [].
Proof. vm_compute. repeat split. Qed.

(** ** Command execution *)

(** C9. [executeCommand] never throws: it returns the output of the SSH
    transport when that succeeds (the control channel is then not touched),
    else the output of the serial transport when that succeeds, else the
    text Error: followed by the message of the serial failure. *)
Theorem executeCommand_never_throws
    (executeViaSsh : jstring -> Result Exception jstring)
    (command : jstring) (m : QemuManager.State) :
  exists out : jstring,
    fst (QemuManager.executeCommand executeViaSsh command m) = Ok out
    /\ match executeViaSsh command with
       | Ok sshOut =>
           out = sshOut
           /\ snd (QemuManager.executeCommand executeViaSsh command m) = m
       | Throw _ =>
           snd (QemuManager.executeCommand executeViaSsh command m)
           = snd (QemuManager.executeViaSerial command m)
           /\ match fst (QemuManager.executeViaSerial command m) with
              | Ok serialOut => out = serialOut
              | Throw e2 =>
                  out = str "Error: " ++ JavaString.valueOf (getMessage e2)
              end
       end.
Proof.
  unfold QemuManager.executeCommand, QemuManager.tryCatch.
  destruct (executeViaSsh command) as [sshOut | e1].
  - exists sshOut. simpl. auto.
  - destruct (QemuManager.executeViaSerial command m) as [[serialOut | e2] m'];
      simpl; eauto.
Qed.

(** The control channel is never connected by the code: when SSH fails on
    a fresh manager the answer is always the same error text. *)
Lemma executeCommand_fresh_manager
    (executeViaSsh : jstring -> Result Exception jstring)
    (command : jstring) (e : Exception) :
  executeViaSsh command = Throw e ->
  fst (QemuManager.executeCommand executeViaSsh command QemuManager.initial)
  = Ok (str "Error: QMP not connected").
Proof.
  intros H. unfold QemuManager.executeCommand, QemuManager.tryCatch.
  rewrite H. reflexivity.
Qed.

(** ** The control channel *)



















(** ** Stopping the child *)

(** The polling loop ends by itself within 50 rounds. *)
Lemma waitLoop_bounded (poll : nat -> Z) (pid : Z) (fuel : nat) :
  forall (k : nat) (wait_count : Z),
    0 <= wait_count ->
    50 - wait_count <= Z.of_nat fuel ->
    exists n calls,
      QemuJni.waitLoop fuel poll pid k wait_count = Some (n, calls)
      /\ wait_count <= n <= Z.max wait_count 50
      /\ sleptUsec calls = 100000 * (n - wait_count)
      /\ polls calls <= Z.max 0 (50 - wait_count).
Proof.
  induction fuel as [| fuel IH]; intros k wc H0 Hfuel.
  - exists wc, []. simpl.
    replace (wc <? 50) with false by (symmetry; apply Z.ltb_ge; lia).
    repeat split; try lia.
  - cbn [QemuJni.waitLoop].
    destruct (Z.ltb_spec wc 50) as [Hlt | Hge].
    + destruct (poll k =? pid).
      { exists wc, [QemuJni.WaitpidNoHang pid].
        repeat split; simpl; lia. }
      destruct (poll k <? 0).
      { exists wc, [QemuJni.WaitpidNoHang pid].
        repeat split; simpl; lia. }
      destruct (IH (S k) (wc + 1)) as (n & calls & -> & Hn & Hs & Hp);
        [lia | lia |].
      exists n, (QemuJni.WaitpidNoHang pid :: QemuJni.Usleep 100000 :: calls).
      repeat split; simpl; lia.
    + exists wc, []. repeat split; simpl; lia.
Qed.

(** While no poll reports the child gone, the loop runs its 50 rounds. *)
Lemma waitLoop_timeout (poll : nat -> Z) (pid : Z) (fuel : nat) :
  (forall i, poll i <> pid /\ 0 <= poll i) ->
  forall (k : nat) (wait_count : Z),
    0 <= wait_count <= 50 ->
    50 - wait_count <= Z.of_nat fuel ->
    exists calls, QemuJni.waitLoop fuel poll pid k wait_count = Some (50, calls).
Proof.
  intros Hpoll. induction fuel as [| fuel IH]; intros k wc H0 Hfuel.
  - exists []. simpl.
    replace (wc <? 50) with false by (symmetry; apply Z.ltb_ge; lia).
    f_equal. f_equal. lia.
  - cbn [QemuJni.waitLoop].
    destruct (Z.ltb_spec wc 50) as [Hlt | Hge].
    + destruct (Hpoll k) as [Hne Hpos].
      replace (poll k =? pid) with false by (symmetry; apply Z.eqb_neq; exact Hne).
      replace (poll k <? 0) with false by (symmetry; apply Z.ltb_ge; exact Hpos).
      destruct (IH (S k) (wc + 1)) as (calls & ->); [lia | lia |].
      eexists. reflexivity.
    + exists []. f_equal. f_equal. lia.
Qed.

(** [nativeStop] on a running child always returns: it sends SIGTERM,
    polls at most 50 times and sleeps at most 5 seconds in all, and
    leaves the state stopped; when no poll has seen the child exit it
    ends with SIGKILL and a blocking wait. *)
Lemma nativeStop_bounded_wait (poll : nat -> Z) (state : QemuJni.QemuState) :
  QemuJni.running state <> 0 ->
  0 < QemuJni.pid state ->
  exists calls,
    QemuJni.nativeStop 50 poll (Some state)
    = Some (0, Some (nativeStopped state), calls)
    /\ head calls = Some (QemuJni.Kill (QemuJni.pid state) QemuJni.SIGTERM)
    /\ polls calls <= 50
    /\ sleptUsec calls <= 5000000
    /\ ((forall i, poll i <> QemuJni.pid state /\ 0 <= poll i) ->
        exists waited,
          calls = waited ++ [QemuJni.Kill (QemuJni.pid state) QemuJni.SIGKILL;
                             QemuJni.WaitpidBlocking (QemuJni.pid state)]).
Proof.
  intros Hrun Hpid. unfold QemuJni.nativeStop.
  replace (QemuJni.running state =? 0) with false
    by (symmetry; apply Z.eqb_neq; exact Hrun).
  replace (QemuJni.pid state <=? 0) with false
    by (symmetry; apply Z.leb_gt; exact Hpid).
  cbn [orb].
  destruct (waitLoop_bounded poll (QemuJni.pid state) 50 0 0)
    as (n & calls & Hloop & Hn & Hs & Hp); [lia | lia |].
  rewrite Hloop.
  eexists. split; [reflexivity |]. split; [reflexivity |].
  assert (Hsl : forall a b, sleptUsec (a ++ b) = sleptUsec a + sleptUsec b).
  { intros a b. induction a as [| [] a IHa]; simpl; lia. }
  assert (Hpl : forall a b, polls (a ++ b) = polls a + polls b).
  { intros a b. induction a as [| [] a IHa]; simpl; lia. }
  split; [| split].
  - cbn [polls]. rewrite Hpl. destruct (50 <=? n); simpl; lia.
  - cbn [sleptUsec]. rewrite Hsl. destruct (50 <=? n); simpl; lia.
  - intros Hpoll.
    destruct (waitLoop_timeout poll (QemuJni.pid state) 50 Hpoll 0 0)
      as (calls' & Hloop'); [lia | lia |].
    rewrite Hloop in Hloop'. injection Hloop' as -> ->.
    exists (QemuJni.Kill (QemuJni.pid state) QemuJni.SIGTERM :: calls').
    reflexivity.
Qed.

Lemma waitFor_never (fuel : nat) : QemuService.waitFor fuel None None = None.
Proof. induction fuel as [| fuel IH]; [reflexivity | exact IH]. Qed.

Lemma waitFor_late (fuel delay : nat) :
  (fuel < delay)%nat -> QemuService.waitFor fuel (Some delay) None = None.
Proof.
  revert delay. induction fuel as [| fuel IH]; intros [| delay] H; try lia.
  - reflexivity.
  - simpl. apply IH. lia.
Qed.

Lemma waitFor_exit (delay : nat) :
  QemuService.waitFor delay (Some delay) None = Some QemuService.Exited.
Proof. induction delay as [| delay IH]; [reflexivity | exact IH]. Qed.

(** C4. [stopQemu] of the service waits for the child without a bound and
    without escalating: a child that does not exit on SIGTERM keeps the
    call blocked whatever time is allowed; for every bound there is a
    child, exiting later than that, on which the call is still blocked at
    the bound and, when it returns, has never forced the kill. On the same
    unresponsive child [nativeStop] returns after its 50 polls with
    SIGKILL. *)
Theorem stopQemu_waits_without_bound :
  (forall fuel,
     QemuService.stopQemu fuel quietEnv
       (serviceRunning {| QemuService.childPid := 4242;
                          QemuService.termDelay := None |}) = None)
  /\ (forall bound : nat,
        let child := {| QemuService.childPid := 4242;
                        QemuService.termDelay := Some (S bound) |} in
        QemuService.stopQemu bound quietEnv (serviceRunning child) = None
        /\ QemuService.stopQemu (S bound) quietEnv (serviceRunning child)
           = Some (QemuService.stopped (serviceRunning child),
                   [QemuService.Destroy; QemuService.InterruptReader;
                    QemuService.StopForeground; QemuService.StopSelf]))
  /\ (exists waited,
        QemuJni.nativeStop 50 (fun _ => 0)
          (Some {| QemuJni.pid := 4242; QemuJni.running := 1;
                   QemuJni.data_dir := str "/data/files/qemu";
                   QemuJni.ram_mb := 0; QemuJni.cpu_cores := 0;
                   QemuJni.start_time := 1 |})
        = Some (0,
                Some {| QemuJni.pid := -1; QemuJni.running := 0;
                        QemuJni.data_dir := str "/data/files/qemu";
                        QemuJni.ram_mb := 0; QemuJni.cpu_cores := 0;
                        QemuJni.start_time := 0 |},
                waited ++ [QemuJni.Kill 4242 QemuJni.SIGKILL;
                           QemuJni.WaitpidBlocking 4242])).
Proof.
  split; [| split].
  - intros fuel. unfold QemuService.stopQemu, serviceRunning, quietEnv. simpl.
    rewrite waitFor_never. reflexivity.
  - intros bound child.
    unfold QemuService.stopQemu, serviceRunning, quietEnv, child.
    cbn [QemuService.isRunning QemuService.qemuProcess QemuService.termDelay
         QemuService.interruptIn negb].
    rewrite waitFor_late by lia. rewrite waitFor_exit. split; reflexivity.
  - set (state := {| QemuJni.pid := 4242; QemuJni.running := 1;
                     QemuJni.data_dir := str "/data/files/qemu";
                     QemuJni.ram_mb := 0; QemuJni.cpu_cores := 0;
                     QemuJni.start_time := 1 |}).
    destruct (nativeStop_bounded_wait (fun _ => 0) state)
      as (calls & Hstop & _ & _ & _ & Hforce);
      [discriminate | reflexivity |].
    destruct Hforce as (waited & ->); [intros _; simpl; lia |].
    exists waited. exact Hstop.
Qed.

(** ** Starting the VM *)

(** Unfolds the operations of the store to their effect on the world. *)
Ltac store_eval :=
  cbv beta iota zeta delta
    [QemuStore.startVM QemuStore.stopVM QemuStore.initialize QemuStore.getStatus
     QemuStore.pollTick QemuStore.startStatusPolling QemuStore.stopStatusPolling
     QemuStore.setupEventListeners QemuStore.addLog QemuStore.clearLogs
     QemuStore.restartVM QemuStore.setRamMB QemuStore.setCpuCores
     QemuStore.onVmStatus
     mbind QemuStore.M_bind mret QemuStore.M_ret QemuStore.tryCatch
     QemuStore.throw QemuStore.get QemuStore.set QemuStore.perform
     QemuStore.await QemuStore.now QemuStore.setInterval
     QemuStore.with_vmStatus QemuStore.with_vmLogs QemuStore.with_vmStats
     QemuStore.with_isInitialized QemuStore.with_qemuPaths QemuStore.with_error
     QemuStore.with_ramMB QemuStore.with_cpuCores QemuStore.with_statusInterval
     QemuStore.store QemuStore.effects QemuStore.clock QemuStore.nextTimer
     QemuStore.vmStatus QemuStore.vmLogs QemuStore.vmStats
     QemuStore.isInitialized QemuStore.qemuPaths QemuStore.error
     QemuStore.ramMB QemuStore.cpuCores QemuStore.statusInterval
     QemuStore.VmStatus_eqb fst snd].

(** What [startVM] leaves on an initialized store. *)
Lemma startVM_initialized (customRamMB customCpuCores : option Z)
    (env : QemuStore.Env) (w : QemuStore.World) :
  QemuStore.isInitialized (QemuStore.store w) = true ->
  let ram := QemuStore.orElse customRamMB (QemuStore.ramMB (QemuStore.store w)) in
  let cpu := QemuStore.orElse customCpuCores (QemuStore.cpuCores (QemuStore.store w)) in
  let out := QemuStore.startVM customRamMB customCpuCores env w in
  (exists rest,
     QemuStore.effects (snd out)
     = QemuStore.effects w ++ QemuStore.ServiceStartVM ram cpu :: rest)
  /\ match QemuStore.serviceStartVM env ram cpu with
     | Ok _ =>
         fst out = Ok tt
         /\ QemuStore.vmStatus (QemuStore.store (snd out)) = QemuStore.RUNNING
         /\ QemuStore.error (QemuStore.store (snd out)) = None
     | Throw e =>
         fst out = Throw e
         /\ QemuStore.vmStatus (QemuStore.store (snd out)) = QemuStore.ERROR
         /\ QemuStore.error (QemuStore.store (snd out)) = Some (message e)
     end.
Proof.
  intros H.
  destruct w as [[vs logs stats ini paths err ram0 cpu0 si] eff clk tm].
  simpl in H. subst ini. store_eval.
  destruct (QemuStore.serviceStartVM env _ _) as [[] | e].
  - destruct si; (split; [| auto]); rewrite <- !app_assoc; eexists; reflexivity.
  - split; [| auto]. eexists; reflexivity.
Qed.

(** What [startQemu] does when no child is running and the spawn works. *)
Lemma startQemu_spawns (env : QemuService.Env) (ramMB cpuCores : Z)
    (s : QemuService.State) (child : QemuService.Child) :
  QemuService.isRunning s = false ->
  QemuService.start env (QemuService.buildQemuCommand env ramMB cpuCores) = Ok child ->
  QemuService.startQemu env ramMB cpuCores s
  = ({| QemuService.qemuProcess := Some child; QemuService.isRunning := true;
        QemuService.startTime := QemuService.currentTimeMillis env;
        QemuService.outputReaderThread := true;
        QemuService.logBuffer := QemuService.logBuffer s |},
     [QemuService.StartForeground (str "Starting VM...");
      QemuService.Spawn (QemuService.buildQemuCommand env ramMB cpuCores);
      QemuService.StartOutputReader;
      QemuService.UpdateNotification (str "Alpine Linux VM Running")]).
Proof.
  intros Hrun Hstart. unfold QemuService.startQemu. rewrite Hrun, Hstart.
  reflexivity.
Qed.

Lemma buildQemuCommand_memory (env : QemuService.Env) (ramMB cpuCores : Z) :
  exists before after,
    QemuService.buildQemuCommand env ramMB cpuCores
    = before ++ [str "-smp"; decimal cpuCores; str "-m"; decimal ramMB] ++ after.
Proof.
  unfold QemuService.buildQemuCommand.
  eexists [_; _; _; _; _], _. reflexivity.
Qed.

(** C1, as stated, fails: on an initialized store, a start with 100 MB of
    RAM resolves, with the phase running and the request forwarded. *)
Lemma startVM_ram_100_counterexample :
  ~ rejects_before_spawn 100 2 okEnv readyWorld.
Proof.
  intros [[e He] _]. vm_compute in He. discriminate.
Qed.

Lemma setRamMB_out_of_range (v : Z) (env : QemuStore.Env) (w : QemuStore.World) :
  v < 512 \/ 8192 < v -> QemuStore.setRamMB v env w = (Ok tt, w).
Proof.
  intros H. unfold QemuStore.setRamMB, QemuStore.MIN_RAM_MB, QemuStore.MAX_RAM_MB.
  replace ((512 <=? v) && (v <=? 8192)) with false; [reflexivity |].
  symmetry. apply andb_false_iff. rewrite Z.leb_gt, Z.leb_gt. exact H.
Qed.

Lemma setCpuCores_out_of_range (v : Z) (env : QemuStore.Env) (w : QemuStore.World) :
  v < 1 \/ 8 < v -> QemuStore.setCpuCores v env w = (Ok tt, w).
Proof.
  intros H.
  unfold QemuStore.setCpuCores, QemuStore.MIN_CPU_CORES, QemuStore.MAX_CPU_CORES.
  replace ((1 <=? v) && (v <=? 8)) with false; [reflexivity |].
  symmetry. apply andb_false_iff. rewrite Z.leb_gt, Z.leb_gt. exact H.
Qed.

Lemma asked_orElse (stored : Z) (request : option Z) (v : Z) :
  asked stored request v -> QemuStore.orElse request stored = v.
Proof.
  intros [v' Hv | |]; unfold QemuStore.orElse; [| reflexivity | reflexivity].
  replace (v' =? 0) with false by (symmetry; apply Z.eqb_neq; exact Hv).
  reflexivity.
Qed.

(** C1, amended. A start request is not checked against the bounds. On an
    initialized store [startVM] forwards the RAM and CPU values of the
    request to the service as they are, whatever they are, only a value
    that is missing or 0 being replaced by the stored setting, and ends
    in phase running when the service resolves, in phase error with the
    service's message when it rejects. The service, when no child is
    running and the process starts, spawns the child with the values it
    is given on its command line. The bounds [512, 8192] and [1, 8] are
    applied only where the settings are stored: [setRamMB] and
    [setCpuCores] resolve and change nothing when the new value is out of
    range. *)
Theorem start_request_is_not_validated
    (customRamMB customCpuCores : option Z) (ram cpu : Z)
    (env : QemuStore.Env) (w : QemuStore.World)
    (senv : QemuService.Env) (s : QemuService.State)
    (child : QemuService.Child) :
  QemuStore.isInitialized (QemuStore.store w) = true ->
  asked (QemuStore.ramMB (QemuStore.store w)) customRamMB ram ->
  asked (QemuStore.cpuCores (QemuStore.store w)) customCpuCores cpu ->
  QemuService.isRunning s = false ->
  QemuService.start senv (QemuService.buildQemuCommand senv ram cpu) = Ok child ->
  let out := QemuStore.startVM customRamMB customCpuCores env w in
  (exists rest,
     QemuStore.effects (snd out)
     = QemuStore.effects w ++ QemuStore.ServiceStartVM ram cpu :: rest)
  /\ match QemuStore.serviceStartVM env ram cpu with
     | Ok _ =>
         fst out = Ok tt
         /\ QemuStore.vmStatus (QemuStore.store (snd out)) = QemuStore.RUNNING
         /\ QemuStore.error (QemuStore.store (snd out)) = None
     | Throw e =>
         fst out = Throw e
         /\ QemuStore.vmStatus (QemuStore.store (snd out)) = QemuStore.ERROR
         /\ QemuStore.error (QemuStore.store (snd out)) = Some (message e)
     end
  /\ (exists before after,
        snd (QemuService.startQemu senv ram cpu s)
        = [QemuService.StartForeground (str "Starting VM...");
           QemuService.Spawn
             (before ++ [str "-smp"; decimal cpu; str "-m"; decimal ram] ++ after);
           QemuService.StartOutputReader;
           QemuService.UpdateNotification (str "Alpine Linux VM Running")])
  /\ QemuService.isRunning (fst (QemuService.startQemu senv ram cpu s)) = true
  /\ (forall v, v < 512 \/ 8192 < v -> QemuStore.setRamMB v env w = (Ok tt, w))
  /\ (forall v, v < 1 \/ 8 < v -> QemuStore.setCpuCores v env w = (Ok tt, w)).
Proof.
  intros Hinit Hram Hcpu Hrun Hstart out.
  destruct (startVM_initialized customRamMB customCpuCores env w Hinit)
    as [Heff Hres].
  rewrite (asked_orElse _ _ _ Hram), (asked_orElse _ _ _ Hcpu) in Heff, Hres.
  split; [exact Heff |]. split; [exact Hres |].
  rewrite (startQemu_spawns senv ram cpu s child Hrun Hstart).
  destruct (buildQemuCommand_memory senv ram cpu) as (b & a & ->).
  split; [exists b, a; reflexivity |]. split; [reflexivity |].
  split; intros v; [apply setRamMB_out_of_range | apply setCpuCores_out_of_range].
Qed.

Lemma start_request_is_not_validated_witness :
  QemuStore.isInitialized (QemuStore.store readyWorld) = true
  /\ QemuService.isRunning QemuService.initial = false
  /\ (exists rest,
        QemuStore.effects (snd (QemuStore.startVM (Some 100) None okEnv readyWorld))
        = QemuStore.effects readyWorld ++ QemuStore.ServiceStartVM 100 2 :: rest)
  /\ fst (QemuStore.startVM (Some 100) None okEnv readyWorld) = Ok tt
  /\ QemuStore.vmStatus
       (QemuStore.store (snd (QemuStore.startVM (Some 100) None okEnv readyWorld)))
     = QemuStore.RUNNING
  /\ QemuStore.setRamMB 100 okEnv readyWorld = (Ok tt, readyWorld).
Proof.
  split; [reflexivity |]. split; [reflexivity |].
  assert (H100 : 100 <> 0) by lia.
  pose proof (start_request_is_not_validated (Some 100) None 100 2 okEnv
                readyWorld quietEnv QemuService.initial
                {| QemuService.childPid := 4242;
                   QemuService.termDelay := Some 0%nat |}
                eq_refl (asked_given _ 100 H100) (asked_missing _)
                eq_refl eq_refl) as H.
  destruct H as (H0 & H & _ & _ & Hram & _). destruct H as (H1 & H2 & _).
  split; [exact H0 |]. split; [exact H1 |]. split; [exact H2 |].
  apply Hram. left. reflexivity.
Defined.

(** ** Starting while busy *)

(** C2, as stated, fails: a second start made while the phase is starting
    resolves, and the request goes to the service once more. *)
Lemma startVM_while_starting_counterexample :
  QemuStore.vmStatus (QemuStore.store startingWorld) = QemuStore.STARTING
  /\ QemuStore.isVmBusy (QemuStore.store startingWorld) = true
  /\ ~ busy_rejected okEnv startingWorld.
Proof.
  split; [reflexivity |]. split; [reflexivity |].
  intros [[e He] _]. vm_compute in He. discriminate.
Qed.

(** [startVM] does not read the phase before it sets it. *)
Lemma startVM_any_phase (customRamMB customCpuCores : option Z)
    (v : QemuStore.VmStatus) (env : QemuStore.Env) (w : QemuStore.World) :
  QemuStore.startVM customRamMB customCpuCores env (inPhase v w)
  = QemuStore.startVM customRamMB customCpuCores env w.
Proof.
  destruct w as [[vs logs stats ini paths err ram0 cpu0 si] eff clk tm].
  unfold inPhase. destruct ini; store_eval.
  - destruct (QemuStore.serviceStartVM env _ _) as [[] | e];
      [destruct si |]; reflexivity.
  - destruct (QemuStore.serviceInitialize env) as [p | e]; store_eval;
      [| reflexivity].
    destruct (QemuStore.serviceStartVM env _ _) as [[] | e];
      [destruct si |]; reflexivity.
Qed.

(** What [startVM] leaves on a store that is not initialized. *)
Lemma startVM_uninitialized (customRamMB customCpuCores : option Z) (ram cpu : Z)
    (env : QemuStore.Env) (w : QemuStore.World) :
  QemuStore.isInitialized (QemuStore.store w) = false ->
  asked (QemuStore.ramMB (QemuStore.store w)) customRamMB ram ->
  asked (QemuStore.cpuCores (QemuStore.store w)) customCpuCores cpu ->
  let out := QemuStore.startVM customRamMB customCpuCores env w in
  match QemuStore.serviceInitialize env with
  | Throw e =>
      fst out = Throw e
      /\ QemuStore.effects (snd out)
         = QemuStore.effects w ++ [QemuStore.ServiceInitialize]
      /\ QemuStore.vmStatus (QemuStore.store (snd out)) = QemuStore.ERROR
  | Ok _ =>
      (exists rest,
         QemuStore.effects (snd out)
         = QemuStore.effects w
             ++ [QemuStore.ServiceInitialize]
             ++ QemuStore.ServiceStartVM ram cpu :: rest)
      /\ match QemuStore.serviceStartVM env ram cpu with
         | Ok _ =>
             fst out = Ok tt
             /\ QemuStore.vmStatus (QemuStore.store (snd out)) = QemuStore.RUNNING
         | Throw e =>
             fst out = Throw e
             /\ QemuStore.vmStatus (QemuStore.store (snd out)) = QemuStore.ERROR
             /\ QemuStore.error (QemuStore.store (snd out)) = Some (message e)
         end
  end.
Proof.
  intros H Hram Hcpu.
  destruct w as [[vs logs stats ini paths err ram0 cpu0 si] eff clk tm].
  cbn [QemuStore.store QemuStore.isInitialized QemuStore.ramMB QemuStore.cpuCores]
    in H, Hram, Hcpu.
  subst ini. store_eval.
  rewrite (asked_orElse _ _ _ Hram), (asked_orElse _ _ _ Hcpu).
  destruct (QemuStore.serviceInitialize env) as [p | e]; store_eval;
    [| repeat split].
  destruct (QemuStore.serviceStartVM env ram cpu) as [[] | e].
  - destruct si; store_eval; (split; [| auto]);
      rewrite <- !app_assoc; eexists; reflexivity.
  - store_eval. split; [| auto]. rewrite <- !app_assoc. eexists; reflexivity.
Qed.

(** C2, amended. The store does not look at the phase when asked to
    start: in a busy phase [startVM] does and returns exactly what it does
    in any other phase. When the store is initialized, or is not and the
    initialization it then runs once more succeeds, it forwards the
    request to the service, and resolves with the phase running when the
    service resolves, rejects with the service's error and the phase error
    when it rejects. When the store is not initialized and that
    initialization is rejected, it rejects with the error of the
    initialization, in phase error, and forwards nothing. It is the
    service that spawns no second child: a start that arrives while a
    child is running changes nothing, spawns nothing and reports nothing
    but a logged warning; the native start likewise returns 0 without
    forking. *)
Theorem start_while_busy
    (customRamMB customCpuCores : option Z) (ram cpu : Z)
    (v : QemuStore.VmStatus)
    (env : QemuStore.Env) (w : QemuStore.World)
    (senv : QemuService.Env) (s : QemuService.State) (ramMB cpuCores : Z)
    (forked now : Z) (state : QemuJni.QemuState) :
  asked (QemuStore.ramMB (QemuStore.store w)) customRamMB ram ->
  asked (QemuStore.cpuCores (QemuStore.store w)) customCpuCores cpu ->
  QemuService.isRunning s = true ->
  QemuJni.running state <> 0 ->
  let out := QemuStore.startVM customRamMB customCpuCores env (inPhase v w) in
  out = QemuStore.startVM customRamMB customCpuCores env w
  /\ match QemuStore.isInitialized (QemuStore.store w),
           QemuStore.serviceInitialize env with
     | false, Throw e =>
         fst out = Throw e
         /\ QemuStore.effects (snd out)
            = QemuStore.effects w ++ [QemuStore.ServiceInitialize]
         /\ QemuStore.vmStatus (QemuStore.store (snd out)) = QemuStore.ERROR
     | initialized, _ =>
         (exists rest,
            QemuStore.effects (snd out)
            = QemuStore.effects w
                ++ (if initialized then [] else [QemuStore.ServiceInitialize])
                ++ QemuStore.ServiceStartVM ram cpu :: rest)
         /\ match QemuStore.serviceStartVM env ram cpu with
            | Ok _ =>
                fst out = Ok tt
                /\ QemuStore.vmStatus (QemuStore.store (snd out)) = QemuStore.RUNNING
            | Throw e =>
                fst out = Throw e
                /\ QemuStore.vmStatus (QemuStore.store (snd out)) = QemuStore.ERROR
                /\ QemuStore.error (QemuStore.store (snd out)) = Some (message e)
            end
     end
  /\ QemuService.startQemu senv ramMB cpuCores s
     = (s, [QemuService.LogW (str "QEMU is already running")])
  /\ QemuJni.nativeStart forked now (Some state) = (0, Some state, []).
Proof.
  intros Hram Hcpu Hrun Hnative out.
  split; [apply startVM_any_phase |].
  split.
  { subst out. rewrite startVM_any_phase.
    destruct (QemuStore.isInitialized (QemuStore.store w)) eqn:Hinit.
    - destruct (startVM_initialized customRamMB customCpuCores env w Hinit)
        as [Heff Hres].
      rewrite (asked_orElse _ _ _ Hram), (asked_orElse _ _ _ Hcpu) in Heff, Hres.
      assert (H : (exists rest,
                     QemuStore.effects
                       (snd (QemuStore.startVM customRamMB customCpuCores env w))
                     = QemuStore.effects w
                         ++ [] ++ QemuStore.ServiceStartVM ram cpu :: rest)
                  /\ match QemuStore.serviceStartVM env ram cpu with
                     | Ok _ =>
                         fst (QemuStore.startVM customRamMB customCpuCores env w)
                         = Ok tt
                         /\ QemuStore.vmStatus
                              (QemuStore.store
                                 (snd (QemuStore.startVM customRamMB
                                         customCpuCores env w)))
                            = QemuStore.RUNNING
                     | Throw e =>
                         fst (QemuStore.startVM customRamMB customCpuCores env w)
                         = Throw e
                         /\ QemuStore.vmStatus
                              (QemuStore.store
                                 (snd (QemuStore.startVM customRamMB
                                         customCpuCores env w)))
                            = QemuStore.ERROR
                         /\ QemuStore.error
                              (QemuStore.store
                                 (snd (QemuStore.startVM customRamMB
                                         customCpuCores env w)))
                            = Some (message e)
                     end).
      { split; [exact Heff |].
        destruct (QemuStore.serviceStartVM env ram cpu); tauto. }
      destruct (QemuStore.serviceInitialize env); exact H.
    - pose proof (startVM_uninitialized customRamMB customCpuCores ram cpu env w
                    Hinit Hram Hcpu) as H.
      destruct (QemuStore.serviceInitialize env); exact H. }
  split.
  - unfold QemuService.startQemu. rewrite Hrun. reflexivity.
  - unfold QemuJni.nativeStart.
    replace (QemuJni.running state =? 0) with false
      by (symmetry; apply Z.eqb_neq; exact Hnative).
    reflexivity.
Qed.

Lemma start_while_busy_witness :
  QemuStore.isVmBusy (QemuStore.store startingWorld) = true
  /\ fst (QemuStore.startVM None None okEnv startingWorld) = Ok tt
  /\ QemuStore.isVmBusy (QemuStore.store initializingWorld) = true
  /\ fst (QemuStore.startVM None None initFailsEnv initializingWorld)
     = Throw {| message := str "Failed to initialize QEMU: no space" |}
  /\ QemuStore.effects
       (snd (QemuStore.startVM None None initFailsEnv initializingWorld))
     = [QemuStore.ServiceInitialize; QemuStore.ServiceInitialize]
  /\ QemuService.startQemu quietEnv 2048 2
       (serviceRunning {| QemuService.childPid := 4242;
                          QemuService.termDelay := Some 0%nat |})
     = (serviceRunning {| QemuService.childPid := 4242;
                          QemuService.termDelay := Some 0%nat |},
        [QemuService.LogW (str "QEMU is already running")]).
Proof.
  split; [reflexivity |].
  assert (Hnative : 1 <> 0) by lia.
  pose proof (start_while_busy None None 2048 2 QemuStore.STARTING okEnv
                startingWorld quietEnv
                (serviceRunning {| QemuService.childPid := 4242;
                                   QemuService.termDelay := Some 0%nat |})
                2048 2 4243 7
                {| QemuJni.pid := 4242; QemuJni.running := 1;
                   QemuJni.data_dir := str "/data/files/qemu";
                   QemuJni.ram_mb := 0; QemuJni.cpu_cores := 0;
                   QemuJni.start_time := 1 |}
                (asked_missing _) (asked_missing _) eq_refl Hnative) as H.
  destruct H as (_ & H2 & H3 & _). destruct H2 as (_ & H2 & _).
  split; [exact H2 |]. split; [reflexivity |].
  pose proof (start_while_busy None None 2048 2 QemuStore.INITIALIZING
                initFailsEnv initializingWorld quietEnv
                (serviceRunning {| QemuService.childPid := 4242;
                                   QemuService.termDelay := Some 0%nat |})
                2048 2 4243 7
                {| QemuJni.pid := 4242; QemuJni.running := 1;
                   QemuJni.data_dir := str "/data/files/qemu";
                   QemuJni.ram_mb := 0; QemuJni.cpu_cores := 0;
                   QemuJni.start_time := 1 |}
                (asked_missing _) (asked_missing _) eq_refl Hnative) as K.
  destruct K as (_ & K2 & _). destruct K2 as (K1 & K2 & _).
  split; [exact K1 |]. split; [exact K2 | exact H3].
Defined.

(** ** Stopping when stopped *)

(** C8, as stated, fails: on the initial store, whose phase is stopped,
    [stopVM] changes the world. *)
Lemma stopVM_at_stopped_counterexample :
  QemuStore.vmStatus (QemuStore.store QemuStore.initialWorld) = QemuStore.STOPPED
  /\ ~ stop_is_noop okEnv QemuStore.initialWorld.
Proof.
  split; [reflexivity |]. intros [_ H].
  apply (f_equal QemuStore.effects) in H. vm_compute in H. discriminate.
Qed.

(** C8, amended. Stopping what is not running is a no-op below the store:
    [stopQemu] of the service and [nativeStop] return at once, with no
    signal sent and no state changed. In the store, [stopVM] at phase
    stopped resolves (when the service does) and ends in phase stopped
    with the configuration untouched, but it is not without effect: it
    asks the service to stop, logs two entries, clears the error and the
    poll timer and removes the listeners. *)
Theorem stop_at_stopped
    (env : QemuStore.Env) (w : QemuStore.World)
    (fuel : nat) (senv : QemuService.Env) (s : QemuService.State)
    (poll : nat -> Z) (state : QemuJni.QemuState) :
  QemuStore.vmStatus (QemuStore.store w) = QemuStore.STOPPED ->
  QemuStore.serviceStopVM env = Ok tt ->
  QemuService.isRunning s = false ->
  QemuJni.running state = 0 ->
  let w' := snd (QemuStore.stopVM env w) in
  QemuService.stopQemu fuel senv s = Some (s, [])
  /\ QemuJni.nativeStop fuel poll (Some state) = Some (0, Some state, [])
  /\ fst (QemuStore.stopVM env w) = Ok tt
  /\ QemuStore.vmStatus (QemuStore.store w') = QemuStore.STOPPED
  /\ QemuStore.isInitialized (QemuStore.store w')
     = QemuStore.isInitialized (QemuStore.store w)
  /\ QemuStore.ramMB (QemuStore.store w') = QemuStore.ramMB (QemuStore.store w)
  /\ QemuStore.cpuCores (QemuStore.store w') = QemuStore.cpuCores (QemuStore.store w)
  /\ QemuStore.vmStats (QemuStore.store w') = QemuStore.vmStats (QemuStore.store w)
  /\ QemuStore.error (QemuStore.store w') = None
  /\ QemuStore.statusInterval (QemuStore.store w') = None
  /\ QemuStore.vmLogs (QemuStore.store w')
     = lastn 200 (QemuStore.vmLogs (QemuStore.store w) ++ stopEntries env w)
  /\ QemuStore.effects w'
     = QemuStore.effects w ++ [QemuStore.ServiceStopVM]
         ++ match QemuStore.statusInterval (QemuStore.store w) with
            | Some id => [QemuStore.ClearInterval id]
            | None => []
            end
         ++ [QemuStore.ServiceRemoveAllListeners].
Proof.
  intros _ Hsvc Hrun Hnative w'.
  split; [unfold QemuService.stopQemu; rewrite Hrun; reflexivity |].
  split; [unfold QemuJni.nativeStop; rewrite Hnative; reflexivity |].
  subst w'.
  destruct w as [[vs logs stats ini paths err ram0 cpu0 si] eff clk tm].
  unfold stopEntries. store_eval. rewrite Hsvc.
  assert (Hlogs : forall (a : list QemuStore.LogEntry) x y,
            QemuStore.slice (-200) (QemuStore.slice (-200) (a ++ [x]) ++ [y])
            = lastn 200 (a ++ [x; y])).
  { intros a x y. rewrite !slice_last_200, lastn_app_lastn, <- app_assoc.
    reflexivity. }
  destruct si; store_eval; rewrite Hlogs, <- ?app_assoc; repeat split.
Qed.

Lemma stop_at_stopped_witness :
  QemuStore.vmStatus (QemuStore.store readyWorld) = QemuStore.STOPPED
  /\ QemuService.stopQemu 0 quietEnv QemuService.initial
     = Some (QemuService.initial, [])
  /\ fst (QemuStore.stopVM okEnv readyWorld) = Ok tt
  /\ QemuStore.vmStatus (QemuStore.store (snd (QemuStore.stopVM okEnv readyWorld)))
     = QemuStore.STOPPED.
Proof.
  split; [reflexivity |].
  pose proof (stop_at_stopped okEnv readyWorld 0 quietEnv QemuService.initial
                (fun _ => 0)
                {| QemuJni.pid := -1; QemuJni.running := 0;
                   QemuJni.data_dir := str "/data/files/qemu";
                   QemuJni.ram_mb := 0; QemuJni.cpu_cores := 0;
                   QemuJni.start_time := 0 |}
                eq_refl eq_refl eq_refl eq_refl) as H.
  destruct H as (H1 & _ & H3 & H4 & _).
  split; [exact H1 |]. split; [exact H3 | exact H4].
Defined.

(** ** Values an operation keeps *)

Lemma keeps_get {B} (f : QemuStore.Store -> B) b : preserves (keeps f b) QemuStore.get.
Proof. intros env w H. exact H. Qed.

Lemma keeps_perform {B} (f : QemuStore.Store -> B) b e :
  preserves (keeps f b) (QemuStore.perform e).
Proof. intros env w H. exact H. Qed.

Lemma keeps_await {A B} (f : QemuStore.Store -> B) b e
    (answer : QemuStore.Env -> Result JsError A) :
  preserves (keeps f b) (QemuStore.await e answer).
Proof. intros env w H. exact H. Qed.

Lemma keeps_now {B} (f : QemuStore.Store -> B) b : preserves (keeps f b) QemuStore.now.
Proof. intros env w H. exact H. Qed.

Lemma keeps_setInterval {B} (f : QemuStore.Store -> B) b ms :
  preserves (keeps f b) (QemuStore.setInterval ms).
Proof. intros env w H. exact H. Qed.

Lemma keeps_set {B} (f : QemuStore.Store -> B) b (update : QemuStore.Store -> QemuStore.Store) :
  (forall s, f (update s) = f s) -> preserves (keeps f b) (QemuStore.set update).
Proof. intros Hu env w H. unfold keeps in *. simpl. rewrite Hu. exact H. Qed.

Create HintDb store_keeps.

#[local] Hint Resolve preserves_ret preserves_throw keeps_get keeps_perform
  keeps_await keeps_now keeps_setInterval : store_keeps.

(** Unfolds the operations of the store down to [get], [set], [perform],
    [await], [now] and [setInterval]. *)
Ltac store_unfold :=
  unfold QemuStore.run, QemuStore.void, QemuStore.restartVM, QemuStore.startVM,
    QemuStore.stopVM, QemuStore.initialize, QemuStore.sendCommand,
    QemuStore.pollTick, QemuStore.getStatus, QemuStore.startStatusPolling,
    QemuStore.stopStatusPolling, QemuStore.setupEventListeners,
    QemuStore.onVmStatus, QemuStore.onVmLog, QemuStore.onVmError,
    QemuStore.setRamMB, QemuStore.setCpuCores, QemuStore.loadSettings,
    QemuStore.clearError, QemuStore.clearLogs, QemuStore.addLog.

Ltac preserve_keeps :=
  repeat lazymatch goal with
    | |- preserves _ (mbind _ _) => apply preserves_bind; [| intros ?]
    | |- preserves _ (QemuStore.tryCatch _ _) =>
        apply preserves_tryCatch; [| intros ?]
    | |- preserves _ (QemuStore.set _) => apply keeps_set; intros ?; reflexivity
    | |- preserves _ (if ?b then _ else _) => destruct b
    | |- preserves _ (match ?x with _ => _ end) => destruct x
    | |- preserves _ _ => solve [auto with store_keeps]
    end.

Lemma run_keeps_phase (op : QemuStore.Op) (v : QemuStore.VmStatus) :
  lifecycleOp op = false -> preserves (keeps QemuStore.vmStatus v) (QemuStore.run op).
Proof.
  destruct op; cbn [lifecycleOp]; intros Hop; try discriminate;
    store_unfold; try rewrite Hop; preserve_keeps.
Qed.

(** ** The liveness check *)






(* ================================================================= *)
(** * Further properties of the store *)

(** ** What an operation leaves alone *)

(** X1. The lifecycle phase is changed by nothing but [initialize],
    [startVM], [stopVM], [restartVM] and a status event saying stopped:
    every other operation of the store, resolved or rejected, leaves the
    phase as it was. *)
Theorem phase_changed_only_by_lifecycle
    (op : QemuStore.Op) (env : QemuStore.Env) (w : QemuStore.World) :
  lifecycleOp op = false ->
  QemuStore.vmStatus (QemuStore.store (snd (QemuStore.run op env w)))
  = QemuStore.vmStatus (QemuStore.store w).
Proof.
  intros Hop.
  apply (run_keeps_phase op (QemuStore.vmStatus (QemuStore.store w)) Hop env w).
  reflexivity.
Qed.

Lemma phase_changed_only_by_lifecycle_witness :
  lifecycleOp (QemuStore.OpVmStatusEvent (str "running")) = false
  /\ QemuStore.vmStatus
       (QemuStore.store
          (snd (QemuStore.run (QemuStore.OpVmStatusEvent (str "running"))
                  okEnv startingWorld)))
     = QemuStore.STARTING.
Proof.
  split; [reflexivity |].
  apply (phase_changed_only_by_lifecycle
           (QemuStore.OpVmStatusEvent (str "running")) okEnv startingWorld).
  reflexivity.
Defined.

(** ** The stored configuration *)

Lemma keeps_config_bounds {A} (m : QemuStore.M A) :
  (forall b, preserves
               (keeps (fun s => (QemuStore.ramMB s, QemuStore.cpuCores s)) b) m) ->
  preserves configInBounds m.
Proof.
  intros Hm env w H.
  specialize (Hm _ env w eq_refl). unfold keeps in Hm.
  injection Hm as Hr Hc. unfold configInBounds in *. rewrite Hr, Hc. exact H.
Qed.

Lemma setRamMB_configInBounds ram : preserves configInBounds (QemuStore.setRamMB ram).
Proof.
  intros env [[vs logs stats ini paths err ram0 cpu0 si] eff clk tm] H.
  unfold QemuStore.setRamMB.
  destruct ((QemuStore.MIN_RAM_MB <=? ram) && (ram <=? QemuStore.MAX_RAM_MB)) eqn:E;
    [| exact H].
  apply andb_true_iff in E. destruct E as [E1 E2].
  apply Z.leb_le in E1, E2.
  store_eval. destruct (QemuStore.storageSetVmRam env ram); [| exact H].
  unfold configInBounds in *. simpl in *. lia.
Qed.

Lemma setCpuCores_configInBounds cores :
  preserves configInBounds (QemuStore.setCpuCores cores).
Proof.
  intros env [[vs logs stats ini paths err ram0 cpu0 si] eff clk tm] H.
  unfold QemuStore.setCpuCores.
  destruct ((QemuStore.MIN_CPU_CORES <=? cores) && (cores <=? QemuStore.MAX_CPU_CORES))
    eqn:E; [| exact H].
  apply andb_true_iff in E. destruct E as [E1 E2].
  apply Z.leb_le in E1, E2.
  store_eval. destruct (QemuStore.storageSetVmCpu env cores); [| exact H].
  unfold configInBounds in *. simpl in *. lia.
Qed.

Lemma run_configInBounds (op : QemuStore.Op) :
  isLoadSettings op = false -> preserves configInBounds (QemuStore.run op).
Proof.
  destruct op; cbn [isLoadSettings]; intros Hop; try discriminate;
    try solve [apply keeps_config_bounds; intros b; store_unfold; preserve_keeps].
  - apply setRamMB_configInBounds.
  - apply setCpuCores_configInBounds.
Qed.

(** X2. Unless settings are loaded from storage, the configuration held
    by the store stays within its bounds, RAM in [512, 8192] and cores in
    [1, 8], whatever operations are run on it and however they end. *)
Theorem config_stays_in_bounds (ops : list (QemuStore.Op * QemuStore.Env)) :
  forallb (fun oe => negb (isLoadSettings (fst oe))) ops = true ->
  let s := QemuStore.store (QemuStore.runAll ops QemuStore.initialWorld) in
  512 <= QemuStore.ramMB s <= 8192 /\ 1 <= QemuStore.cpuCores s <= 8.
Proof.
  intros Hops s. subst s.
  assert (H0 : configInBounds QemuStore.initialWorld)
    by (unfold configInBounds; simpl; unfold QemuStore.MIN_RAM_MB,
          QemuStore.MAX_RAM_MB, QemuStore.MIN_CPU_CORES, QemuStore.MAX_CPU_CORES,
          QemuStore.DEFAULT_RAM_MB, QemuStore.DEFAULT_CPU_CORES; lia).
  revert H0. generalize QemuStore.initialWorld as w.
  induction ops as [| [op env] ops IH]; intros w Hw; simpl in *.
  - exact Hw.
  - apply andb_true_iff in Hops. destruct Hops as [Hop Hrest].
    apply IH; [exact Hrest |].
    apply run_configInBounds; [| exact Hw].
    destruct (isLoadSettings op); [discriminate | reflexivity].
Qed.

Lemma config_stays_in_bounds_witness :
  let ops := [ (QemuStore.OpSetRamMB 100, okEnv);
               (QemuStore.OpSetCpuCores 4, okEnv);
               (QemuStore.OpStartVM (Some 100) None, okEnv);
               (QemuStore.OpSetRamMB 9000, okEnv) ] in
  forallb (fun oe => negb (isLoadSettings (fst oe))) ops = true
  /\ 512 <= QemuStore.ramMB
              (QemuStore.store (QemuStore.runAll ops QemuStore.initialWorld)) <= 8192
  /\ 1 <= QemuStore.cpuCores
            (QemuStore.store (QemuStore.runAll ops QemuStore.initialWorld)) <= 8.
Proof.
  intros ops. split; [reflexivity |].
  apply (config_stays_in_bounds ops). reflexivity.
Defined.

(** ** The poll timer *)

Lemma liveTimers_snoc effects e :
  liveTimers (effects ++ [e]) = timerStep (liveTimers effects) e.
Proof. unfold liveTimers. rewrite fold_left_app. reflexivity. Qed.

Lemma tracked_get : preserves timersTracked QemuStore.get.
Proof. intros env w H. exact H. Qed.

Lemma tracked_now : preserves timersTracked QemuStore.now.
Proof. intros env w H. exact H. Qed.

Lemma tracked_perform e :
  isTimerEffect e = false -> preserves timersTracked (QemuStore.perform e).
Proof.
  intros He env w H. unfold timersTracked in *. simpl.
  rewrite liveTimers_snoc, H. destruct e; try discriminate; reflexivity.
Qed.

Lemma tracked_await {A} e (answer : QemuStore.Env -> Result JsError A) :
  isTimerEffect e = false -> preserves timersTracked (QemuStore.await e answer).
Proof.
  intros He env w H. unfold timersTracked in *. simpl.
  rewrite liveTimers_snoc, H. destruct e; try discriminate; reflexivity.
Qed.

Lemma tracked_set (update : QemuStore.Store -> QemuStore.Store) :
  (forall s, QemuStore.statusInterval (update s) = QemuStore.statusInterval s) ->
  preserves timersTracked (QemuStore.set update).
Proof.
  intros Hu env w H. unfold timersTracked in *. simpl. rewrite Hu. exact H.
Qed.

Lemma tracked_startStatusPolling :
  preserves timersTracked QemuStore.startStatusPolling.
Proof.
  intros env [[vs logs stats ini paths err ram0 cpu0 si] eff clk tm] H.
  unfold timersTracked in *. simpl in H.
  destruct si as [id |]; store_eval; rewrite !liveTimers_snoc, H; simpl.
  - rewrite Nat.eqb_refl. reflexivity.
  - reflexivity.
Qed.

Lemma tracked_stopStatusPolling :
  preserves timersTracked QemuStore.stopStatusPolling.
Proof.
  intros env [[vs logs stats ini paths err ram0 cpu0 si] eff clk tm] H.
  unfold timersTracked in *. simpl in H.
  destruct si as [id |]; store_eval; [| exact H].
  rewrite liveTimers_snoc, H. simpl. rewrite Nat.eqb_refl. reflexivity.
Qed.

Create HintDb store_timers.

#[local] Hint Resolve preserves_ret preserves_throw tracked_get tracked_now
  tracked_startStatusPolling tracked_stopStatusPolling : store_timers.

Ltac preserve_timers :=
  repeat lazymatch goal with
    | |- preserves _ (mbind _ _) => apply preserves_bind; [| intros ?]
    | |- preserves _ (QemuStore.tryCatch _ _) =>
        apply preserves_tryCatch; [| intros ?]
    | |- preserves _ (QemuStore.set _) => apply tracked_set; intros ?; reflexivity
    | |- preserves _ (QemuStore.perform _) => apply tracked_perform; reflexivity
    | |- preserves _ (QemuStore.await _ _) => apply tracked_await; reflexivity
    | |- preserves _ (if ?b then _ else _) => destruct b
    | |- preserves _ (match ?x with _ => _ end) => destruct x
    | |- preserves _ _ => solve [auto with store_timers]
    end.

Lemma run_timersTracked (op : QemuStore.Op) :
  preserves timersTracked (QemuStore.run op).
Proof.
  destruct op;
    unfold QemuStore.run, QemuStore.void, QemuStore.restartVM, QemuStore.startVM,
      QemuStore.stopVM, QemuStore.initialize, QemuStore.sendCommand,
      QemuStore.pollTick, QemuStore.getStatus, QemuStore.setupEventListeners,
      QemuStore.onVmStatus, QemuStore.onVmLog, QemuStore.onVmError,
      QemuStore.setRamMB, QemuStore.setCpuCores, QemuStore.loadSettings,
      QemuStore.clearError, QemuStore.clearLogs, QemuStore.addLog;
    preserve_timers.
Qed.

(** X3. The store never leaks a poll timer: after any run of operations
    from the initial state, the timers set and not yet cleared are exactly
    the one recorded in [statusInterval], so at most one is live. *)
Theorem poll_timer_never_leaks (ops : list (QemuStore.Op * QemuStore.Env)) :
  let w := QemuStore.runAll ops QemuStore.initialWorld in
  liveTimers (QemuStore.effects w)
  = match QemuStore.statusInterval (QemuStore.store w) with
    | Some id => [id]
    | None => []
    end
  /\ (length (liveTimers (QemuStore.effects w)) <= 1)%nat.
Proof.
  intros w.
  assert (H : timersTracked w).
  { subst w. assert (H0 : timersTracked QemuStore.initialWorld) by reflexivity.
    revert H0. generalize QemuStore.initialWorld as w0.
    induction ops as [| [op env] ops IH]; intros w0 Hw; simpl.
    - exact Hw.
    - apply IH, run_timersTracked, Hw. }
  split; [exact H |]. rewrite H.
  destruct (QemuStore.statusInterval (QemuStore.store w)); simpl; lia.
Qed.

(** ** How the lifecycle actions end *)

(** X4. A start attempt always ends out of the busy phases: [startVM]
    resolves exactly when it leaves the phase running (with the error
    cleared), and otherwise rejects leaving the phase error with the
    message of the failure recorded, whether it was the initialization or
    the start that failed. *)
Theorem startVM_ends_running_or_error
    (customRamMB customCpuCores : option Z)
    (env : QemuStore.Env) (w : QemuStore.World) :
  let out := QemuStore.startVM customRamMB customCpuCores env w in
  QemuStore.isVmBusy (QemuStore.store (snd out)) = false
  /\ match fst out with
     | Ok _ =>
         QemuStore.vmStatus (QemuStore.store (snd out)) = QemuStore.RUNNING
         /\ QemuStore.error (QemuStore.store (snd out)) = None
         /\ QemuStore.isInitialized (QemuStore.store (snd out)) = true
     | Throw e =>
         QemuStore.vmStatus (QemuStore.store (snd out)) = QemuStore.ERROR
         /\ QemuStore.error (QemuStore.store (snd out)) = Some (message e)
     end.
Proof.
  destruct w as [[vs logs stats ini paths err ram0 cpu0 si] eff clk tm].
  unfold QemuStore.isVmBusy. destruct ini; store_eval.
  - destruct (QemuStore.serviceStartVM env _ _) as [[] | e];
      [destruct si |]; store_eval; repeat split.
  - destruct (QemuStore.serviceInitialize env) as [p | e]; store_eval;
      [| repeat split].
    destruct (QemuStore.serviceStartVM env _ _) as [[] | e];
      [destruct si |]; store_eval; repeat split.
Qed.

(** X5. A stop that the service rejects leaves the store in the busy
    phase stopping: [stopVM] rejects with the same error, records its
    message, and neither clears the poll timer nor removes the listeners;
    the only call made is the stop itself. *)
Theorem stopVM_rejected_stays_stopping
    (env : QemuStore.Env) (w : QemuStore.World) (e : JsError) :
  QemuStore.serviceStopVM env = Throw e ->
  let out := QemuStore.stopVM env w in
  fst out = Throw e
  /\ QemuStore.vmStatus (QemuStore.store (snd out)) = QemuStore.STOPPING
  /\ QemuStore.isVmBusy (QemuStore.store (snd out)) = true
  /\ QemuStore.error (QemuStore.store (snd out)) = Some (message e)
  /\ QemuStore.statusInterval (QemuStore.store (snd out))
     = QemuStore.statusInterval (QemuStore.store w)
  /\ QemuStore.effects (snd out) = QemuStore.effects w ++ [QemuStore.ServiceStopVM].
Proof.
  intros Hsvc.
  destruct w as [[vs logs stats ini paths err ram0 cpu0 si] eff clk tm].
  unfold QemuStore.isVmBusy. store_eval. rewrite Hsvc. store_eval.
  repeat split.
Qed.

Lemma stopVM_rejected_stays_stopping_witness :
  QemuStore.serviceStopVM stopFailsEnv
  = Throw {| message := str "Failed to stop VM: denied" |}
  /\ QemuStore.vmStatus (QemuStore.store (snd (QemuStore.stopVM stopFailsEnv runningWorld)))
     = QemuStore.STOPPING
  /\ QemuStore.statusInterval
       (QemuStore.store (snd (QemuStore.stopVM stopFailsEnv runningWorld)))
     = QemuStore.statusInterval (QemuStore.store runningWorld).
Proof.
  split; [reflexivity |].
  pose proof (stopVM_rejected_stays_stopping stopFailsEnv runningWorld _ eq_refl) as H.
  destruct H as (_ & H2 & _ & _ & H5 & _).
  split; [exact H2 | exact H5].
Defined.

(** X6. When the store is not initialized and the initialization is
    rejected, [startVM] rejects with that error without ever asking the
    service to start: the initialization is the only call made, and the
    store stays uninitialized in phase error. *)
Theorem startVM_stops_at_failed_initialization
    (customRamMB customCpuCores : option Z)
    (env : QemuStore.Env) (w : QemuStore.World) (e : JsError) :
  QemuStore.isInitialized (QemuStore.store w) = false ->
  QemuStore.serviceInitialize env = Throw e ->
  let out := QemuStore.startVM customRamMB customCpuCores env w in
  fst out = Throw e
  /\ QemuStore.effects (snd out) = QemuStore.effects w ++ [QemuStore.ServiceInitialize]
  /\ QemuStore.vmStatus (QemuStore.store (snd out)) = QemuStore.ERROR
  /\ QemuStore.isInitialized (QemuStore.store (snd out)) = false.
Proof.
  intros Hini Hsvc.
  destruct w as [[vs logs stats ini paths err ram0 cpu0 si] eff clk tm].
  simpl in Hini. subst ini. store_eval. rewrite Hsvc. store_eval.
  repeat split.
Qed.

Lemma startVM_stops_at_failed_initialization_witness :
  QemuStore.isInitialized (QemuStore.store QemuStore.initialWorld) = false
  /\ QemuStore.effects (snd (QemuStore.startVM (Some 1024) None initFailsEnv
                               QemuStore.initialWorld))
     = [QemuStore.ServiceInitialize].
Proof.
  split; [reflexivity |].
  pose proof (startVM_stops_at_failed_initialization (Some 1024) None
                initFailsEnv QemuStore.initialWorld _ eq_refl eq_refl) as H.
  destruct H as (_ & H2 & _). exact H2.
Defined.

(** X7. [restartVM] is a stop, a pause of 2000 ms and a start with the
    stored configuration, in that order. When the stop is rejected the
    start is never attempted: the restart rejects with the stop's error
    and the phase is left stopping. When the stop resolves, the restart
    ends as the start does: running when the service resolves, error when
    it rejects. *)
Theorem restartVM_is_stop_then_start
    (env : QemuStore.Env) (w : QemuStore.World) :
  QemuStore.isInitialized (QemuStore.store w) = true ->
  let ram := QemuStore.ramMB (QemuStore.store w) in
  let cpu := QemuStore.cpuCores (QemuStore.store w) in
  let out := QemuStore.restartVM env w in
  match QemuStore.serviceStopVM env with
  | Throw e =>
      fst out = Throw e
      /\ QemuStore.vmStatus (QemuStore.store (snd out)) = QemuStore.STOPPING
      /\ QemuStore.effects (snd out) = QemuStore.effects w ++ [QemuStore.ServiceStopVM]
  | Ok _ =>
      (exists cleared rest,
         QemuStore.effects (snd out)
         = QemuStore.effects w
             ++ QemuStore.ServiceStopVM :: cleared
             ++ [QemuStore.ServiceRemoveAllListeners; QemuStore.SetTimeout 2000;
                 QemuStore.ServiceStartVM ram cpu] ++ rest)
      /\ match QemuStore.serviceStartVM env ram cpu with
         | Ok _ =>
             fst out = Ok tt
             /\ QemuStore.vmStatus (QemuStore.store (snd out)) = QemuStore.RUNNING
         | Throw e =>
             fst out = Throw e
             /\ QemuStore.vmStatus (QemuStore.store (snd out)) = QemuStore.ERROR
         end
  end.
Proof.
  intros Hini.
  destruct w as [[vs logs stats ini paths err ram0 cpu0 si] eff clk tm].
  simpl in Hini. subst ini. cbv zeta. unfold QemuStore.orElse. store_eval.
  unfold QemuStore.orElse.
  destruct (QemuStore.serviceStopVM env) as [[] | e]; store_eval;
    [| repeat split].
  destruct si as [id |]; store_eval;
    destruct (QemuStore.serviceStartVM env ram0 cpu0) as [[] | e]; store_eval.
  - split; [| split; reflexivity].
    exists [QemuStore.ClearInterval id]. eexists.
    rewrite <- !app_assoc. reflexivity.
  - split; [| split; reflexivity].
    exists [QemuStore.ClearInterval id]. eexists.
    rewrite <- !app_assoc. reflexivity.
  - split; [| split; reflexivity].
    exists []. eexists. rewrite <- !app_assoc. reflexivity.
  - split; [| split; reflexivity].
    exists []. eexists. rewrite <- !app_assoc. reflexivity.
Qed.

Lemma restartVM_is_stop_then_start_witness :
  QemuStore.isInitialized (QemuStore.store runningWorld) = true
  /\ fst (QemuStore.restartVM okEnv runningWorld) = Ok tt
  /\ fst (QemuStore.restartVM stopFailsEnv runningWorld)
     = Throw {| message := str "Failed to stop VM: denied" |}.
Proof.
  split; [reflexivity |].
  pose proof (restartVM_is_stop_then_start okEnv runningWorld eq_refl) as H1.
  pose proof (restartVM_is_stop_then_start stopFailsEnv runningWorld eq_refl) as H2.
  destruct H1 as (_ & H1 & _). destruct H2 as (H2 & _).
  split; [exact H1 | exact H2].
Defined.

(** ** The event listeners *)

Lemma liveListeners_app effects more :
  liveListeners (effects ++ more)
  = fold_left listenerStep more (liveListeners effects).
Proof. unfold liveListeners. apply fold_left_app. Qed.

Lemma startVM_adds_listeners (env : QemuStore.Env) (w : QemuStore.World) :
  QemuStore.isInitialized (QemuStore.store w) = true ->
  (forall r c, QemuStore.serviceStartVM env r c = Ok tt) ->
  let w' := snd (QemuStore.startVM None None env w) in
  liveListeners (QemuStore.effects w') = (liveListeners (QemuStore.effects w) + 3)%nat
  /\ QemuStore.isInitialized (QemuStore.store w') = true.
Proof.
  intros Hini Hsvc.
  destruct w as [[vs logs stats ini paths err ram0 cpu0 si] eff clk tm].
  simpl in Hini. subst ini. store_eval. rewrite Hsvc.
  destruct si; store_eval; (split; [| reflexivity]);
    rewrite <- !app_assoc, liveListeners_app; simpl; lia.
Qed.

(** X8. Every successful [startVM] registers three more event listeners
    and removes none: [n] starts in a row, which the store accepts whatever
    its phase, leave [3 n] more listeners registered than before. Only a
    [stopVM] that the service resolves removes them, and then all of
    them; a rejected stop removes none. *)
Theorem listeners_accumulate_over_starts
    (n : nat) (env : QemuStore.Env) (w : QemuStore.World) :
  QemuStore.isInitialized (QemuStore.store w) = true ->
  (forall r c, QemuStore.serviceStartVM env r c = Ok tt) ->
  let w' := QemuStore.runAll (startsInARow n env) w in
  liveListeners (QemuStore.effects w')
  = (liveListeners (QemuStore.effects w) + 3 * n)%nat
  /\ liveListeners (QemuStore.effects (snd (QemuStore.stopVM env w')))
     = match QemuStore.serviceStopVM env with
       | Ok _ => 0%nat
       | Throw _ => liveListeners (QemuStore.effects w')
       end.
Proof.
  intros Hini Hsvc w'. split.
  - subst w'. revert w Hini. induction n as [| n IH]; intros w Hini.
    + simpl. lia.
    + unfold startsInARow in *. cbn [repeat QemuStore.runAll QemuStore.run].
      destruct (startVM_adds_listeners env w Hini Hsvc) as [Hl Hi].
      rewrite (IH _ Hi), Hl. lia.
  - generalize w' as w0. clear.
    intros [[vs logs stats ini paths err ram0 cpu0 si] eff clk tm].
    store_eval.
    destruct (QemuStore.serviceStopVM env) as [[] | e]; store_eval.
    + destruct si; store_eval; rewrite liveListeners_app; reflexivity.
    + rewrite liveListeners_app. reflexivity.
Qed.

Lemma listeners_accumulate_over_starts_witness :
  QemuStore.isInitialized (QemuStore.store readyWorld) = true
  /\ liveListeners
       (QemuStore.effects (QemuStore.runAll (startsInARow 2 okEnv) readyWorld))
     = (liveListeners (QemuStore.effects readyWorld) + 3 * 2)%nat.
Proof.
  split; [reflexivity |].
  pose proof (listeners_accumulate_over_starts 2 okEnv readyWorld eq_refl
                (fun _ _ => eq_refl)) as H.
  destruct H as (H & _). exact H.
Defined.

(** ** The status poll *)

(** [getStatus] never rejects. When the service answers, the answer
    is returned and only the statistics change, a missing or zero figure
    being stored as 0; when the service fails, nothing is returned (null)
    and the store is left as it was, the failure going to the console
    only. *)
Theorem getStatus_swallows_failures (env : QemuStore.Env) (w : QemuStore.World) :
  let out := QemuStore.getStatus env w in
  match QemuStore.serviceGetStatus env with
  | Ok st =>
      fst out = Ok (Some st)
      /\ QemuStore.store (snd out)
         = QemuStore.with_vmStats
             {| QemuStore.uptime := QemuStore.orElse (QemuStore.status_uptime st) 0;
                QemuStore.cpuUsage := QemuStore.orElse (QemuStore.status_cpuUsage st) 0;
                QemuStore.memoryUsage :=
                  QemuStore.orElse (QemuStore.status_memoryUsage st) 0 |}
             (QemuStore.store w)
      /\ QemuStore.effects (snd out)
         = QemuStore.effects w ++ [QemuStore.ServiceGetStatus]
  | Throw _ =>
      fst out = Ok None
      /\ QemuStore.store (snd out) = QemuStore.store w
      /\ QemuStore.effects (snd out)
         = QemuStore.effects w
             ++ [QemuStore.ServiceGetStatus;
                 QemuStore.ConsoleError (str "Failed to get status:")]
  end.
Proof.
  destruct w as [[vs logs stats ini paths err ram0 cpu0 si] eff clk tm].
  store_eval.
  destruct (QemuStore.serviceGetStatus env) as [st | e]; store_eval.
  - repeat split.
  - rewrite <- app_assoc. repeat split.
Qed.

(* ================================================================= *)
(** * Further properties of the service *)

(** ** Requests in sequence *)

Lemma startQemu_consistent env ramMB cpuCores s :
  serviceConsistent s ->
  let out := QemuService.startQemu env ramMB cpuCores s in
  serviceConsistent (fst out)
  /\ QemuService.logBuffer (fst out) = QemuService.logBuffer s
  /\ forall n,
       n = (if QemuService.isRunning s then 1 else 0)%nat ->
       liveChildren n (snd out)
       = (if QemuService.isRunning (fst out) then 1 else 0)%nat.
Proof.
  intros Hs. unfold QemuService.startQemu, serviceConsistent in *.
  destruct (QemuService.isRunning s) eqn:Hrun.
  - cbn [fst snd]. rewrite Hrun. repeat split; try apply Hs.
    intros n ->. reflexivity.
  - destruct (QemuService.start env _) as [child | e]; cbn [fst snd];
      cbn [QemuService.isRunning QemuService.qemuProcess QemuService.startTime
           QemuService.outputReaderThread QemuService.logBuffer].
    + repeat split; eauto. intros n ->. reflexivity.
    + repeat split; try apply Hs. intros n ->. reflexivity.
Qed.

Lemma stopQemu_consistent fuel env s s' actions :
  serviceConsistent s ->
  QemuService.stopQemu fuel env s = Some (s', actions) ->
  serviceConsistent s'
  /\ QemuService.logBuffer s' = QemuService.logBuffer s
  /\ forall n,
       n = (if QemuService.isRunning s then 1 else 0)%nat ->
       liveChildren n actions = (if QemuService.isRunning s' then 1 else 0)%nat.
Proof.
  intros Hs. unfold QemuService.stopQemu, serviceConsistent in *.
  destruct (QemuService.isRunning s) eqn:Hrun; cbn [negb].
  - destruct Hs as [[child Hc] Hthread]. rewrite Hc.
    destruct (QemuService.waitFor fuel _ _) as [[] |]; intros [= <- <-];
      cbn [QemuService.stopped QemuService.isRunning QemuService.qemuProcess
           QemuService.startTime QemuService.outputReaderThread
           QemuService.logBuffer];
      (repeat split; intros n ->; unfold QemuService.afterStop;
       rewrite Hthread; reflexivity).
  - intros [= <- <-]. rewrite Hrun. repeat split; try apply Hs.
    intros n ->. reflexivity.
Qed.

Lemma serve_consistent fuel requests :
  forall s s' actions,
    serviceConsistent s ->
    QemuService.serve fuel requests s = Some (s', actions) ->
    serviceConsistent s'
    /\ QemuService.logBuffer s' = QemuService.logBuffer s
    /\ liveChildren (if QemuService.isRunning s then 1 else 0)%nat actions
       = (if QemuService.isRunning s' then 1 else 0)%nat.
Proof.
  induction requests as [| [intent env] requests IH]; intros s s' actions Hs.
  - intros [= <- <-]. auto.
  - cbn [QemuService.serve].
    destruct (QemuService.onStartCommand fuel env intent s)
      as [[[mode s1] acts1] |] eqn:Hone; [| discriminate].
    destruct (QemuService.serve fuel requests s1) as [[s2 acts2] |] eqn:Hrest;
      [| discriminate].
    intros [= <- <-].
    assert (H1 : serviceConsistent s1
                 /\ QemuService.logBuffer s1 = QemuService.logBuffer s
                 /\ liveChildren (if QemuService.isRunning s then 1 else 0)%nat acts1
                    = (if QemuService.isRunning s1 then 1 else 0)%nat).
    { unfold QemuService.onStartCommand in Hone.
      destruct intent as [i |]; [| injection Hone as _ <- <-; auto].
      destruct (QemuService.actionIs QemuService.ACTION_START _).
      - pose proof (startQemu_consistent env
                      (default 2048 (QemuService.extraRamMB i))
                      (default 2 (QemuService.extraCpuCores i)) s Hs) as Hq.
        destruct (QemuService.startQemu env _ _ s) as [sq aq].
        injection Hone as _ <- <-. cbn [fst snd] in Hq.
        destruct Hq as (Ha & Hb & Hc). auto.
      - destruct (QemuService.actionIs QemuService.ACTION_STOP _).
        + destruct (QemuService.stopQemu fuel env s) as [[sq aq] |] eqn:Hstop;
            [| discriminate].
          injection Hone as _ <- <-.
          destruct (stopQemu_consistent fuel env s sq aq Hs Hstop) as (Ha & Hb & Hc).
          auto.
        + injection Hone as _ <- <-. auto. }
    destruct H1 as (Hc1 & Hl1 & Hn1).
    destruct (IH s1 s2 acts2 Hc1 Hrest) as (Hc2 & Hl2 & Hn2).
    split; [exact Hc2 |]. split; [congruence |].
    unfold liveChildren in *. rewrite fold_left_app, Hn1. exact Hn2.
Qed.

(** X9. However start and stop requests follow each other, the service
    never holds two children: after any sequence of intents that has been
    handled, the children spawned and not destroyed since number one when
    [isRunning] is set and none otherwise, the fields of the service agree
    with that flag, and the log buffer has not been touched. *)
Theorem service_never_holds_two_children
    (fuel : nat) (requests : list (option QemuService.Intent * QemuService.Env))
    (s : QemuService.State) (actions : list QemuService.Action) :
  QemuService.serve fuel requests QemuService.initial = Some (s, actions) ->
  liveChildren 0 actions = (if QemuService.isRunning s then 1 else 0)%nat
  /\ serviceConsistent s
  /\ QemuService.logBuffer s = [].
Proof.
  intros H.
  destruct (serve_consistent fuel requests QemuService.initial s actions) as (Hc & Hl & Hn);
    [unfold serviceConsistent; simpl; auto | exact H |].
  auto.
Qed.

Lemma service_never_holds_two_children_witness :
  let requests := [ (startIntent (Some 1024) None, quietEnv);
                    (startIntent None None, quietEnv);
                    (stopIntent, quietEnv);
                    (None, quietEnv);
                    (startIntent None (Some 4), quietEnv) ] in
  exists s actions,
    QemuService.serve 0 requests QemuService.initial = Some (s, actions)
    /\ liveChildren 0 actions = 1%nat
    /\ QemuService.isRunning s = true.
Proof.
  intros requests.
  destruct (QemuService.serve 0 requests QemuService.initial) as [[s actions] |] eqn:H;
    [| vm_compute in H; discriminate].
  exists s, actions. split; [reflexivity |].
  destruct (service_never_holds_two_children 0 requests s actions H) as (Hn & _ & _).
  assert (Hr : QemuService.isRunning s = true)
    by (vm_compute in H; injection H as <- _; reflexivity).
  rewrite Hr in Hn. split; [exact Hn | exact Hr].
Defined.

(** ** When a stop returns *)

Lemma waitFor_exits (delay fuel : nat) (interruptIn : option nat) :
  (delay <= fuel)%nat ->
  match interruptIn with Some k => (delay <= k)%nat | None => True end ->
  QemuService.waitFor fuel (Some delay) interruptIn = Some QemuService.Exited.
Proof.
  revert fuel interruptIn.
  induction delay as [| delay IH]; intros fuel interruptIn Hfuel Hint.
  - destruct fuel, interruptIn as [[] |]; reflexivity.
  - destruct fuel as [| fuel]; [lia |].
    destruct interruptIn as [[| k] |]; try lia; simpl; apply IH; simpl; lia.
Qed.

Lemma waitFor_interrupted (k fuel : nat) (exitIn : option nat) :
  (k <= fuel)%nat ->
  match exitIn with Some delay => (k < delay)%nat | None => True end ->
  QemuService.waitFor fuel exitIn (Some k) = Some QemuService.Interrupted.
Proof.
  revert fuel exitIn.
  induction k as [| k IH]; intros fuel exitIn Hfuel Hexit.
  - destruct fuel, exitIn as [[] |]; try lia; reflexivity.
  - destruct fuel as [| fuel]; [lia |].
    destruct exitIn as [[| delay] |]; try lia; simpl; apply IH; simpl; lia.
Qed.

(** X10. [stopQemu] returns as soon as the child has exited: when the
    child exits [delay] ticks after SIGTERM and the thread is not
    interrupted before, the call returns within [delay] ticks, having sent
    SIGTERM only (no forced kill), with the process handle dropped, the
    running flag and start time reset, and the log buffer kept. *)
Theorem stopQemu_returns_when_child_exits
    (fuel delay : nat) (env : QemuService.Env) (s : QemuService.State)
    (child : QemuService.Child) :
  QemuService.isRunning s = true ->
  QemuService.qemuProcess s = Some child ->
  QemuService.termDelay child = Some delay ->
  QemuService.interruptIn env = None ->
  (delay <= fuel)%nat ->
  QemuService.stopQemu fuel env s
  = Some ({| QemuService.qemuProcess := None; QemuService.isRunning := false;
             QemuService.startTime := 0; QemuService.outputReaderThread := false;
             QemuService.logBuffer := QemuService.logBuffer s |},
          QemuService.Destroy
            :: (if QemuService.outputReaderThread s
                then [QemuService.InterruptReader] else [])
            ++ [QemuService.StopForeground; QemuService.StopSelf]).
Proof.
  intros Hrun Hproc Hdelay Hint Hfuel.
  unfold QemuService.stopQemu. rewrite Hrun, Hproc, Hdelay, Hint. cbn [negb].
  rewrite waitFor_exits by (exact Hfuel || exact I). reflexivity.
Qed.

Lemma stopQemu_returns_when_child_exits_witness :
  QemuService.stopQemu 5 quietEnv
    (serviceRunning {| QemuService.childPid := 4242;
                       QemuService.termDelay := Some 3%nat |})
  = Some (QemuService.initial,
          [QemuService.Destroy; QemuService.InterruptReader;
           QemuService.StopForeground; QemuService.StopSelf]).
Proof.
  apply (stopQemu_returns_when_child_exits 5 3 quietEnv
           (serviceRunning {| QemuService.childPid := 4242;
                              QemuService.termDelay := Some 3%nat |})
           {| QemuService.childPid := 4242; QemuService.termDelay := Some 3%nat |});
    try reflexivity. lia.
Defined.

(** X11. The forced kill of [stopQemu] is taken only on an interrupt:
    when the waiting thread is interrupted after [k] ticks, before the
    child has exited, the call returns within [k] ticks having sent
    SIGTERM and then the forced kill, and leaves the service stopped. *)
Theorem stopQemu_forces_kill_on_interrupt
    (fuel k : nat) (env : QemuService.Env) (s : QemuService.State)
    (child : QemuService.Child) :
  QemuService.isRunning s = true ->
  QemuService.qemuProcess s = Some child ->
  QemuService.interruptIn env = Some k ->
  match QemuService.termDelay child with
  | Some delay => (k < delay)%nat
  | None => True
  end ->
  (k <= fuel)%nat ->
  QemuService.stopQemu fuel env s
  = Some (QemuService.stopped s,
          QemuService.Destroy :: QemuService.DestroyForcibly
            :: QemuService.afterStop s).
Proof.
  intros Hrun Hproc Hint Hdelay Hfuel.
  unfold QemuService.stopQemu. rewrite Hrun, Hproc, Hint. cbn [negb].
  rewrite waitFor_interrupted by assumption. reflexivity.
Qed.

Lemma stopQemu_forces_kill_on_interrupt_witness :
  let env := {| QemuService.filesDir := QemuService.filesDir quietEnv;
                QemuService.nativeLibraryDir := QemuService.nativeLibraryDir quietEnv;
                QemuService.binaryExists := true;
                QemuService.start := QemuService.start quietEnv;
                QemuService.currentTimeMillis := 1;
                QemuService.interruptIn := Some 2%nat |} in
  let s := serviceRunning {| QemuService.childPid := 4242;
                             QemuService.termDelay := None |} in
  QemuService.stopQemu 2 env s
  = Some (QemuService.stopped s,
          QemuService.Destroy :: QemuService.DestroyForcibly
            :: QemuService.afterStop s).
Proof.
  intros env s.
  apply (stopQemu_forces_kill_on_interrupt 2 2 env s
           {| QemuService.childPid := 4242; QemuService.termDelay := None |});
    reflexivity.
Defined.

(** ** Uptime *)




(** ** The command line *)

Lemma readDecimal_decimal (z : Z) : readDecimal (decimal z) = Some z.
Proof.
  unfold readDecimal, decimal, str.
  rewrite string_of_list_ascii_of_string.
  destruct z as [| p | p]; [reflexivity | |].
  - cbn [Z.to_int]. rewrite NilZero.isi.
    + cbn [option_map]. f_equal.
      change (Z.of_int (Z.to_int (Z.pos p)) = Z.pos p). apply DecimalZ.of_to.
    + intros [= H]. exact (DecimalPos.Unsigned.to_uint_nonnil p H).
    + discriminate.
  - cbn [Z.to_int]. rewrite NilZero.isi.
    + cbn [option_map]. f_equal.
      change (Z.of_int (Z.to_int (Z.neg p)) = Z.neg p). apply DecimalZ.of_to.
    + discriminate.
    + intros [= H]. exact (DecimalPos.Unsigned.to_uint_nonnil p H).
Qed.

Lemma equals_true_eq (a b : jstring) : JavaString.equals a b = true -> a = b.
Proof.
  revert b. induction a as [| x a IH]; intros [| y b] H; try discriminate.
  - reflexivity.
  - cbn [JavaString.equals] in H. apply andb_true_iff in H. destruct H as [Hx Hab].
    apply Ascii.eqb_eq in Hx. rewrite Hx, (IH b Hab). reflexivity.
Qed.

Lemma equals_false_decimal (flag : jstring) (z : Z) :
  readDecimal flag = None -> JavaString.equals flag (decimal z) = false.
Proof.
  intros Hflag. destruct (JavaString.equals flag (decimal z)) eqn:E; [| reflexivity].
  apply equals_true_eq in E. rewrite E, readDecimal_decimal in Hflag.
  discriminate.
Qed.

Lemma equals_false_shorter (flag x : jstring) :
  (length flag < length x)%nat -> JavaString.equals flag x = false.
Proof.
  intros Hlen. destruct (JavaString.equals flag x) eqn:E; [| reflexivity].
  apply equals_true_eq in E. rewrite E in Hlen. lia.
Qed.

Lemma occurrences_cons (flag x : jstring) (command : list jstring) :
  occurrences flag (x :: command)
  = ((if JavaString.equals flag x then 1 else 0) + occurrences flag command)%nat.
Proof.
  unfold occurrences. simpl. destruct (JavaString.equals flag x); reflexivity.
Qed.

(** Computes the lengths of the literals in the goal. *)
Ltac length_str :=
  repeat match goal with
    | |- context [length (str ?s)] =>
        let v := eval vm_compute in (length (str s)) in
        change (length (str s)) with v
    end.

(** Counts one flag through the command line, argument by argument: a
    numeral is no flag, a literal is compared, a path is too long. *)
Ltac count_flag :=
  rewrite !occurrences_cons;
  rewrite ?(equals_false_decimal _ _) by reflexivity;
  repeat match goal with
    | |- context [JavaString.equals ?f (str ?x)] =>
        let v := eval vm_compute in (JavaString.equals f (str x)) in
        change (JavaString.equals f (str x)) with v
    end;
  repeat match goal with
    | |- context [JavaString.equals ?f ?x] =>
        rewrite (equals_false_shorter f x)
          by (unfold QemuService.file; rewrite ?length_app; length_str; lia)
    end;
  reflexivity.

Lemma flag_occurs_once (env : QemuService.Env) (ramMB cpuCores : Z) (flag : jstring) :
  In flag qemuFlags ->
  occurrences flag (QemuService.buildQemuCommand env ramMB cpuCores) = 1%nat.
Proof.
  unfold qemuFlags, QemuService.buildQemuCommand. cbv zeta.
  intros Hin. destruct (QemuService.binaryExists env);
    repeat (destruct Hin as [<- | Hin]; [count_flag |]);
    destruct Hin.
Qed.

(** X13. Whatever the configuration and the paths, the command line
    built for the child has 24 arguments and names each of its twelve
    flags exactly once; the values after -smp and -m are decimal numerals
    that read back as the core count and the RAM size given. *)
Theorem command_line_well_formed (env : QemuService.Env) (ramMB cpuCores : Z) :
  let command := QemuService.buildQemuCommand env ramMB cpuCores in
  length command = 24%nat
  /\ Forall (fun flag => occurrences flag command = 1%nat) qemuFlags
  /\ exists before smp mem after,
       command = before ++ [str "-smp"; smp; str "-m"; mem] ++ after
       /\ readDecimal smp = Some cpuCores
       /\ readDecimal mem = Some ramMB.
Proof.
  intros command. subst command. split; [reflexivity |]. split.
  - apply Forall_forall. intros flag Hin. apply flag_occurs_once.
    apply list_elem_of_In. exact Hin.
  - destruct (buildQemuCommand_memory env ramMB cpuCores) as (b & a & H).
    exists b, (decimal cpuCores), (decimal ramMB), a.
    split; [exact H |]. split; apply readDecimal_decimal.
Qed.

(** ** Bounds of the snapshot *)

Lemma pieces_no_separator (sep : ascii) (s : jstring) :
  Forall (Forall (fun x => x <> sep)) (JavaString.pieces sep s).
Proof.
  induction s as [| c s IH]; cbn [JavaString.pieces].
  - repeat constructor.
  - destruct (Ascii.eqb_spec c sep) as [-> | Hne].
    + rewrite ascii_eqb_refl. constructor; [constructor | exact IH].
    + rewrite (ascii_eqb_neq c sep Hne).
      destruct (JavaString.pieces sep s) as [| p ps].
      * repeat constructor. exact Hne.
      * inversion IH as [| ? ? Hp Hps]; subst.
        constructor; [constructor; assumption | exact Hps].
Qed.

Lemma pieces_length (sep : ascii) (s : jstring) :
  (length (JavaString.pieces sep s) <= S (length s))%nat.
Proof.
  induction s as [| c s IH]; cbn [JavaString.pieces length]; [lia |].
  destruct (JavaString.ascii_eqb c sep); cbn [length]; [lia |].
  destruct (JavaString.pieces sep s); cbn [length] in *; lia.
Qed.

Lemma dropTrailingEmpty_keeps (P : jstring -> Prop) (l : list jstring) :
  Forall P l ->
  Forall P (JavaString.dropTrailingEmpty l)
  /\ (length (JavaString.dropTrailingEmpty l) <= length l)%nat.
Proof.
  induction 1 as [| p ps Hp _ [IH1 IH2]]; cbn [JavaString.dropTrailingEmpty].
  - split; [constructor | lia].
  - destruct (JavaString.dropTrailingEmpty ps) as [| r rs].
    + destruct p as [| c p]; cbn [length].
      * split; [constructor | lia].
      * split; [repeat constructor; exact Hp | lia].
    + cbn [length] in *. split; [constructor; assumption | lia].
Qed.

Lemma find_none_char (c : ascii) (s : jstring) :
  JavaString.find [c] s = None -> Forall (fun x => x <> c) s.
Proof.
  induction s as [| x s IH]; [constructor |].
  cbn [JavaString.find JavaString.startsWith].
  destruct (Ascii.eqb_spec c x) as [-> | Hne].
  - rewrite ascii_eqb_refl. discriminate.
  - rewrite (ascii_eqb_neq c x Hne). cbn [andb].
    destruct (JavaString.find [c] s); [discriminate |].
    intros _. constructor; [congruence | apply IH; reflexivity].
Qed.

Lemma split_lines (buf : jstring) :
  Forall (Forall (fun x => x <> nl)) (JavaString.split nl buf)
  /\ (length (JavaString.split nl buf) <= S (length buf))%nat.
Proof.
  unfold JavaString.split, JavaString.contains.
  destruct (JavaString.find [nl] buf) eqn:Hfind.
  - destruct (dropTrailingEmpty_keeps _ _ (pieces_no_separator nl buf)) as [H1 H2].
    split; [exact H1 |]. pose proof (pieces_length nl buf). lia.
  - split; [| cbn [length]; lia].
    constructor; [apply find_none_char; exact Hfind | constructor].
Qed.

Lemma newlines_app (a b : jstring) : newlines (a ++ b) = (newlines a + newlines b)%nat.
Proof. unfold newlines. rewrite List.filter_app, length_app. reflexivity. Qed.

Lemma newlines_line (l : jstring) : Forall (fun x => x <> nl) l -> newlines l = 0%nat.
Proof.
  unfold newlines. induction 1 as [| x l Hx _ IH]; [reflexivity |].
  cbn [List.filter]. rewrite (ascii_eqb_neq nl x) by congruence. exact IH.
Qed.

Lemma newlines_stream (ls : list jstring) :
  Forall (Forall (fun x => x <> nl)) ls -> newlines (stream ls) = length ls.
Proof.
  unfold stream. induction 1 as [| l ls Hl _ IH]; [reflexivity |].
  cbn [map concat length]. rewrite !newlines_app, (newlines_line l Hl), IH.
  reflexivity.
Qed.

(** X14. A snapshot never holds more lines than asked for: for a buffer
    within its cap and a count [n] from 0 up, what [getLogs] returns has at
    most [n] newline-terminated lines, and ends with a newline unless it
    is empty. *)
Theorem getLogs_at_most_n_lines (buf : jstring) (n : Z) :
  Z.of_nat (length buf) <= QemuService.LOG_CAP ->
  0 <= n < 2 ^ 31 ->
  Z.of_nat (newlines (QemuService.getLogs buf n)) <= n
  /\ (QemuService.getLogs buf n = [] \/ last (QemuService.getLogs buf n) = Some nl).
Proof.
  intros Hcap Hn. unfold QemuService.LOG_CAP in Hcap.
  destruct (split_lines buf) as [Hlines Hlen].
  unfold QemuService.getLogs. cbv zeta.
  rewrite wrap32_small by lia.
  set (start := Z.to_nat (Z.max 0 (Z.of_nat (length (JavaString.split nl buf)) - n))).
  fold (stream (drop start (JavaString.split nl buf))).
  split.
  - rewrite newlines_stream by (apply Forall_drop; exact Hlines).
    rewrite length_drop. subst start. lia.
  - generalize (drop start (JavaString.split nl buf)) as ls. intros ls.
    destruct ls as [| l ls] using rev_ind; [left; reflexivity | right].
    rewrite stream_snoc, !app_assoc. apply last_snoc.
Qed.

Lemma getLogs_at_most_n_lines_witness :
  Z.of_nat (newlines (QemuService.getLogs [ "a"%char; nl; "b"%char; nl; "c"%char; nl ] 2))
  <= 2.
Proof.
  apply (getLogs_at_most_n_lines [ "a"%char; nl; "b"%char; nl; "c"%char; nl ] 2).
  - vm_compute. discriminate.
  - lia.
Defined.

(** X15. A count that is not positive yields an empty snapshot only as
    long as the 32-bit subtraction does not wrap around. For a buffer
    within its cap that splits into [lines] lines and a count [n] from the
    smallest int up to 0, [getLogs] returns nothing when [lines - n] is
    below 2^31; for the other counts, those from -2^31 up to
    [lines - 2^31], the start index wraps around to a negative number and
    [getLogs] returns every line of the buffer, as it does for the largest
    count. *)
Theorem getLogs_negative_count (buf : jstring) (n : Z) :
  Z.of_nat (length buf) <= QemuService.LOG_CAP ->
  - 2 ^ 31 <= n <= 0 ->
  let lines := Z.of_nat (length (JavaString.split nl buf)) in
  QemuService.getLogs buf n
  = (if lines - n <? 2 ^ 31 then [] else stream (JavaString.split nl buf))
  /\ QemuService.getLogs buf (2 ^ 31 - 1) = stream (JavaString.split nl buf).
Proof.
  intros Hcap Hn lines. unfold QemuService.LOG_CAP in Hcap.
  destruct (split_lines buf) as [_ Hlen].
  unfold QemuService.getLogs. cbv zeta. fold (stream (JavaString.split nl buf)).
  fold lines. assert (Hl : 0 <= lines <= 10001) by (subst lines; lia).
  split.
  - destruct (Z.ltb_spec (lines - n) (2 ^ 31)) as [Hsmall | Hbig].
    + rewrite wrap32_small by lia.
      rewrite drop_ge by (subst lines; lia). reflexivity.
    + replace (wrap32 (lines - n)) with (lines - n - 2 ^ 32).
      * replace (Z.to_nat (Z.max 0 (lines - n - 2 ^ 32))) with 0%nat by lia.
        reflexivity.
      * unfold wrap32.
        replace (lines - n + 2 ^ 31) with (lines - n - 2 ^ 31 + 1 * 2 ^ 32) by lia.
        rewrite Z.mod_add by lia. rewrite Z.mod_small by lia. lia.
  - rewrite wrap32_small by lia.
    replace (Z.to_nat (Z.max 0 (lines - (2 ^ 31 - 1)))) with 0%nat by lia.
    reflexivity.
Qed.

Lemma getLogs_negative_count_witness :
  QemuService.getLogs [ "a"%char; nl; "b"%char; nl ] (-1) = []
  /\ QemuService.getLogs [ "a"%char; nl; "b"%char; nl ] (- 2 ^ 31 + 2)
     = [ "a"%char; nl; "b"%char; nl ]
  /\ QemuService.getLogs [ "a"%char; nl; "b"%char; nl ] (- 2 ^ 31 + 3) = [].
Proof.
  split; [| split].
  - destruct (getLogs_negative_count [ "a"%char; nl; "b"%char; nl ] (-1))
      as (H & _); [vm_compute; discriminate | lia |].
    rewrite H. reflexivity.
  - destruct (getLogs_negative_count [ "a"%char; nl; "b"%char; nl ] (- 2 ^ 31 + 2))
      as (H & _); [vm_compute; discriminate | lia |].
    rewrite H. reflexivity.
  - destruct (getLogs_negative_count [ "a"%char; nl; "b"%char; nl ] (- 2 ^ 31 + 3))
      as (H & _); [vm_compute; discriminate | lia |].
    rewrite H. reflexivity.
Defined.

Lemma QemuService_getLogs_last_lines_witness :
  QemuService.getLogs (stream [str "boot"; []; str "login:"]) 2
  = stream [[]; str "login:"].
Proof.
  apply (QemuService_getLogs_last_lines (str "boot") [[]; str "login:"] 2).
  - repeat constructor; discriminate.
  - discriminate.
  - lia.
  - simpl. lia.
Defined.

Lemma QemuManager_getLogs_last_lines_witness :
  QemuManager.getLogs
    (Some (map QemuManager.Line [str "boot"; []; str "login:"; []])) 3
  = stream [[]; str "login:"; []].
Proof.
  apply (QemuManager_getLogs_last_lines [str "boot"; []; str "login:"; []] 3).
  - lia.
  - simpl. lia.
Defined.

(* ================================================================= *)
(** * Further properties of the manager *)

(** ** Replies that are not of the expected shape *)

Lemma parseResponse_no_key (r : jstring) :
  JavaString.find QemuManager.returnKey r = None ->
  QemuManager.parseResponse (Some r) = r.
Proof.
  intros Hkey. unfold QemuManager.parseResponse, JavaString.indexOf.
  rewrite Hkey. change (-1 + 9) with 8. change (8 <? 8) with false.
  destruct (JavaString.contains (str "return") r); reflexivity.
Qed.

Lemma parseResponse_after_head (tail : jstring) :
  QemuManager.parseResponse (Some (replyHead ++ tail))
  = match JavaString.find [dquote] tail with
    | Some (S n) =>
        JavaString.replace (str "\r") [cr]
          (JavaString.replace (str "\n") [nl] (take (S n) tail))
    | _ => replyHead ++ tail
    end.
Proof.
  unfold QemuManager.parseResponse.
  assert (Hc : JavaString.contains (str "return") (replyHead ++ tail) = true)
    by reflexivity.
  assert (Hi : JavaString.indexOf QemuManager.returnKey (replyHead ++ tail) = 2)
    by reflexivity.
  assert (Hd : drop 11 (replyHead ++ tail) = tail) by reflexivity.
  rewrite Hc, Hi. change (2 + 9) with 11. change (8 <? 11) with true. cbn [andb].
  unfold JavaString.indexOfFrom, JavaString.substring.
  change (Z.to_nat (Z.max 0 11)) with 11%nat. change (Z.to_nat 11) with 11%nat.
  rewrite Hd.
  destruct (JavaString.find [dquote] tail) as [[| n] |].
  - replace (11 <=? length (replyHead ++ tail))%nat with true by reflexivity.
    reflexivity.
  - replace (11 <=? length (replyHead ++ tail))%nat with true by reflexivity.
    replace (11 <? Z.of_nat (11 + S n)) with true by (symmetry; apply Z.ltb_lt; lia).
    replace (Z.to_nat (Z.of_nat (11 + S n) - 11)) with (S n) by lia.
    reflexivity.
  - reflexivity.
Qed.

Lemma find_char_absent (c : ascii) (s : jstring) :
  Forall (fun x => x <> c) s -> JavaString.find [c] s = None.
Proof.
  induction 1 as [| x s Hx _ IH]; [reflexivity |].
  cbn [JavaString.find JavaString.startsWith].
  rewrite (ascii_eqb_neq c x) by congruence. cbn [andb]. rewrite IH. reflexivity.
Qed.

(** X18. A reply that is not of the expected shape comes back as it is:
    [parseResponse] returns the raw line when the return key does not
    occur in it, when the value after the key has no closing quote, and
    also when the value is empty; for a missing line (null) it returns the
    empty string. It extracts a field only when a non-empty text stands
    between the key and the next quote. *)
Theorem parseResponse_falls_back_to_raw (r payload rest : jstring) :
  QemuManager.parseResponse None = []
  /\ (JavaString.find QemuManager.returnKey r = None ->
      QemuManager.parseResponse (Some r) = r)
  /\ (Forall (fun x => x <> dquote) payload ->
      QemuManager.parseResponse (Some (replyHead ++ payload)) = replyHead ++ payload)
  /\ QemuManager.parseResponse (Some (replyHead ++ dquote :: rest))
     = replyHead ++ dquote :: rest.
Proof.
  split; [reflexivity |]. split; [apply parseResponse_no_key |]. split.
  - intros Hq. rewrite parseResponse_after_head, find_char_absent by exact Hq.
    reflexivity.
  - rewrite parseResponse_after_head.
    cbn [JavaString.find JavaString.startsWith]. rewrite ascii_eqb_refl.
    reflexivity.
Qed.

Lemma parseResponse_falls_back_to_raw_witness :
  QemuManager.parseResponse (Some (str "{}")) = str "{}"
  /\ QemuManager.parseResponse (Some (replyHead ++ str "ok")) = replyHead ++ str "ok".
Proof.
  destruct (parseResponse_falls_back_to_raw (str "{}") (str "ok") [])
    as (_ & H2 & H3 & _).
  split.
  - apply H2. vm_compute. reflexivity.
  - apply H3. repeat constructor; discriminate.
Defined.

(** ** The control channel never opens *)

Lemma executeCommand_unconnected
    (executeViaSsh : jstring -> Result Exception jstring)
    (command : jstring) (m : QemuManager.State) :
  QemuManager.qmpWriter m = None ->
  QemuManager.executeCommand executeViaSsh command m
  = (sshOrNotConnected executeViaSsh command, m).
Proof.
  intros Hw. unfold QemuManager.executeCommand, QemuManager.tryCatch,
    sshOrNotConnected, QemuManager.executeViaSerial, QemuManager.connectQmp.
  destruct (executeViaSsh command); [reflexivity |].
  destruct (QemuManager.isConnected m); rewrite Hw; reflexivity.
Qed.

(** X19. Since [connectQmp] connects nothing, the serial transport never
    serves a command: however many commands a fresh manager executes,
    each yields the output of SSH when SSH succeeds and otherwise the
    fixed text Error: QMP not connected, and the manager is left as it
    was, still unconnected. *)
Theorem serial_transport_never_serves
    (executeViaSsh : jstring -> Result Exception jstring)
    (commands : list jstring) :
  executeAll executeViaSsh commands QemuManager.initial
  = (map (sshOrNotConnected executeViaSsh) commands, QemuManager.initial).
Proof.
  induction commands as [| c commands IH]; [reflexivity |].
  cbn [executeAll map].
  rewrite executeCommand_unconnected by reflexivity. rewrite IH. reflexivity.
Qed.

(* ================================================================= *)
(** * Further properties of the native wrapper *)

(** ** Calls in sequence *)





(** ** A stop that finds the child gone *)

Lemma waitLoop_exits (poll : nat -> Z) (pid : Z) (k : nat) :
  forall (fuel i : nat) (wait_count : Z),
    (forall j, (j < k)%nat -> poll (i + j)%nat <> pid /\ 0 <= poll (i + j)%nat) ->
    poll (i + k)%nat = pid \/ poll (i + k)%nat < 0 ->
    wait_count + Z.of_nat k < 50 ->
    (k < fuel)%nat ->
    QemuJni.waitLoop fuel poll pid i wait_count
    = Some (wait_count + Z.of_nat k, pollRounds pid k ++ [QemuJni.WaitpidNoHang pid]).
Proof.
  induction k as [| k IH]; intros fuel i wc Hbefore Hat Hwc Hfuel;
    (destruct fuel as [| fuel]; [lia |]); cbn [QemuJni.waitLoop].
  - replace (wc <? 50) with true by (symmetry; apply Z.ltb_lt; lia).
    rewrite Nat.add_0_r in Hat. replace (wc + Z.of_nat 0) with wc by lia.
    destruct Hat as [-> | Hneg].
    + rewrite Z.eqb_refl. reflexivity.
    + replace (poll i <? 0) with true by (symmetry; apply Z.ltb_lt; exact Hneg).
      destruct (poll i =? pid); reflexivity.
  - replace (wc <? 50) with true by (symmetry; apply Z.ltb_lt; lia).
    destruct (Hbefore 0%nat) as [Hne Hpos]; [lia |].
    rewrite Nat.add_0_r in Hne, Hpos.
    replace (poll i =? pid) with false by (symmetry; apply Z.eqb_neq; exact Hne).
    replace (poll i <? 0) with false by (symmetry; apply Z.ltb_ge; exact Hpos).
    rewrite (IH fuel (S i) (wc + 1)).
    + replace (wc + 1 + Z.of_nat k) with (wc + Z.of_nat (S k)) by lia. reflexivity.
    + intros j Hj. replace (S i + j)%nat with (i + S j)%nat by lia.
      apply Hbefore. lia.
    + replace (S i + k)%nat with (i + S k)%nat by lia. exact Hat.
    + lia.
    + lia.
Qed.

(** X21. When the child is seen gone at the poll numbered [k] (from 0,
    [k] below 50), [nativeStop] has sent SIGTERM, polled [k + 1] times and
    slept [k] times 100 ms in between, and sends no SIGKILL; the state is
    left stopped and 0 is returned. An error of [waitpid] ends the wait in
    the same way. *)
Theorem nativeStop_ends_at_exit
    (poll : nat -> Z) (state : QemuJni.QemuState) (k : nat) :
  QemuJni.running state <> 0 ->
  0 < QemuJni.pid state ->
  (k < 50)%nat ->
  (forall j, (j < k)%nat -> poll j <> QemuJni.pid state /\ 0 <= poll j) ->
  poll k = QemuJni.pid state \/ poll k < 0 ->
  QemuJni.nativeStop 50 poll (Some state)
  = Some (0, Some (nativeStopped state),
          QemuJni.Kill (QemuJni.pid state) QemuJni.SIGTERM
            :: pollRounds (QemuJni.pid state) k
            ++ [QemuJni.WaitpidNoHang (QemuJni.pid state)])
  /\ sleptUsec (pollRounds (QemuJni.pid state) k) = 100000 * Z.of_nat k.
Proof.
  intros Hrun Hpid Hk Hbefore Hat. split.
  - unfold QemuJni.nativeStop.
    replace (QemuJni.running state =? 0) with false
      by (symmetry; apply Z.eqb_neq; exact Hrun).
    replace (QemuJni.pid state <=? 0) with false
      by (symmetry; apply Z.leb_gt; exact Hpid).
    cbn [orb].
    rewrite (waitLoop_exits poll (QemuJni.pid state) k 50 0 0);
      [| exact Hbefore | exact Hat | lia | lia].
    replace (50 <=? 0 + Z.of_nat k) with false by (symmetry; apply Z.leb_gt; lia).
    rewrite app_nil_r. reflexivity.
  - unfold pollRounds. clear. induction k as [| k IH]; [reflexivity |].
    cbn [repeat concat app sleptUsec]. rewrite IH. lia.
Qed.

Lemma nativeStop_ends_at_exit_witness :
  let state := {| QemuJni.pid := 4242; QemuJni.running := 1;
                  QemuJni.data_dir := str "/data/files/qemu";
                  QemuJni.ram_mb := 0; QemuJni.cpu_cores := 0;
                  QemuJni.start_time := 1 |} in
  let poll := fun j : nat => if (j <? 2)%nat then 0 else 4242 in
  QemuJni.nativeStop 50 poll (Some state)
  = Some (0, Some (nativeStopped state),
          [ QemuJni.Kill 4242 QemuJni.SIGTERM;
            QemuJni.WaitpidNoHang 4242; QemuJni.Usleep 100000;
            QemuJni.WaitpidNoHang 4242; QemuJni.Usleep 100000;
            QemuJni.WaitpidNoHang 4242 ]).
Proof.
  intros state poll.
  destruct (nativeStop_ends_at_exit poll state 2) as [H _].
  - discriminate.
  - reflexivity.
  - lia.
  - intros j Hj. subst poll. cbv beta.
    destruct (Nat.ltb_spec j 2); [simpl; lia | lia].
  - left. reflexivity.
  - exact H.
Defined.

(** ** Initializing over a running child *)

(** X22. [nativeInit] resets [running] and [pid] without looking at
    them: called while a child runs, it forgets the child. Before it a
    stop signals the child, SIGTERM first; from then on a stop or a
    status check returns 0 at once and makes no system call, so the child
    is neither signalled nor reaped, and a command is refused. The
    directory kept is the first 511 characters of the one given. *)
Theorem nativeInit_forgets_running_child
    (callocWorks : bool) (dir : jstring) (state : QemuJni.QemuState)
    (fuel : nat) (poll : nat -> Z) (result : Z) :
  QemuJni.running state <> 0 ->
  0 < QemuJni.pid state ->
  (exists calls,
     QemuJni.nativeStop 50 poll (Some state)
     = Some (0, Some (nativeStopped state), calls)
     /\ head calls = Some (QemuJni.Kill (QemuJni.pid state) QemuJni.SIGTERM))
  /\ exists state',
       QemuJni.nativeInit callocWorks dir (Some state) = Some state'
       /\ QemuJni.running state' = 0
       /\ QemuJni.pid state' = -1
       /\ QemuJni.data_dir state' = take 511 dir
       /\ QemuJni.nativeStop fuel poll (Some state') = Some (0, Some state', [])
       /\ QemuJni.nativeGetStatus result (Some state') = (0, Some state', [])
       /\ QemuJni.nativeSendCommand (Some state') dir = -1.
Proof.
  intros Hrun Hpid. split.
  - destruct (nativeStop_bounded_wait poll state Hrun Hpid)
      as (calls & Hstop & Hhead & _).
    exists calls. split; [exact Hstop | exact Hhead].
  - eexists. split; [reflexivity |]. repeat split.
Qed.

Lemma nativeInit_forgets_running_child_witness :
  let state := {| QemuJni.pid := 4242; QemuJni.running := 1;
                  QemuJni.data_dir := str "/data/files/qemu";
                  QemuJni.ram_mb := 0; QemuJni.cpu_cores := 0;
                  QemuJni.start_time := 1 |} in
  exists state',
    QemuJni.nativeInit true (str "/data/files/qemu") (Some state) = Some state'
    /\ QemuJni.nativeStop 50 (fun _ => 4242) (Some state') = Some (0, Some state', []).
Proof.
  intros state.
  destruct (nativeInit_forgets_running_child true (str "/data/files/qemu") state
              50 (fun _ => 4242) 0) as (_ & state' & H1 & _ & _ & _ & H5 & _).
  - discriminate.
  - reflexivity.
  - exists state'. split; [exact H1 | exact H5].
Defined.

(* ================================================================= *)
(** * Further properties of the bridge *)

(** ** From the store to the child process *)

Lemma overBridge_startVM_accepted
    (benv : QemuModule.Env) (b : QemuModule.State) (env : QemuStore.Env)
    (ram cpu : Z) :
  QemuModule.isInitialized b = true ->
  (forall intent, QemuModule.startService benv intent = Ok tt) ->
  QemuStore.serviceStartVM (overBridge benv b env) ram cpu = Ok tt.
Proof.
  intros Hb Hsys. cbn [overBridge QemuStore.serviceStartVM].
  unfold QemuModule.startVM. rewrite Hb, Hsys. reflexivity.
Qed.

Lemma overBridge_stopVM_accepted
    (benv : QemuModule.Env) (b : QemuModule.State) (env : QemuStore.Env) :
  (forall intent, QemuModule.startService benv intent = Ok tt) ->
  QemuStore.serviceStopVM (overBridge benv b env) = Ok tt.
Proof.
  intros Hsys. cbn [overBridge QemuStore.serviceStopVM].
  unfold QemuModule.stopVM. rewrite Hsys. reflexivity.
Qed.

Lemma sendEvent_no_intent (env : QemuModule.Env) (e : QemuModule.Event) :
  intents (QemuModule.sendEvent env e) = [].
Proof. unfold QemuModule.sendEvent. destruct (QemuModule.hasActiveReactInstance env); reflexivity. Qed.

Lemma sendEvent_emitted (env : QemuModule.Env) (e : QemuModule.Event) :
  emitted (QemuModule.sendEvent env e)
  = if QemuModule.hasActiveReactInstance env then [e] else [].
Proof. unfold QemuModule.sendEvent. destruct (QemuModule.hasActiveReactInstance env); reflexivity. Qed.

Lemma intents_app (a b : list QemuModule.Action) :
  intents (a ++ b) = intents a ++ intents b.
Proof. apply flat_map_app. Qed.

Lemma emitted_app (a b : list QemuModule.Action) :
  emitted (a ++ b) = emitted a ++ emitted b.
Proof. apply flat_map_app. Qed.

Lemma onStartCommand_start (fuel : nat) (senv : QemuService.Env)
    (s : QemuService.State) (ram cpu : Z) :
  QemuService.onStartCommand fuel senv
    (Some {| QemuService.getAction := Some QemuService.ACTION_START;
             QemuService.extraRamMB := Some ram;
             QemuService.extraCpuCores := Some cpu |}) s
  = Some (QemuService.START_STICKY,
          fst (QemuService.startQemu senv ram cpu s),
          snd (QemuService.startQemu senv ram cpu s)).
Proof.
  unfold QemuService.onStartCommand. cbn [QemuService.getAction].
  replace (QemuService.actionIs QemuService.ACTION_START
             (Some QemuService.ACTION_START)) with true by (vm_compute; reflexivity).
  cbn [QemuService.extraRamMB QemuService.extraCpuCores default from_option id].
  destruct (QemuService.startQemu senv ram cpu s); reflexivity.
Qed.

Lemma onStartCommand_stop (fuel : nat) (senv : QemuService.Env)
    (s : QemuService.State) :
  QemuService.onStartCommand fuel senv
    (Some {| QemuService.getAction := Some QemuService.ACTION_STOP;
             QemuService.extraRamMB := None;
             QemuService.extraCpuCores := None |}) s
  = match QemuService.stopQemu fuel senv s with
    | Some (s', actions) => Some (QemuService.START_STICKY, s', actions)
    | None => None
    end.
Proof.
  unfold QemuService.onStartCommand. cbn [QemuService.getAction].
  replace (QemuService.actionIs QemuService.ACTION_START
             (Some QemuService.ACTION_STOP)) with false by (vm_compute; reflexivity).
  replace (QemuService.actionIs QemuService.ACTION_STOP
             (Some QemuService.ACTION_STOP)) with true by (vm_compute; reflexivity).
  reflexivity.
Qed.

(** X23. A start is reported as done whatever becomes of the process.
    Once the bridge is initialized and the system accepts the intent, the
    store's [startVM] resolves and leaves the phase running with no
    error, because the bridge resolves as soon as the intent is handed
    over and announces running from a thread 3000 ms later. The one intent
    handed over makes the service run [startQemu] with the numbers of the
    request, unchecked on the whole way; when the process cannot be
    started the service is left not running. *)
Theorem start_reported_whatever_becomes_of_the_process
    (benv : QemuModule.Env) (b : QemuModule.State)
    (senv : QemuService.Env) (s : QemuService.State)
    (env : QemuStore.Env) (w : QemuStore.World) (ram cpu : Z) (fuel : nat) :
  QemuModule.isInitialized b = true ->
  (forall intent, QemuModule.startService benv intent = Ok tt) ->
  QemuStore.isInitialized (QemuStore.store w) = true ->
  ram <> 0 -> cpu <> 0 -> wrap32 ram = ram -> wrap32 cpu = cpu ->
  let out := QemuStore.startVM (Some ram) (Some cpu) (overBridge benv b env) w in
  let actions := snd (fst (QemuModule.startVM benv ram cpu b)) in
  fst out = Ok tt
  /\ QemuStore.vmStatus (QemuStore.store (snd out)) = QemuStore.RUNNING
  /\ QemuStore.error (QemuStore.store (snd out)) = None
  /\ threads actions = [(3000, QemuModule.VmStatusEvent (str "running"))]
  /\ exists intent,
       intents actions = [intent]
       /\ QemuService.onStartCommand fuel senv (Some intent) s
          = Some (QemuService.START_STICKY,
                  fst (QemuService.startQemu senv ram cpu s),
                  snd (QemuService.startQemu senv ram cpu s))
       /\ (QemuService.isRunning s = false ->
           (exists e, QemuService.start senv
                        (QemuService.buildQemuCommand senv ram cpu) = Throw e) ->
           QemuService.isRunning (fst (QemuService.startQemu senv ram cpu s))
           = false).
Proof.
  intros Hb Hsys Hw Hram Hcpu _ _ out actions.
  assert (Hsvc := overBridge_startVM_accepted benv b env ram cpu Hb Hsys).
  assert (Hact : actions
                 = QemuModule.sendEvent benv (QemuModule.VmStatusEvent (str "starting"))
                   ++ [ (if 26 <=? QemuModule.SDK_INT benv
                         then QemuModule.StartForegroundService
                         else QemuModule.StartService)
                          {| QemuService.getAction := Some QemuService.ACTION_START;
                             QemuService.extraRamMB := Some ram;
                             QemuService.extraCpuCores := Some cpu |};
                        QemuModule.ThreadStart 3000
                          (QemuModule.VmStatusEvent (str "running")) ]).
  { subst actions. unfold QemuModule.startVM. rewrite Hb, Hsys. cbn [negb snd fst].
    destruct (26 <=? QemuModule.SDK_INT benv); reflexivity. }
  assert (Hout : fst out = Ok tt
                 /\ QemuStore.vmStatus (QemuStore.store (snd out)) = QemuStore.RUNNING
                 /\ QemuStore.error (QemuStore.store (snd out)) = None).
  { subst out. clear Hact actions.
    destruct w as [[vs logs stats ini paths err ram0 cpu0 si] eff clk tm].
    cbn [QemuStore.store QemuStore.isInitialized] in Hw. subst ini.
    unfold QemuStore.orElse.
    store_eval. unfold QemuStore.orElse.
    replace (ram =? 0) with false by (symmetry; apply Z.eqb_neq; exact Hram).
    replace (cpu =? 0) with false by (symmetry; apply Z.eqb_neq; exact Hcpu).
    rewrite Hsvc. destruct si; store_eval; repeat split. }
  destruct Hout as (H1 & H2 & H3).
  split; [exact H1 |]. split; [exact H2 |]. split; [exact H3 |].
  split.
  { rewrite Hact. unfold QemuModule.sendEvent.
    destruct (QemuModule.hasActiveReactInstance benv),
             (26 <=? QemuModule.SDK_INT benv); reflexivity. }
  eexists. split.
  { rewrite Hact, intents_app, sendEvent_no_intent.
    destruct (26 <=? QemuModule.SDK_INT benv); reflexivity. }
  split; [apply onStartCommand_start |].
  intros Hs [e He]. unfold QemuService.startQemu. rewrite Hs, He. reflexivity.
Qed.

Lemma start_reported_whatever_becomes_of_the_process_witness :
  QemuStore.vmStatus
    (QemuStore.store
       (snd (QemuStore.startVM (Some 2048) (Some 2)
               (overBridge bridgeEnv readyBridge okEnv) readyWorld)))
  = QemuStore.RUNNING
  /\ QemuService.isRunning
       (fst (QemuService.startQemu noSpawnEnv 2048 2 QemuService.initial))
     = false.
Proof.
  pose proof (start_reported_whatever_becomes_of_the_process
                bridgeEnv readyBridge noSpawnEnv QemuService.initial
                okEnv readyWorld 2048 2 0
                eq_refl (fun _ => eq_refl) eq_refl) as H.
  destruct H as (_ & H2 & _ & _ & intent & _ & _ & H7);
    [discriminate | discriminate | reflexivity | reflexivity |].
  split; [exact H2 |].
  apply H7; [reflexivity |]. eexists. reflexivity.
Defined.

(** X24. A stop is reported as done before the service has stopped
    anything. When the system accepts the intent, the bridge emits
    stopping and stopped and resolves in the call that hands the intent
    over, so the store's [stopVM] resolves, leaves the phase stopped and
    clears its poll; yet for a child that does not exit on SIGTERM the
    handling of that intent by the service never returns. *)
Theorem stop_reported_before_the_child_exits
    (benv : QemuModule.Env) (b : QemuModule.State)
    (senv : QemuService.Env) (s : QemuService.State)
    (env : QemuStore.Env) (w : QemuStore.World) (child : QemuService.Child) :
  (forall intent, QemuModule.startService benv intent = Ok tt) ->
  QemuService.isRunning s = true ->
  QemuService.qemuProcess s = Some child ->
  QemuService.termDelay child = None ->
  QemuService.interruptIn senv = None ->
  let out := QemuStore.stopVM (overBridge benv b env) w in
  let actions := snd (fst (QemuModule.stopVM benv b)) in
  fst out = Ok tt
  /\ QemuStore.vmStatus (QemuStore.store (snd out)) = QemuStore.STOPPED
  /\ QemuStore.statusInterval (QemuStore.store (snd out)) = None
  /\ emitted actions
     = (if QemuModule.hasActiveReactInstance benv
        then [ QemuModule.VmStatusEvent (str "stopping");
               QemuModule.VmStatusEvent (str "stopped") ]
        else [])
  /\ exists intent,
       intents actions = [intent]
       /\ forall fuel,
            QemuService.onStartCommand fuel senv (Some intent) s = None.
Proof.
  intros Hsys Hrun Hproc Hterm Hint out actions.
  assert (Hsvc := overBridge_stopVM_accepted benv b env Hsys).
  assert (Hact : actions
                 = QemuModule.sendEvent benv (QemuModule.VmStatusEvent (str "stopping"))
                   ++ [ QemuModule.StartService
                          {| QemuService.getAction := Some QemuService.ACTION_STOP;
                             QemuService.extraRamMB := None;
                             QemuService.extraCpuCores := None |} ]
                   ++ QemuModule.sendEvent benv
                        (QemuModule.VmStatusEvent (str "stopped"))).
  { subst actions. unfold QemuModule.stopVM. rewrite Hsys. reflexivity. }
  assert (Hout : fst out = Ok tt
                 /\ QemuStore.vmStatus (QemuStore.store (snd out)) = QemuStore.STOPPED
                 /\ QemuStore.statusInterval (QemuStore.store (snd out)) = None).
  { subst out. clear Hact actions.
    destruct w as [[vs logs stats ini paths err ram0 cpu0 si] eff clk tm].
    store_eval. rewrite Hsvc. destruct si; store_eval; repeat split. }
  destruct Hout as (H1 & H2 & H3).
  split; [exact H1 |]. split; [exact H2 |]. split; [exact H3 |].
  split.
  { rewrite Hact, !emitted_app, !sendEvent_emitted.
    destruct (QemuModule.hasActiveReactInstance benv); reflexivity. }
  eexists. split.
  { rewrite Hact, !intents_app, !sendEvent_no_intent. reflexivity. }
  intros fuel. rewrite onStartCommand_stop.
  unfold QemuService.stopQemu. rewrite Hrun, Hproc, Hterm, Hint.
  cbn [negb]. rewrite waitFor_never. reflexivity.
Qed.

Lemma stop_reported_before_the_child_exits_witness :
  QemuStore.vmStatus
    (QemuStore.store
       (snd (QemuStore.stopVM (overBridge bridgeEnv readyBridge okEnv) runningWorld)))
  = QemuStore.STOPPED
  /\ emitted (snd (fst (QemuModule.stopVM bridgeEnv readyBridge)))
     = [ QemuModule.VmStatusEvent (str "stopping");
         QemuModule.VmStatusEvent (str "stopped") ].
Proof.
  pose proof (stop_reported_before_the_child_exits
                bridgeEnv readyBridge quietEnv
                (serviceRunning {| QemuService.childPid := 4242;
                                   QemuService.termDelay := None |})
                okEnv runningWorld _
                (fun _ => eq_refl) eq_refl eq_refl eq_refl eq_refl) as H.
  destruct H as (_ & H2 & _ & H4 & _).
  split; [exact H2 | exact H4].
Defined.

(** ** Commands *)

(** X25. The bridge reports every command as a success. Since
    [executeCommand] never throws, [sendCommand] always resolves with the
    flag success set, whatever the transports did, and emits the command
    and its output as one log event; the store's [sendCommand] over the
    bridge therefore always resolves with that output. On a manager that
    was never connected, a command SSH refused resolves with the text
    Error: QMP not connected as its output. *)
Theorem bridge_reports_every_command_as_success
    (benv : QemuModule.Env) (b : QemuModule.State)
    (env : QemuStore.Env) (w : QemuStore.World) (command : jstring) :
  exists out : jstring,
    snd (QemuModule.sendCommand benv command b)
    = QemuModule.Resolve {| QemuModule.output := out;
                            QemuModule.commandSuccess := true |}
    /\ fst (QemuManager.executeCommand (QemuModule.executeViaSsh benv) command
              (QemuModule.qemuManager b)) = Ok out
    /\ emitted (snd (fst (QemuModule.sendCommand benv command b)))
       = (if QemuModule.hasActiveReactInstance benv
          then [QemuModule.VmLogEvent (str "$ " ++ command ++ [nl] ++ out)]
          else [])
    /\ fst (QemuStore.sendCommand command (overBridge benv b env) w)
       = Ok {| QemuStore.output := Some out |}
    /\ (QemuManager.qmpWriter (QemuModule.qemuManager b) = None ->
        (exists e, QemuModule.executeViaSsh benv command = Throw e) ->
        out = str "Error: QMP not connected").
Proof.
  assert (Hex : exists out m,
             QemuManager.executeCommand (QemuModule.executeViaSsh benv) command
               (QemuModule.qemuManager b) = (Ok out, m)).
  { unfold QemuManager.executeCommand, QemuManager.tryCatch.
    destruct (QemuModule.executeViaSsh benv command) as [o | e1]; [eauto |].
    destruct (QemuManager.executeViaSerial command (QemuModule.qemuManager b))
      as [[o | e2] m']; eauto. }
  destruct Hex as (out & m & Hex). exists out.
  assert (Hsend : QemuModule.sendCommand benv command b
                  = ({| QemuModule.isInitialized := QemuModule.isInitialized b;
                        QemuModule.qemuManager := m;
                        QemuModule.managerStartTime := QemuModule.managerStartTime b |},
                     QemuModule.sendEvent benv
                       (QemuModule.VmLogEvent (str "$ " ++ command ++ [nl] ++ out)),
                     QemuModule.Resolve {| QemuModule.output := out;
                                           QemuModule.commandSuccess := true |})).
  { unfold QemuModule.sendCommand. rewrite Hex. reflexivity. }
  split; [rewrite Hsend; reflexivity |].
  split; [rewrite Hex; reflexivity |].
  split; [rewrite Hsend; cbn [fst snd]; apply sendEvent_emitted |].
  split.
  - destruct w as [[vs logs stats ini paths err ram0 cpu0 si] eff clk tm].
    unfold QemuStore.sendCommand. store_eval.
    cbn [overBridge QemuStore.serviceSendCommand]. rewrite Hsend.
    cbn [snd settle QemuModule.output QemuStore.output].
    destruct out; store_eval; reflexivity.
  - intros Hw [e He]. rewrite (executeCommand_unconnected _ _ _ Hw) in Hex.
    unfold sshOrNotConnected in Hex. rewrite He in Hex.
    injection Hex as <- _. reflexivity.
Qed.

Lemma bridge_reports_every_command_as_success_witness :
  snd (QemuModule.sendCommand bridgeEnv (str "docker ps") QemuModule.initial)
  = QemuModule.Resolve {| QemuModule.output := str "Error: QMP not connected";
                          QemuModule.commandSuccess := true |}.
Proof.
  destruct (bridge_reports_every_command_as_success bridgeEnv QemuModule.initial
              okEnv QemuStore.initialWorld (str "docker ps"))
    as (out & H1 & _ & _ & _ & H5).
  rewrite H1, (H5 eq_refl); [reflexivity |].
  eexists. reflexivity.
Defined.

(** ** What the bridge remembers *)

Lemma invoke_state (env : QemuModule.Env) (call : QemuModule.Call)
    (b : QemuModule.State) :
  QemuManager.qmpWriter (QemuModule.qemuManager b) = None ->
  let b' := fst (fst (QemuModule.invoke env call b)) in
  QemuModule.isInitialized b'
  = QemuModule.isInitialized b || initializeResolves (call, env)
  /\ QemuModule.qemuManager b' = QemuModule.qemuManager b
  /\ QemuModule.managerStartTime b' = QemuModule.managerStartTime b.
Proof.
  intros Hm. destruct call as [| ram cpu | | | command | lines];
    cbn [QemuModule.invoke initializeResolves].
  - unfold QemuModule.initialize.
    destruct (QemuModule.prepareFiles env) as [[[] | e] actions];
      cbn [QemuModule.replying fst snd QemuModule.isInitialized
           QemuModule.qemuManager QemuModule.managerStartTime].
    + rewrite orb_true_r. auto.
    + rewrite orb_false_r. auto.
  - unfold QemuModule.startVM.
    destruct (QemuModule.isInitialized b) eqn:Hb; cbn [negb].
    + destruct (QemuModule.startService env _); cbn; rewrite Hb; auto.
    + cbn. rewrite Hb. auto.
  - unfold QemuModule.stopVM.
    destruct (QemuModule.startService env _); cbn; rewrite orb_false_r; auto.
  - cbn. rewrite orb_false_r. auto.
  - unfold QemuModule.sendCommand.
    rewrite (executeCommand_unconnected _ _ _ Hm). unfold sshOrNotConnected.
    destruct (QemuModule.executeViaSsh env command); cbn;
      rewrite orb_false_r; auto.
  - cbn. rewrite orb_false_r. auto.
Qed.

Lemma session_state (calls : list (QemuModule.Call * QemuModule.Env)) :
  forall b : QemuModule.State,
    QemuManager.qmpWriter (QemuModule.qemuManager b) = None ->
    let b' := fst (QemuModule.session calls b) in
    QemuModule.isInitialized b'
    = QemuModule.isInitialized b || existsb initializeResolves calls
    /\ QemuModule.qemuManager b' = QemuModule.qemuManager b
    /\ QemuModule.managerStartTime b' = QemuModule.managerStartTime b.
Proof.
  induction calls as [| [call env] calls IH]; intros b Hm.
  - cbn. rewrite orb_false_r. auto.
  - cbn [QemuModule.session existsb].
    destruct (invoke_state env call b Hm) as (H1 & H2 & H3).
    destruct (QemuModule.invoke env call b) as [[b1 actions] settled].
    cbn [fst] in H1, H2, H3.
    assert (Hm1 : QemuManager.qmpWriter (QemuModule.qemuManager b1) = None)
      by (rewrite H2; exact Hm).
    destruct (IH b1 Hm1) as (I1 & I2 & I3).
    destruct (QemuModule.session calls b1) as [b2 more]. cbn [fst] in *.
    rewrite I1, I2, I3, H1, H2, H3, orb_assoc. auto.
Qed.

(** X26. The bridge refuses a start exactly until an [initialize] has
    resolved. After any calls on a new module, [startVM] is rejected as
    not initialized if and only if none of them was an [initialize] that
    resolved; nothing takes the flag back, neither a later [initialize]
    that fails nor a stop, and the refused start emits nothing and hands
    over no intent. *)
Theorem startVM_refused_until_initialize_resolves
    (calls : list (QemuModule.Call * QemuModule.Env))
    (env : QemuModule.Env) (ramMB cpuCores : Z) :
  let b := fst (QemuModule.session calls QemuModule.initial) in
  QemuModule.isInitialized b = existsb initializeResolves calls
  /\ (snd (QemuModule.startVM env ramMB cpuCores b) = notInitialized
      <-> existsb initializeResolves calls = false)
  /\ (existsb initializeResolves calls = false ->
      QemuModule.startVM env ramMB cpuCores b = (b, [], notInitialized)).
Proof.
  intros b.
  destruct (session_state calls QemuModule.initial eq_refl) as (H1 & _ & _).
  fold b in H1. cbn [QemuModule.initial QemuModule.isInitialized orb] in H1.
  split; [exact H1 |]. unfold QemuModule.startVM. rewrite H1.
  destruct (existsb initializeResolves calls); cbn [negb].
  - split; [| discriminate]. split; [| discriminate].
    destruct (QemuModule.startService env _); cbn [snd]; unfold notInitialized;
      intros H; [discriminate H |].
    injection H as H _. vm_compute in H. discriminate H.
  - split; [split; reflexivity | reflexivity].
Qed.

Lemma startVM_refused_until_initialize_resolves_witness :
  snd (QemuModule.startVM bridgeEnv 2048 2
         (fst (QemuModule.session
                 [ (QemuModule.StopVM, bridgeEnv);
                   (QemuModule.Initialize, blankBridgeEnv) ]
                 QemuModule.initial)))
  = notInitialized.
Proof.
  destruct (startVM_refused_until_initialize_resolves
              [ (QemuModule.StopVM, bridgeEnv);
                (QemuModule.Initialize, blankBridgeEnv) ]
              bridgeEnv 2048 2) as (_ & H & _).
  apply H. reflexivity.
Defined.

(** X27. The status the bridge reports is read from two files only. The
    manager's start time is never set and its channel never opened, so
    after any calls on a new module [getStatus] resolves with running
    exactly when the socket file exists (as long as it does not appear or
    vanish during the call), whether or not the Docker port answers, and
    with an uptime that is the number in the uptime file, or 0 without
    that file or without the socket, whatever the clock reads. *)
Theorem bridge_status_is_read_from_files
    (calls : list (QemuModule.Call * QemuModule.Env)) (env : QemuModule.Env) :
  QemuModule.qmpSockExistsAfter env = QemuModule.qmpSockExists env ->
  let b := fst (QemuModule.session calls QemuModule.initial) in
  QemuModule.getStatus env b
  = (b, [],
     QemuModule.Resolve
       {| QemuModule.status :=
            if QemuModule.qmpSockExists env then str "running" else str "stopped";
          QemuModule.uptime :=
            if QemuModule.qmpSockExists env then
              match QemuModule.uptimeFile env with
              | Some (Ok seconds) => seconds
              | _ => 0
              end
            else 0 |}).
Proof.
  intros Hsock b.
  destruct (session_state calls QemuModule.initial eq_refl) as (_ & _ & H3).
  fold b in H3. cbn [QemuModule.initial QemuModule.managerStartTime] in H3.
  unfold QemuModule.getStatus, QemuManager.isRunning, QemuManager.getUptime.
  rewrite H3, Hsock.
  destruct (QemuModule.qmpSockExists env), (QemuModule.dockerProbe env);
    reflexivity.
Qed.

Lemma bridge_status_is_read_from_files_witness :
  snd (QemuModule.getStatus bridgeEnv
         (fst (QemuModule.session
                 [ (QemuModule.Initialize, bridgeEnv);
                   (QemuModule.StartVM 2048 2, bridgeEnv);
                   (QemuModule.SendCommand (str "docker ps"), bridgeEnv) ]
                 QemuModule.initial)))
  = QemuModule.Resolve {| QemuModule.status := str "running";
                          QemuModule.uptime := 0 |}.
Proof.
  rewrite (bridge_status_is_read_from_files
             [ (QemuModule.Initialize, bridgeEnv);
               (QemuModule.StartVM 2048 2, bridgeEnv);
               (QemuModule.SendCommand (str "docker ps"), bridgeEnv) ]
             bridgeEnv eq_refl).
  reflexivity.
Defined.
